(** * SSHLibrary: the Java (Trilead) client, [src/SSHLibrary/javaclient.py]

    A shallow embedding of [JavaSSHClient], [SFTPClient] and [RemoteCommand].
    The Trilead objects the module drives ([Connection], [Session],
    [SFTPv3Client]) and the [java.io] streams are not part of the
    repository: they appear here as interfaces (type classes over an
    abstract world), and as one in-memory implementation used to run the
    code on concrete inputs. *)

From Stdlib Require Import ZArith Lia Ascii String.
From stdpp Require Import base gmap strings list.

Open Scope string_scope.
Open Scope list_scope.
Open Scope Z_scope.

(** ** Exceptions

    The classes that the module raises or catches, and the Java ones that can
    cross it.  [SFTPException], [FileNotFoundException] and
    [UnsupportedEncodingException] extend [java.io.IOException]; Jython
    lets [except IOError] catch [java.io.IOException] and its subclasses. *)

Inductive exn : Type :=
| SSHClientException
| IOException
| SFTPException
| FileNotFoundException
| IndexOutOfBoundsException
| IllegalArgumentException
| AttributeError
| ValueError
| UnsupportedEncodingException.

(** [except IOException] *)
Definition isinstance_IOException (e : exn) : bool :=
  match e with
  | IOException | SFTPException | FileNotFoundException
  | UnsupportedEncodingException => true
  | _ => false
  end.

(** [except IOError] under Jython *)
Definition isinstance_IOError (e : exn) : bool := isinstance_IOException e.

(** [except SFTPException] *)
Definition isinstance_SFTPException (e : exn) : bool :=
  match e with
  | SFTPException => true
  | _ => false
  end.

(** ** Outcomes and the state-and-exception monad

    A call returns, raises, waits on a stream with nothing buffered
    ([Blocks]), or is cut off by the bound put on a [while True] loop
    ([OutOfFuel]).  The state survives a raise: what was done before the
    exception stays done. *)

Inductive outcome (A : Type) : Type :=
| Return (a : A)
| Raise (e : exn)
| Blocks
| OutOfFuel.

Arguments Return {A} a.
Arguments Raise {A} e.
Arguments Blocks {A}.
Arguments OutOfFuel {A}.

Definition M (S A : Type) : Type := S -> outcome A * S.

Definition ret {S A : Type} (a : A) : M S A := fun s => (Return a, s).

Definition raise {S A : Type} (e : exn) : M S A := fun s => (Raise e, s).

Definition out_of_fuel {S A : Type} : M S A := fun s => (OutOfFuel, s).

Definition bind {S A B : Type} (m : M S A) (k : A -> M S B) : M S B :=
  fun s =>
    match m s with
    | (Return a, s') => k a s'
    | (Raise e, s') => (Raise e, s')
    | (Blocks, s') => (Blocks, s')
    | (OutOfFuel, s') => (OutOfFuel, s')
    end.

(** [try: m except C: h], with [catches] the test [isinstance(e, C)] *)
Definition try_except {S A : Type} (m : M S A) (catches : exn -> bool)
    (h : M S A) : M S A :=
  fun s =>
    match m s with
    | (Raise e, s') => if catches e then h s' else (Raise e, s')
    | r => r
    end.

Declare Scope py_scope.
Delimit Scope py_scope with py.
Notation "x <- m ;; k" := (bind m (fun x => k))
  (at level 100, m at next level, right associativity) : py_scope.
Notation "m ;;; k" := (bind m (fun _ => k))
  (at level 100, right associativity) : py_scope.
Open Scope py_scope.

(** ** Data of the Trilead API *)

(** A Java [byte]: an integer in [-128, 127]. *)
Abbreviation jbyte := Z (only parsing).

(** [SFTPv3FileHandle], opaque to the client. *)
Abbreviation handle := nat (only parsing).

(** [SFTPv3FileAttributes]: the two fields the module reads or writes. *)
Record SFTPv3FileAttributes : Type := mkAttrs {
  attrs_size : Z;
  attrs_permissions : Z
}.

(** A [java.io.FileOutputStream] object. *)
Abbreviation ostream := nat (only parsing).

(** The two output streams of a [Session]. *)
Inductive std_stream : Type := Stdout | Stderr.

(** ** Calls made on the collaborators, as they are observed

    Every call the module makes on a Trilead or [java.io] object is recorded
    with its result, in call order. *)

Inductive event : Type :=
| ev_authenticateWithPassword (username password : string) (r : outcome bool)
| ev_authenticateWithPublicKey (username keyfile password : string)
    (r : outcome bool)
| ev_client_absolute_path (path : string) (r : outcome string)
| ev_stat (path : string) (r : outcome SFTPv3FileAttributes)
| ev_mkdir (path : string) (mode : Z) (r : outcome unit)
| ev_createFile (path : string) (r : outcome handle)
| ev_fstat (h : handle) (r : outcome SFTPv3FileAttributes)
| ev_fsetstat (h : handle) (a : SFTPv3FileAttributes) (r : outcome unit)
| ev_openFileRO (path : string) (r : outcome handle)
| ev_read (h : handle) (fileOffset len : Z) (r : outcome (option (list jbyte)))
| ev_closeFile (h : handle) (r : outcome unit)
| ev_FileOutputStream (path : string) (r : outcome ostream)
| ev_write (f : ostream) (bytes : list jbyte) (r : outcome unit)
| ev_flush (f : ostream) (r : outcome unit)
| ev_close (f : ostream) (r : outcome unit)
| ev_available (r : outcome Z)
| ev_stream_read (len : Z) (r : outcome (option (list jbyte)))
| ev_getStdout (r : outcome std_stream)
| ev_getStderr (r : outcome std_stream)
| ev_StreamGobbler (s : std_stream) (r : outcome (list jbyte))
| ev_getExitStatus (r : outcome (option Z))
| ev_session_close (r : outcome unit).

Record run (W : Type) : Type := mkRun {
  world : W;
  trace : list event
}.

Arguments mkRun {W} world trace.
Arguments world {W} r.
Arguments trace {W} r.

(** Perform [op] on the world and append the observed call to the trace. *)
Definition call {W A : Type} (mk : outcome A -> event)
    (op : W -> outcome A * W) : M (run W) A :=
  fun s =>
    let (r, w') := op (world s) in
    (r, mkRun w' (trace s ++ [mk r])).

(** ** Interfaces of the collaborators *)

(** [com.trilead.ssh2.Connection] *)
Class Connection (W : Type) : Type := {
  conn_authenticateWithPassword : string -> string -> W -> outcome bool * W;
  conn_authenticateWithPublicKey :
    string -> string -> string -> W -> outcome bool * W
}.

(** [com.trilead.ssh2.SFTPv3Client].  [sftp_read h off len] is the READ
    request: [Some payload] for a DATA reply, [None] for the EOF status.
    [sftp_private_absolute_path] is the lookup of the attribute
    [_absolute_path] on the Trilead object. *)
Class SFTPv3Client (W : Type) : Type := {
  sftp_private_absolute_path : string -> W -> outcome string * W;
  sftp_stat : string -> W -> outcome SFTPv3FileAttributes * W;
  sftp_mkdir : string -> Z -> W -> outcome unit * W;
  sftp_createFile : string -> W -> outcome handle * W;
  sftp_fstat : handle -> W -> outcome SFTPv3FileAttributes * W;
  sftp_fsetstat : handle -> SFTPv3FileAttributes -> W -> outcome unit * W;
  sftp_openFileRO : string -> W -> outcome handle * W;
  sftp_read : handle -> Z -> Z -> W -> outcome (option (list jbyte)) * W;
  sftp_closeFile : handle -> W -> outcome unit * W
}.

(** [java.io.FileOutputStream] on the local machine *)
Class LocalFiles (W : Type) : Type := {
  fos_new : string -> W -> outcome ostream * W;
  fos_write : ostream -> list jbyte -> W -> outcome unit * W;
  fos_flush : ostream -> W -> outcome unit * W;
  fos_close : ostream -> W -> outcome unit * W
}.

(** ** [JavaSSHClient]: authentication *)

Section JavaSSHClient_login.
Context {W : Type} `{Connection W}.

Definition authenticateWithPassword (username password : string)
    : M (run W) bool :=
  call (ev_authenticateWithPassword username password)
       (conn_authenticateWithPassword username password).

Definition authenticateWithPublicKey (username keyfile password : string)
    : M (run W) bool :=
  call (ev_authenticateWithPublicKey username keyfile password)
       (conn_authenticateWithPublicKey username keyfile password).

Definition _login (username password : string) : M (run W) unit :=
  ok <- authenticateWithPassword username password ;;
  if negb ok then raise SSHClientException else ret tt.

Definition _login_with_public_key (username keyfile password : string)
    : M (run W) unit :=
  try_except
    (success <- authenticateWithPublicKey username keyfile password ;;
     if negb success then raise SSHClientException else ret tt)
    isinstance_IOError
    (raise SSHClientException).

End JavaSSHClient_login.

(** ** Python and Java helpers *)

(** [len(x)] *)
Definition len {A : Type} (l : list A) : Z := Z.of_nat (length l).

(** [jarray.zeros(n, 'b')] *)
Definition zeros (n : Z) : list jbyte := replicate (Z.to_nat n) 0.

(** [s.startswith(p)] *)
Definition startswith (s p : string) : bool := String.prefix p s.

(** [s.split('/')]: the pieces between slashes, empty pieces included. *)
Fixpoint split_slash (s : string) : list string :=
  match s with
  | EmptyString => [EmptyString]
  | String c s' =>
      if Ascii.eqb c "/"%char then EmptyString :: split_slash s'
      else match split_slash s' with
           | piece :: pieces => String c piece :: pieces
           | [] => [String c EmptyString]
           end
  end.

(** Truth value of a Python string: non-empty. *)
Definition truthy_str (s : string) : bool :=
  match s with
  | EmptyString => false
  | _ => true
  end.

(** ['%s/%s' % (a, b)] *)
Definition format_slash (a b : string) : string := (a ++ "/" ++ b)%string.

(** [System.arraycopy(src, 0, dst, dstoff, src.length)] on a list. *)
Definition arraycopy {A : Type} (src dst : list A) (dstoff : Z) : list A :=
  (take (Z.to_nat dstoff) dst ++ src
     ++ drop (Z.to_nat dstoff + length src)%nat dst)%list.

(** [0744], an octal literal of Python 2. *)
Definition mode_0744 : Z := 484.

(** ** [SFTPClient] *)

Section SFTPClient.
Context {W : Type} `{SFTPv3Client W} `{LocalFiles W}.

(** *** The calls on [self._client] and on the local stream *)

Definition client_absolute_path (path : string) : M (run W) string :=
  call (ev_client_absolute_path path) (sftp_private_absolute_path path).

Definition stat (path : string) : M (run W) SFTPv3FileAttributes :=
  call (ev_stat path) (sftp_stat path).

Definition mkdir (path : string) (mode : Z) : M (run W) unit :=
  call (ev_mkdir path mode) (sftp_mkdir path mode).

Definition createFile (path : string) : M (run W) handle :=
  call (ev_createFile path) (sftp_createFile path).

Definition fstat (h : handle) : M (run W) SFTPv3FileAttributes :=
  call (ev_fstat h) (sftp_fstat h).

Definition fsetstat (h : handle) (a : SFTPv3FileAttributes)
    : M (run W) unit :=
  call (ev_fsetstat h a) (sftp_fsetstat h a).

Definition openFileRO (path : string) : M (run W) handle :=
  call (ev_openFileRO path) (sftp_openFileRO path).

Definition closeFile (h : handle) : M (run W) unit :=
  call (ev_closeFile h) (sftp_closeFile h).

(** [SFTPv3Client.read(handle, fileOffset, dst, dstoff, len)]: sends one
    READ request and copies the payload of the reply into [dst].  Returns
    the number of bytes of the reply, or [-1] on the EOF status, together
    with the array as the call leaves it. *)
Definition read (h : handle) (fileOffset : Z) (dst : list jbyte)
    (dstoff len : Z) : M (run W) (Z * list jbyte) :=
  if (32768 <? len) || (len <=? 0) then raise IllegalArgumentException
  else
    r <- call (ev_read h fileOffset len) (sftp_read h fileOffset len) ;;
    match r with
    | None => ret (-1, dst)
    | Some payload =>
        let readLen := Z.of_nat (length payload) in
        if len <? readLen then raise IOException
        else if (dstoff <? 0) || (Z.of_nat (length dst) <? dstoff + readLen)
        then raise IndexOutOfBoundsException
        else ret (readLen, arraycopy payload dst dstoff)
    end.

Definition FileOutputStream (path : string) : M (run W) ostream :=
  call (ev_FileOutputStream path) (fos_new path).

(** [FileOutputStream.write(b, off, len)] *)
Definition write (f : ostream) (b : list jbyte) (off len : Z)
    : M (run W) unit :=
  if (off <? 0) || (len <? 0) || (Z.of_nat (length b) <? off + len)
  then raise IndexOutOfBoundsException
  else
    let bytes := take (Z.to_nat len) (drop (Z.to_nat off) b) in
    call (ev_write f bytes) (fos_write f bytes).

Definition flush (f : ostream) : M (run W) unit :=
  call (ev_flush f) (fos_flush f).

Definition close (f : ostream) : M (run W) unit :=
  call (ev_close f) (fos_close f).

(** *** [_create_missing_remote_path] *)

(** The body of [for dirname in ...], from the current [curdir]. *)
Fixpoint _create_missing_remote_path_for (curdir : string)
    (dirnames : list string) : M (run W) unit :=
  match dirnames with
  | [] => ret tt
  | dirname :: dirnames' =>
      let curdir :=
        if truthy_str dirname then format_slash curdir dirname
        else curdir in
      try_except
        (stat curdir ;;; ret tt)
        isinstance_IOException
        (mkdir curdir mode_0744) ;;;
      _create_missing_remote_path_for curdir dirnames'
  end.

Definition _create_missing_remote_path (path : string) : M (run W) unit :=
  curdir <- (if startswith path "/" then ret "/"
             else client_absolute_path ".") ;;
  _create_missing_remote_path_for curdir (split_slash path).

(** *** [_create_remote_file] *)

Definition _create_remote_file (dest : string) (mode : Z)
    : M (run W) handle :=
  remote_file <- createFile dest ;;
  try_except
    (tempstats <- fstat remote_file ;;
     let tempstats :=
       {| attrs_size := attrs_size tempstats;
          attrs_permissions := mode |} in
     fsetstat remote_file tempstats)
    isinstance_SFTPException
    (ret tt) ;;;
  ret remote_file.

(** *** [_close_remote_file] *)

Definition _close_remote_file (remotefile : handle) : M (run W) unit :=
  closeFile remotefile.

(** *** [_get_file] *)

Definition arraysize : Z := 4096.

(** The [while True] loop, cut off after [fuel] iterations. *)
Fixpoint _get_file_while (fuel : nat) (remotefile : handle)
    (localfile : ostream) (remotefilesize size : Z) (data : list jbyte)
    : M (run W) unit :=
  match fuel with
  | O => out_of_fuel
  | S fuel' =>
      r <- read remotefile size data 0 arraysize ;;
      let moredata := fst r in
      let data := snd r in
      let datalen := len data in
      if moredata =? -1 then ret tt
      else
        let datalen :=
          if remotefilesize - size <? arraysize then remotefilesize - size
          else datalen in
        write localfile data 0 datalen ;;;
        _get_file_while fuel' remotefile localfile remotefilesize
          (size + datalen) data
  end.

Definition _get_file (fuel : nat) (remotepath localpath : string)
    : M (run W) unit :=
  localfile <- FileOutputStream localpath ;;
  tempstats <- stat remotepath ;;
  let remotefilesize := attrs_size tempstats in
  remotefile <- openFileRO remotepath ;;
  let size := 0 in
  let data := zeros arraysize in
  _get_file_while fuel remotefile localfile remotefilesize size data ;;;
  closeFile remotefile ;;;
  flush localfile ;;;
  close localfile.

End SFTPClient.

(** ** [JavaSSHClient]: reading from the shell *)

(** [self.config]: the values the client is configured with. *)
Record Configuration : Type := mkConfiguration {
  encoding : string;
  term_type : string;
  width : Z;
  height : Z
}.

(** The client once [open_shell] has run.  [_stdout] stands for the stream
    [self.shell.getStdout()]: the bytes the channel has received and that
    no read has consumed yet. *)
Record JavaSSHClient : Type := mkJavaSSHClient {
  config : Configuration;
  _stdout : list jbyte
}.

(** [InputStream.available()] *)
Definition stdout_available (self : JavaSSHClient)
    : outcome Z * JavaSSHClient :=
  (Return (len (_stdout self)), self).

(** [InputStream.read(byte[] b)] asked for [n = b.length] bytes: nothing to
    do for an empty array; otherwise it waits until at least one byte is
    buffered and hands over at most [n] of the buffered ones. *)
Definition stdout_read (n : Z) (self : JavaSSHClient)
    : outcome (option (list jbyte)) * JavaSSHClient :=
  if n =? 0 then (Return (Some []), self)
  else
    match _stdout self with
    | [] => (Blocks, self)
    | buffered =>
        (Return (Some (take (Z.to_nat n) buffered)),
         mkJavaSSHClient (config self) (drop (Z.to_nat n) buffered))
    end.

Definition available : M (run JavaSSHClient) Z :=
  call ev_available stdout_available.

(** [self._stdout.read(b)]: the count returned ([-1] at end of stream) and
    the array as the call leaves it. *)
Definition stream_read (b : list jbyte)
    : M (run JavaSSHClient) (Z * list jbyte) :=
  r <- call (ev_stream_read (len b)) (stdout_read (len b)) ;;
  match r with
  | None => ret (-1, b)
  | Some payload => ret (len payload, arraycopy payload b 0)
  end.

(** [chr(i)]: defined on [range(256)] only. *)
Definition chr {S : Type} (i : Z) : M S string :=
  if (0 <=? i) && (i <? 256)
  then ret (String (ascii_of_N (Z.to_N i)) EmptyString)
  else raise ValueError.

(** A list comprehension [[f(x) for x in l]] whose body may raise. *)
Fixpoint comprehension {S A B : Type} (f : A -> M S B) (l : list A)
    : M S (list B) :=
  match l with
  | [] => ret []
  | x :: l' =>
      y <- f x ;;
      ys <- comprehension f l' ;;
      ret (y :: ys)
  end.

(** [''.join(l)] *)
Definition join (l : list string) : string :=
  fold_right String.append EmptyString l.

Definition _read : M (run JavaSSHClient) string :=
  let data := EmptyString in
  n <- available ;;
  if negb (n =? 0) then
    n' <- available ;;
    let read_bytes := zeros n' in
    r <- stream_read read_bytes ;;
    let read_bytes := snd r in
    chars <- comprehension (fun b => chr (Z.land b 255)) read_bytes ;;
    ret (join chars)
  else ret data.

(** ** [RemoteCommand] *)

(** A [Session] on which the command has been dispatched: the bytes the
    remote process writes to each stream before closing it, the exit status
    it reports if any, whether [close()] has been called, and the size of
    the channel's window.  The two streams share that window: the bytes of
    a stream that nobody reads stay in the channel, and once they fill the
    window the remote side can send nothing more on either stream. *)
Record Session : Type := mkSession {
  session_stdout : list jbyte;
  session_stderr : list jbyte;
  session_exit_status : option Z;
  session_closed : bool;
  session_window : Z
}.

Definition session_getStdout (s : Session) : outcome std_stream * Session :=
  (Return Stdout, s).

Definition session_getStderr (s : Session) : outcome std_stream * Session :=
  (Return Stderr, s).

(** Reading [StreamGobbler(stream)] up to the end of the stream.  The end
    comes only when the remote process has written everything: while the
    other stream, which is not being read, has as many bytes to deliver as
    the window holds, the process cannot finish and the reader waits. *)
Definition session_gobble (which : std_stream) (s : Session)
    : outcome (list jbyte) * Session :=
  match which with
  | Stdout =>
      if session_window s <=? len (session_stderr s) then (Blocks, s)
      else
        (Return (session_stdout s),
         mkSession [] (session_stderr s) (session_exit_status s)
           (session_closed s) (session_window s))
  | Stderr =>
      if session_window s <=? len (session_stdout s) then (Blocks, s)
      else
        (Return (session_stderr s),
         mkSession (session_stdout s) [] (session_exit_status s)
           (session_closed s) (session_window s))
  end.

Definition session_getExitStatus (s : Session)
    : outcome (option Z) * Session :=
  (Return (session_exit_status s), s).

Definition session_close (s : Session) : outcome unit * Session :=
  (Return tt,
   mkSession (session_stdout s) (session_stderr s) (session_exit_status s)
     true (session_window s)).

Definition LF : ascii := ascii_of_nat 10.
Definition CR : ascii := ascii_of_nat 13.

(** The Python literal ['\n']. *)
Definition newline : string := String LF EmptyString.

(** One line of [BufferedReader.readLine()]: the characters up to the first
    line feed, carriage return, or carriage return and line feed, which is
    dropped, and what follows it. *)
Fixpoint scan_line (text : string) : string * string :=
  match text with
  | EmptyString => (EmptyString, EmptyString)
  | String c text' =>
      if Ascii.eqb c LF then (EmptyString, text')
      else if Ascii.eqb c CR then
        (EmptyString,
         match text' with
         | String c' text'' => if Ascii.eqb c' LF then text'' else text'
         | EmptyString => text'
         end)
      else
        let (line, rest) := scan_line text' in (String c line, rest)
  end.

(** [reader.readLine()]: [None] at the end of the stream. *)
Definition readLine (reader : string) : option string * string :=
  match reader with
  | EmptyString => (None, EmptyString)
  | _ => let (line, rest) := scan_line reader in (Some line, rest)
  end.

(** [x or 0] for a [java.lang.Integer] or [None]. *)
Definition or_0 (x : option Z) : Z :=
  match x with
  | Some n => if n =? 0 then 0 else n
  | None => 0
  end.

Section RemoteCommand.
(** The charsets of the Java runtime: [decode charset] is the decoder that
    [InputStreamReader(_, charset)] uses, the text the bytes stand for, and
    [None] when the runtime has no charset of that name. *)
Variable decode : string -> option (list jbyte -> string).

(** [self._command], [self._encoding]; [self._session] is the world. *)
Record RemoteCommand : Type := mkRemoteCommand {
  _command : string;
  _encoding : string
}.

Definition getStdout : M (run Session) std_stream :=
  call ev_getStdout session_getStdout.

Definition getStderr : M (run Session) std_stream :=
  call ev_getStderr session_getStderr.

Definition getExitStatus : M (run Session) (option Z) :=
  call ev_getExitStatus session_getExitStatus.

Definition Session_close : M (run Session) unit :=
  call ev_session_close session_close.

(** [BufferedReader(InputStreamReader(StreamGobbler(stream), charset))]:
    the reader is the text it has still to deliver.  The constructor of
    [InputStreamReader] looks the charset up and throws
    [UnsupportedEncodingException] when there is none of that name, before
    anything is read; otherwise the lines come from the gobbled stream. *)
Definition BufferedReader (stream : std_stream) (charset : string)
    : M (run Session) string :=
  match decode charset with
  | None => raise UnsupportedEncodingException
  | Some decoder =>
      bytes <- call (ev_StreamGobbler stream) (session_gobble stream) ;;
      ret (decoder bytes)
  end.

(** [while line is not None], cut off after [fuel] iterations. *)
Fixpoint _read_from_stream_while (fuel : nat) (reader : string)
    (result : string) (line : option string) : M (run Session) string :=
  match fuel with
  | O => out_of_fuel
  | S fuel' =>
      match line with
      | None => ret result
      | Some l =>
          let result := (result ++ l ++ newline)%string in
          let (line, reader) := readLine reader in
          _read_from_stream_while fuel' reader result line
      end
  end.

Definition _read_from_stream (self : RemoteCommand) (fuel : nat)
    (stream : std_stream) : M (run Session) string :=
  reader <- BufferedReader stream (_encoding self) ;;
  let result := EmptyString in
  let (line, reader) := readLine reader in
  _read_from_stream_while fuel reader result line.

Definition read_outputs (self : RemoteCommand) (fuel : nat)
    : M (run Session) (string * string * Z) :=
  stream <- getStdout ;;
  stdout <- _read_from_stream self fuel stream ;;
  stream <- getStderr ;;
  stderr <- _read_from_stream self fuel stream ;;
  status <- getExitStatus ;;
  let rc := or_0 status in
  Session_close ;;;
  ret (stdout, stderr, rc).

End RemoteCommand.

(** ** An in-memory SFTP server and local disk

    One implementation of the interfaces above, to run the client on.  The
    remote tree is keyed by the components of a path, so that [//a/b] and
    [/a/b] name the same entry; the root always exists.  Regular files are
    served as the SFTP drafts require: a READ returns the bytes asked for,
    or up to the end of the file, and the EOF status at or past the end.
    [read_limit] is the most the server puts in one DATA reply, and
    [setstat_supported] whether it accepts SETSTAT requests. *)

Inductive node : Type :=
| Dir (perm : Z)
| File (perm : Z) (content : list jbyte).

Record machine : Type := mkMachine {
  remote : gmap (list string) node;
  handles : gmap nat (list string);
  next_handle : nat;
  read_limit : Z;
  setstat_supported : bool;
  local : gmap string (list jbyte);
  streams : gmap nat string;
  next_stream : nat
}.

Definition components (path : string) : list string :=
  List.filter truthy_str (split_slash path).

Definition node_at (fs : gmap (list string) node) (p : list string)
    : option node :=
  match p with
  | [] => Some (Dir 493)
  | _ => fs !! p
  end.

Definition attrs_of (n : node) : SFTPv3FileAttributes :=
  match n with
  | Dir perm => mkAttrs 4096 perm
  | File perm content => mkAttrs (len content) perm
  end.

Definition with_remote (m : machine) (fs : gmap (list string) node)
    : machine :=
  mkMachine fs (handles m) (next_handle m) (read_limit m)
    (setstat_supported m) (local m) (streams m) (next_stream m).

Definition with_handles (m : machine) (hs : gmap nat (list string))
    (next : nat) : machine :=
  mkMachine (remote m) hs next (read_limit m) (setstat_supported m)
    (local m) (streams m) (next_stream m).

Definition with_local (m : machine) (l : gmap string (list jbyte))
    : machine :=
  mkMachine (remote m) (handles m) (next_handle m) (read_limit m)
    (setstat_supported m) l (streams m) (next_stream m).

Definition with_streams (m : machine) (ss : gmap nat string) (next : nat)
    : machine :=
  mkMachine (remote m) (handles m) (next_handle m) (read_limit m)
    (setstat_supported m) (local m) ss next.

(** The Trilead class has [canonicalPath], and no [_absolute_path]. *)
Definition machine_private_absolute_path (path : string) (m : machine)
    : outcome string * machine :=
  (Raise AttributeError, m).

Definition machine_stat (path : string) (m : machine)
    : outcome SFTPv3FileAttributes * machine :=
  match node_at (remote m) (components path) with
  | Some n => (Return (attrs_of n), m)
  | None => (Raise SFTPException, m)
  end.

Definition parent (p : list string) : list string := removelast p.

Definition machine_mkdir (path : string) (mode : Z) (m : machine)
    : outcome unit * machine :=
  let p := components path in
  match node_at (remote m) p with
  | Some _ => (Raise SFTPException, m)
  | None =>
      match node_at (remote m) (parent p) with
      | Some (Dir _) => (Return tt, with_remote m (<[p := Dir mode]> (remote m)))
      | _ => (Raise SFTPException, m)
      end
  end.

Definition open_handle (p : list string) (m : machine)
    : outcome handle * machine :=
  (Return (next_handle m),
   with_handles m (<[next_handle m := p]> (handles m)) (S (next_handle m))).

(** [createFile] opens the file for reading and writing and creates it if
    it is not there; it does not truncate: a file that is there keeps its
    content and its mode. *)
Definition machine_createFile (path : string) (m : machine)
    : outcome handle * machine :=
  let p := components path in
  match node_at (remote m) (parent p), node_at (remote m) p with
  | Some (Dir _), None =>
      open_handle p (with_remote m (<[p := File 420 []]> (remote m)))
  | Some (Dir _), Some (File _ _) => open_handle p m
  | _, _ => (Raise SFTPException, m)
  end.

Definition machine_fstat (h : handle) (m : machine)
    : outcome SFTPv3FileAttributes * machine :=
  match handles m !! h with
  | None => (Raise IOException, m)
  | Some p =>
      match node_at (remote m) p with
      | Some n => (Return (attrs_of n), m)
      | None => (Raise SFTPException, m)
      end
  end.

Definition machine_fsetstat (h : handle) (a : SFTPv3FileAttributes)
    (m : machine) : outcome unit * machine :=
  match handles m !! h with
  | None => (Raise IOException, m)
  | Some p =>
      if negb (setstat_supported m) then (Raise SFTPException, m)
      else
        match remote m !! p with
        | Some (File _ content) =>
            (Return tt,
             with_remote m (<[p := File (attrs_permissions a) content]>
                              (remote m)))
        | Some (Dir _) =>
            (Return tt,
             with_remote m (<[p := Dir (attrs_permissions a)]> (remote m)))
        | None => (Raise SFTPException, m)
        end
  end.

Definition machine_openFileRO (path : string) (m : machine)
    : outcome handle * machine :=
  let p := components path in
  match node_at (remote m) p with
  | Some (File _ _) => open_handle p m
  | _ => (Raise SFTPException, m)
  end.

Definition machine_read (h : handle) (fileOffset len : Z) (m : machine)
    : outcome (option (list jbyte)) * machine :=
  match handles m !! h with
  | None => (Raise IOException, m)
  | Some p =>
      match node_at (remote m) p with
      | Some (File _ content) =>
          if (fileOffset <? 0) then (Raise SFTPException, m)
          else if Z.of_nat (length content) <=? fileOffset
          then (Return None, m)
          else
            (Return (Some (take (Z.to_nat (Z.min len (read_limit m)))
                             (drop (Z.to_nat fileOffset) content))), m)
      | _ => (Raise SFTPException, m)
      end
  end.

Definition machine_closeFile (h : handle) (m : machine)
    : outcome unit * machine :=
  match handles m !! h with
  | None => (Raise IOException, m)
  | Some _ => (Return tt, with_handles m (delete h (handles m)) (next_handle m))
  end.

#[export] Instance machine_SFTPv3Client : SFTPv3Client machine := {
  sftp_private_absolute_path := machine_private_absolute_path;
  sftp_stat := machine_stat;
  sftp_mkdir := machine_mkdir;
  sftp_createFile := machine_createFile;
  sftp_fstat := machine_fstat;
  sftp_fsetstat := machine_fsetstat;
  sftp_openFileRO := machine_openFileRO;
  sftp_read := machine_read;
  sftp_closeFile := machine_closeFile
}.

(** [new FileOutputStream(path)] creates the file or truncates it. *)
Definition machine_fos_new (path : string) (m : machine)
    : outcome ostream * machine :=
  if negb (truthy_str path) then (Raise FileNotFoundException, m)
  else
    (Return (next_stream m),
     with_streams (with_local m (<[path := []]> (local m)))
       (<[next_stream m := path]> (streams m)) (S (next_stream m))).

Definition machine_fos_write (f : ostream) (bytes : list jbyte) (m : machine)
    : outcome unit * machine :=
  match streams m !! f with
  | None => (Raise IOException, m)
  | Some path =>
      (Return tt,
       with_local m (<[path := (default [] (local m !! path) ++ bytes)%list]>
                       (local m)))
  end.

Definition machine_fos_flush (f : ostream) (m : machine)
    : outcome unit * machine :=
  (Return tt, m).

Definition machine_fos_close (f : ostream) (m : machine)
    : outcome unit * machine :=
  (Return tt, with_streams m (delete f (streams m)) (next_stream m)).

#[export] Instance machine_LocalFiles : LocalFiles machine := {
  fos_new := machine_fos_new;
  fos_write := machine_fos_write;
  fos_flush := machine_fos_flush;
  fos_close := machine_fos_close
}.

(** A server holding one file, nothing open and an empty local disk. *)
Definition machine_with_file (path : string) (content : list jbyte)
    : machine :=
  mkMachine {[ components path := File 420 content ]} ∅ 0 32768 true ∅ ∅ 0.

(** A file of [n] bytes that differ from their neighbours. *)
Definition test_content (n : Z) : list jbyte :=
  map (fun i => Z.of_nat i mod 251 - 125) (seq 0 (Z.to_nat n)).

(** A server with the root directory only. *)
Definition empty_machine : machine := mkMachine ∅ ∅ 0 32768 true ∅ ∅ 0.

(** ** An in-memory SSH server for authentication

    Accounts with a password and an authorized key, and the key files on the
    local disk: [None] stands for a file whose content is no valid key. *)

Record sshd : Type := mkSshd {
  passwords : gmap string string;
  authorized_keys : gmap string string;
  key_files : gmap string (option string)
}.

Definition sshd_authenticateWithPassword (username password : string)
    (w : sshd) : outcome bool * sshd :=
  (Return (bool_decide (passwords w !! username = Some password)), w).

Definition sshd_authenticateWithPublicKey (username keyfile password : string)
    (w : sshd) : outcome bool * sshd :=
  match key_files w !! keyfile with
  | None => (Raise FileNotFoundException, w)
  | Some None => (Raise IOException, w)
  | Some (Some key) =>
      (Return (bool_decide (authorized_keys w !! username = Some key)), w)
  end.

#[export] Instance sshd_Connection : Connection sshd := {
  conn_authenticateWithPassword := sshd_authenticateWithPassword;
  conn_authenticateWithPublicKey := sshd_authenticateWithPublicKey
}.

(** One account, [robot], and two key files: a key the server does not
    accept and a file that holds no key. *)
Definition test_sshd : sshd :=
  mkSshd {[ "robot" := "secret" ]} {[ "robot" := "robot-key" ]}
         {[ "id_other" := Some "other-key"; "id_broken" := None ]}.

(** ** A connection that is lost

    Any SFTP server, behind a link that carries [n] more requests and then
    fails every request with an [IOException]. *)

Definition over_link {W A : Type} (op : W -> outcome A * W) (s : W * nat)
    : outcome A * (W * nat) :=
  match snd s with
  | O => (Raise IOException, s)
  | S n => let (r, w') := op (fst s) in (r, (w', n))
  end.

#[export] Instance lossy_SFTPv3Client {W : Type} `{SFTPv3Client W}
    : SFTPv3Client (W * nat) := {
  sftp_private_absolute_path path :=
    fun s => let (r, w') := sftp_private_absolute_path path (fst s) in
             (r, (w', snd s));
  sftp_stat path := over_link (sftp_stat path);
  sftp_mkdir path mode := over_link (sftp_mkdir path mode);
  sftp_createFile path := over_link (sftp_createFile path);
  sftp_fstat h := over_link (sftp_fstat h);
  sftp_fsetstat h a := over_link (sftp_fsetstat h a);
  sftp_openFileRO path := over_link (sftp_openFileRO path);
  sftp_read h off n := over_link (sftp_read h off n);
  sftp_closeFile h := over_link (sftp_closeFile h)
}.

Definition beside_link {W A : Type} (op : W -> outcome A * W) (s : W * nat)
    : outcome A * (W * nat) :=
  let (r, w') := op (fst s) in (r, (w', snd s)).

#[export] Instance lossy_LocalFiles {W : Type} `{LocalFiles W}
    : LocalFiles (W * nat) := {
  fos_new path := beside_link (fos_new path);
  fos_write f bytes := beside_link (fos_write f bytes);
  fos_flush f := beside_link (fos_flush f);
  fos_close f := beside_link (fos_close f)
}.

(** ** Vocabulary of the statements *)

(** A fresh run on a world: nothing observed yet. *)
Definition start {W : Type} (w : W) : run W := mkRun w [].

(** The handles on which [closeFile] was called, in call order. *)
Fixpoint closed_handles (evs : list event) : list handle :=
  match evs with
  | [] => []
  | ev_closeFile h _ :: evs' => h :: closed_handles evs'
  | _ :: evs' => closed_handles evs'
  end.

(** The paths on which [mkdir] was called, in call order. *)
Fixpoint mkdir_calls (evs : list event) : list string :=
  match evs with
  | [] => []
  | ev_mkdir p _ _ :: evs' => p :: mkdir_calls evs'
  | _ :: evs' => mkdir_calls evs'
  end.

(** The number of bytes handed to each local [write], in call order. *)
Fixpoint write_lengths (evs : list event) : list Z :=
  match evs with
  | [] => []
  | ev_write _ bytes _ :: evs' => len bytes :: write_lengths evs'
  | _ :: evs' => write_lengths evs'
  end.

(** The paths on which [stat] was called and returned, in call order. *)
Fixpoint successful_stats (evs : list event) : list string :=
  match evs with
  | [] => []
  | ev_stat p (Return _) :: evs' => p :: successful_stats evs'
  | _ :: evs' => successful_stats evs'
  end.

(** The size in the first successful [stat] reply. *)
Fixpoint stat_reported_size (evs : list event) : option Z :=
  match evs with
  | [] => None
  | ev_stat _ (Return a) :: _ => Some (attrs_size a)
  | _ :: evs' => stat_reported_size evs'
  end.

(** The requests and writes of the transfer loop. *)
Definition is_transfer_event (ev : event) : bool :=
  match ev with
  | ev_read _ _ _ _ | ev_write _ _ _ => true
  | _ => false
  end.

(** The calls that read from the shell's stream. *)
Definition is_stream_read (ev : event) : bool :=
  match ev with
  | ev_stream_read _ _ => true
  | _ => false
  end.

(** Write lengths as the chunking rule dictates them, from a running count
    [size] towards [remotefilesize]: a full array while at least
    [arraysize] bytes remain, the remainder afterwards. *)
Fixpoint chunked (remotefilesize size : Z) (lens : list Z) : Prop :=
  match lens with
  | [] => True
  | datalen :: lens' =>
      datalen = (if remotefilesize - size <? arraysize
                 then remotefilesize - size else arraysize)
      /\ chunked remotefilesize (size + datalen) lens'
  end.

Definition sum_list (l : list Z) : Z := fold_right Z.add 0 l.

(** The running count, started at [size] and advanced by each write, stays
    within [remotefilesize]. *)
Fixpoint never_exceeds (remotefilesize size : Z) (lens : list Z) : Prop :=
  match lens with
  | [] => size <= remotefilesize
  | datalen :: lens' =>
      size <= remotefilesize
      /\ never_exceeds remotefilesize (size + datalen) lens'
  end.

(** The permission step of [_create_remote_file], run on the server
    directly: [fstat], then [fsetstat] with the requested mode. *)
Definition apply_permissions {W : Type} `{SFTPv3Client W} (h : handle)
    (mode : Z) (w : W) : outcome unit * W :=
  match sftp_fstat h w with
  | (Return a, w1) => sftp_fsetstat h (mkAttrs (attrs_size a) mode) w1
  | (Raise e, w1) => (Raise e, w1)
  | (Blocks, w1) => (Blocks, w1)
  | (OutOfFuel, w1) => (OutOfFuel, w1)
  end.

(** Latin-1: every byte is the character with its unsigned value. *)
Definition latin1_char (b : jbyte) : ascii := ascii_of_N (Z.to_N (Z.land b 255)).

Definition latin1 (bytes : list jbyte) : string :=
  fold_right (fun b text => String (latin1_char b) text) EmptyString bytes.

(** The lines a [BufferedReader] delivers before the end of the stream. *)
Fixpoint lines_upto (n : nat) (text : string) : list string :=
  match n with
  | O => []
  | S n' =>
      match readLine text with
      | (Some line, rest) => line :: lines_upto n' rest
      | (None, _) => []
      end
  end.

Definition lines (text : string) : list string :=
  lines_upto (String.length text) text.

(** Every line followed by the line separator, concatenated. *)
Definition terminated (ls : list string) : string :=
  join (map (fun l => (l ++ newline)%string) ls).

(** A line as a process emits it: no line feed or carriage return inside. *)
Fixpoint plain (l : string) : bool :=
  match l with
  | EmptyString => true
  | String c l' => negb (Ascii.eqb c LF) && negb (Ascii.eqb c CR) && plain l'
  end.

(** The segments on which [_create_missing_remote_path] calls [stat]. *)
Fixpoint segments (curdir : string) (dirnames : list string) : list string :=
  match dirnames with
  | [] => []
  | dirname :: dirnames' =>
      let curdir :=
        if truthy_str dirname then format_slash curdir dirname else curdir in
      curdir :: segments curdir dirnames'
  end.

(** A [mkdir] comes only right after a [stat] of the same path that raised
    an [IOException], and every such [stat] is followed by that [mkdir]. *)
Fixpoint stat_then_mkdir (evs : list event) : bool :=
  match evs with
  | [] => true
  | ev_stat p (Return _) :: evs' => stat_then_mkdir evs'
  | ev_stat p (Raise e) :: evs' =>
      if isinstance_IOException e then
        match evs' with
        | ev_mkdir p' mode _ :: evs'' =>
            String.eqb p p' && (mode =? mode_0744) && stat_then_mkdir evs''
        | _ => false
        end
      else match evs' with [] => true | _ => false end
  | ev_stat p _ :: evs' => match evs' with [] => true | _ => false end
  | ev_client_absolute_path _ _ :: evs' => stat_then_mkdir evs'
  | _ => false
  end.

(** Every event a computation appends satisfies [P]. *)
Definition emits {W A : Type} (P : event -> Prop) (m : M (run W) A) : Prop :=
  forall s, exists evs, trace (snd (m s)) = trace s ++ evs /\ Forall P evs.

(** The length the loop writes in an iteration. *)
Definition chunk (remotefilesize size : Z) : Z :=
  if remotefilesize - size <? arraysize then remotefilesize - size
  else arraysize.

(** [stat] of [p] returns on the server [w]. *)
Definition exists_on {W : Type} `{SFTPv3Client W} (w : W) (p : string)
    : Prop :=
  exists a, fst (sftp_stat p w) = Return a.

(** What holds of the machine while [content] is being copied through the
    handle [h] to the stream [f] on [localpath], [size] bytes in. *)
Definition copying (content : list jbyte) (perm : Z) (p : list string)
    (h : handle) (f : ostream) (localpath : string) (size : Z) (m : machine)
    : Prop :=
  node_at (remote m) p = Some (File perm content)
  /\ handles m !! h = Some p
  /\ streams m !! f = Some localpath
  /\ local m !! localpath = Some (take (Z.to_nat size) content)
  /\ arraysize <= read_limit m.

(** A server with the directory [/tmp] that refuses SETSTAT requests. *)
Definition machine_without_setstat : machine :=
  mkMachine {[ ["tmp"] := Dir 511 ]} ∅ 0 32768 false ∅ ∅ 0.

(** The characters of ["echo hi"]'s output, one byte each. *)
Definition echo_hi : Session :=
  mkSession [104; 105; 10] [] None false 30000.

(** ** More of the module

    The functions below complete [JavaSSHClient] and [SFTPClient]. *)

(** *** [JavaSSHClient._read_byte] *)

(** [InputStream.read()]: the next byte of the stream as an [int] in
    [0, 255]; it waits while nothing is buffered. *)
Definition stdout_read_one (self : JavaSSHClient)
    : outcome Z * JavaSSHClient :=
  match _stdout self with
  | [] => (Blocks, self)
  | b :: buffered =>
      (Return (Z.land b 255), mkJavaSSHClient (config self) buffered)
  end.

(** [self._stdout.read()], observed as a read of one byte. *)
Definition stream_read_one : M (run JavaSSHClient) Z :=
  call (fun r => ev_stream_read 1
                   match r with
                   | Return c => Return (Some [c])
                   | Raise e => Raise e
                   | Blocks => Blocks
                   | OutOfFuel => OutOfFuel
                   end)
       stdout_read_one.

Definition _read_byte : M (run JavaSSHClient) string :=
  let data := EmptyString in
  n <- available ;;
  if negb (n =? 0) then
    c <- stream_read_one ;;
    chr c
  else ret data.

(** *** [JavaSSHClient._write] *)

(** [self._writer], the [OutputStream] of the shell: the bytes written and
    not yet flushed, the bytes that have left for the remote side, and
    whether the stream has been closed. *)
Record Writer : Type := mkWriter {
  pending : list jbyte;
  sent : list jbyte;
  writer_closed : bool
}.

(** A Python [str] handed to a Java method that takes a [byte[]]: one byte
    per character, the character's code as a signed byte. *)
Definition str_bytes (text : string) : list jbyte :=
  map (fun c => let n := Z.of_N (N_of_ascii c) in
                if n <? 128 then n else n - 256)
      (list_ascii_of_string text).

(** [OutputStream.write(byte[])] *)
Definition writer_write (bytes : list jbyte) : M Writer unit :=
  fun w =>
    if writer_closed w then (Raise IOException, w)
    else (Return tt, mkWriter (pending w ++ bytes) (sent w) false).

(** [OutputStream.flush()] *)
Definition writer_flush : M Writer unit :=
  fun w =>
    if writer_closed w then (Raise IOException, w)
    else (Return tt, mkWriter [] (sent w ++ pending w) false).

Definition _write (text : string) : M Writer unit :=
  writer_write (str_bytes text) ;;;
  writer_flush.

(** A command that wrote ["one"], a carriage return and a line feed, then
    ["two"] and no line end, and exited with status 2. *)
Definition crlf_session : Session :=
  mkSession [111; 110; 101; 13; 10; 116; 119; 111] [] (Some 2) false
            30000.

(** *** Vocabulary for the paths of [_create_missing_remote_path] *)

(** A piece of a path: no slash inside. *)
Fixpoint slash_free (s : string) : bool :=
  match s with
  | EmptyString => true
  | String c s' => negb (Ascii.eqb c "/"%char) && slash_free s'
  end.

(** The paths handed to [stat] or [mkdir], in call order. *)
Fixpoint touched_paths (evs : list event) : list string :=
  match evs with
  | [] => []
  | ev_stat p _ :: evs' => p :: touched_paths evs'
  | ev_mkdir p _ _ :: evs' => p :: touched_paths evs'
  | _ :: evs' => touched_paths evs'
  end.

(** The entry at the components [p] is a directory. *)
Definition is_dir (m : machine) (p : list string) : Prop :=
  exists perm, node_at (remote m) p = Some (Dir perm).

(** No regular file sits at [p] or above it. *)
Definition no_file_above (m : machine) (p : list string) : Prop :=
  forall k perm content,
    node_at (remote m) (take k p) <> Some (File perm content).

(** *** Vocabulary for [_get_file] on the in-memory server *)

(** From [m] to [m'] the remote tree is the same, and so is every local
    file other than [localpath]. *)
Definition same_files_but (localpath : string) (m m' : machine) : Prop :=
  remote m' = remote m
  /\ forall q, q <> localpath -> local m' !! q = local m !! q.

(** The machine as [_get_file] finds it when it enters the loop: the local
    file created empty, its stream and the remote handle open. *)
Definition entering_loop (m : machine) (remotepath localpath : string)
    : machine :=
  with_handles
    (with_streams (with_local m (<[localpath := []]> (local m)))
       (<[next_stream m := localpath]> (streams m)) (S (next_stream m)))
    (<[next_handle m := components remotepath]> (handles m))
    (S (next_handle m)).

(** A server in the middle of a download of [/f]: handle [0] open on the
    file, stream [0] open on the local file [out]. *)
Definition machine_mid_transfer (content : list jbyte) : machine :=
  mkMachine {[ ["f"] := File 420 content ]} {[ 0%nat := ["f"] ]} 1 32768 true
            {[ "out" := [] ]} {[ 0%nat := "out" ]} 1.

(** A server that puts at most two bytes in a reply, holding [/f]. *)
Definition machine_short_replies (content : list jbyte) : machine :=
  mkMachine {[ ["f"] := File 420 content ]} ∅ 0 2 true ∅ ∅ 0.

(** A server with the root only; the local disk holds the file [out]. *)
Definition machine_with_local_file (bytes : list jbyte) : machine :=
  mkMachine ∅ ∅ 0 32768 true {[ "out" := bytes ]} ∅ 0.

(** *** [SFTPClient._write_to_remote_file] *)

(** The part of [SFTPv3Client] that writes: [sftp_write h off bytes] puts
    [bytes] into the file of the handle from the offset [off] on. *)
Class SFTPv3ClientWrite (W : Type) : Type := {
  sftp_write : handle -> Z -> list jbyte -> W -> outcome unit * W
}.

(** A call that the trace does not record. *)
Definition unobserved {W A : Type} (op : W -> outcome A * W)
    : M (run W) A :=
  fun s => let (r, w') := op (world s) in (r, mkRun w' (trace s)).

(** [SFTPv3Client.write(handle, fileOffset, src, srcoff, len)] *)
Definition client_write {W : Type} `{SFTPv3ClientWrite W} (h : handle)
    (fileOffset : Z) (src : list jbyte) (srcoff n : Z) : M (run W) unit :=
  if (srcoff <? 0) || (n <? 0) || (len src <? srcoff + n)
  then raise IndexOutOfBoundsException
  else unobserved (sftp_write h fileOffset
                     (take (Z.to_nat n) (drop (Z.to_nat srcoff) src))).

Definition _write_to_remote_file {W : Type} `{SFTPv3ClientWrite W}
    (remotefile : handle) (data : list jbyte) (position : Z)
    : M (run W) unit :=
  client_write remotefile position data 0 (len data).

(** [content] with [bytes] written from offset [off] on; a gap between the
    end of the file and the offset reads as zeros. *)
Definition write_at (content : list jbyte) (off : nat) (bytes : list jbyte)
    : list jbyte :=
  take off (content ++ replicate (off - length content) 0)
    ++ bytes ++ drop (off + length bytes) content.

Definition machine_write (h : handle) (fileOffset : Z) (bytes : list jbyte)
    (m : machine) : outcome unit * machine :=
  match handles m !! h with
  | None => (Raise IOException, m)
  | Some p =>
      match node_at (remote m) p with
      | Some (File perm content) =>
          if fileOffset <? 0 then (Raise SFTPException, m)
          else
            (Return tt,
             with_remote m
               (<[p := File perm
                         (write_at content (Z.to_nat fileOffset) bytes)]>
                  (remote m)))
      | _ => (Raise SFTPException, m)
      end
  end.

#[export] Instance machine_SFTPv3ClientWrite : SFTPv3ClientWrite machine := {
  sftp_write := machine_write
}.

(** A server with the directory [/srv] and a file [/srv/old] of mode
    [0600]. *)
Definition machine_with_srv : machine :=
  mkMachine {[ ["srv"] := Dir 493; ["srv"; "old"] := File 384 [1; 2] ]}
            ∅ 0 32768 true ∅ ∅ 0.

(** The mode a file has right after [createFile]: its old one if the file
    was there, the server's default otherwise. *)
Definition created_perm (m : machine) (p : list string) : Z :=
  match node_at (remote m) p with
  | Some (File perm _) => perm
  | _ => 420
  end.

(** The content a file has right after [createFile]: its old one if the
    file was there, none otherwise. *)
Definition created_content (m : machine) (p : list string) : list jbyte :=
  match node_at (remote m) p with
  | Some (File _ content) => content
  | _ => []
  end.

(** Every [read] request asks for [arraysize] bytes at the offset that the
    writes made so far add up to, counted from [size]. *)
Fixpoint reads_follow_writes (size : Z) (evs : list event) : Prop :=
  match evs with
  | [] => True
  | ev_read _ fileOffset n _ :: evs' =>
      fileOffset = size /\ n = arraysize /\ reads_follow_writes size evs'
  | ev_write _ bytes _ :: evs' => reads_follow_writes (size + len bytes) evs'
  | _ :: evs' => reads_follow_writes size evs'
  end.

(** An SSH server behind a link that is up or down: with the link down
    every request fails with an [IOException]. *)
#[export] Instance linked_Connection : Connection (sshd * bool) := {
  conn_authenticateWithPassword username password :=
    fun s =>
      if snd s
      then let (r, w') :=
             sshd_authenticateWithPassword username password (fst s) in
           (r, (w', true))
      else (Raise IOException, s);
  conn_authenticateWithPublicKey username keyfile password :=
    fun s =>
      if snd s
      then let (r, w') :=
             sshd_authenticateWithPublicKey username keyfile password (fst s)
           in (r, (w', true))
      else (Raise IOException, s)
}.

(** *** Vocabulary for the lines of a stream *)

Definition starts_with_LF (text : string) : bool :=
  match text with
  | String c _ => Ascii.eqb c LF
  | EmptyString => false
  end.

(** [has_lines text ls]: the text is made of the lines [ls], in the sense
    of [java.io.BufferedReader]: a line is ended by a line feed, by a
    carriage return, or by a carriage return followed at once by a line
    feed; the last line may end with the text instead. *)
Inductive has_lines : string -> list string -> Prop :=
| has_lines_none : has_lines EmptyString []
| has_lines_last (l : string) :
    plain l = true -> l <> EmptyString -> has_lines l [l]
| has_lines_LF (l rest : string) (ls : list string) :
    plain l = true -> has_lines rest ls ->
    has_lines (l ++ String LF rest)%string (l :: ls)
| has_lines_CRLF (l rest : string) (ls : list string) :
    plain l = true -> has_lines rest ls ->
    has_lines (l ++ String CR (String LF rest))%string (l :: ls)
| has_lines_CR (l rest : string) (ls : list string) :
    plain l = true -> starts_with_LF rest = false -> has_lines rest ls ->
    has_lines (l ++ String CR rest)%string (l :: ls).

(** The charsets of a runtime that knows ISO-8859-1 and nothing else. *)
Definition latin1_only (charset : string) : option (list jbyte -> string) :=
  if String.eqb charset "ISO-8859-1" then Some latin1 else None.

(** A session of a command that has written to neither stream. *)
Definition silent_session : Session := mkSession [] [] (Some 0) false 30000.

(** How many times the session's [close()] has been called. *)
Fixpoint session_close_calls (evs : list event) : nat :=
  match evs with
  | [] => 0
  | ev_session_close _ :: evs' => S (session_close_calls evs')
  | _ :: evs' => session_close_calls evs'
  end.

(** *** Vocabulary for the runs of [_create_remote_file] and [_get_file] *)

(** The calls of the permission step on the handle [h], with their
    results, as the server [w] answers them: [fstat], and [fsetstat] with
    the size of the reply and the mode asked for if [fstat] returned. *)
Definition permission_events {W : Type} `{SFTPv3Client W} (h : handle)
    (mode : Z) (w : W) : list event :=
  match sftp_fstat h w with
  | (Return a, w1) =>
      [ev_fstat h (Return a);
       ev_fsetstat h (mkAttrs (attrs_size a) mode)
         (fst (sftp_fsetstat h (mkAttrs (attrs_size a) mode) w1))]
  | (r, _) => [ev_fstat h r]
  end.

(** The first remote [read] or local [write] among the events that failed,
    and its exception: a call that raised, or a [read] reply that carries
    more bytes than were asked for, which [SFTPv3Client.read] refuses with
    an [IOException]. *)
Fixpoint transfer_failure (evs : list event) : option exn :=
  match evs with
  | [] => None
  | ev_read _ _ _ (Raise e) :: _ => Some e
  | ev_read _ _ n (Return (Some payload)) :: evs' =>
      if n <? len payload then Some IOException else transfer_failure evs'
  | ev_write _ _ (Raise e) :: _ => Some e
  | _ :: evs' => transfer_failure evs'
  end.

(** A computation goes no further than the first failed transfer, and
    raises its exception. *)
Definition fails_fast {W A : Type} (m : M (run W) A) : Prop :=
  forall s, exists evs,
    trace (snd (m s)) = trace s ++ evs
    /\ (forall e, transfer_failure evs = Some e -> fst (m s) = Raise e)
    /\ (forall a, fst (m s) = Return a -> transfer_failure evs = None).

(** ** Proof automation *)

(** Turn the boolean comparisons in the context into propositions. *)
Ltac bool_to_prop :=
  repeat match goal with
    | H : (_ <? _) = true |- _ => apply Z.ltb_lt in H
    | H : (_ <? _) = false |- _ => apply Z.ltb_ge in H
    | H : (_ <=? _) = true |- _ => apply Z.leb_le in H
    | H : (_ <=? _) = false |- _ => apply Z.leb_gt in H
    | H : (_ =? _) = true |- _ => apply Z.eqb_eq in H
    | H : (_ =? _) = false |- _ => apply Z.eqb_neq in H
    end.

(** Close a goal about a trace that is given event by event. *)
Ltac trace_done :=
  split; [cbn [snd trace]; rewrite <- ?app_assoc; reflexivity |];
  cbn; unfold sum_list; cbn; repeat split; try assumption; lia.

(** * Properties *)

(** ** Authentication *)

Section Authentication.
Context {W : Type} `{Connection W}.

Lemma _login_run (username password : string) (s : run W) :
  _login username password s =
    let (r, w') := conn_authenticateWithPassword username password (world s) in
    let s' := mkRun w' (trace s ++ [ev_authenticateWithPassword username password r]) in
    match r with
    | Return true => (Return tt, s')
    | Return false => (Raise SSHClientException, s')
    | Raise e => (Raise e, s')
    | Blocks => (Blocks, s')
    | OutOfFuel => (OutOfFuel, s')
    end.
Proof.
  unfold _login, authenticateWithPassword, bind, call.
  destruct (conn_authenticateWithPassword username password (world s))
    as [[[] | e | |] w']; reflexivity.
Qed.

(** C8: when the backend's password authentication returns false, [_login]
    raises [SSHClientException] instead of returning the result, and it
    returns normally only when the backend reports success. *)
Theorem _login_raises_unless_authenticated (username password : string)
    (s : run W) :
  (fst (conn_authenticateWithPassword username password (world s))
     = Return false ->
   fst (_login username password s) = Raise SSHClientException)
  /\ (fst (_login username password s) = Return tt ->
      fst (conn_authenticateWithPassword username password (world s))
        = Return true).
Proof.
  rewrite _login_run.
  destruct (conn_authenticateWithPassword username password (world s))
    as [[[] | e | |] w']; simpl; split; congruence.
Qed.

(** C4: [_login_with_public_key] raises [SSHClientException] when the
    backend rejects the key and when touching the key file raises an
    I/O error alike: both causes give the caller the same exception. *)
Theorem _login_with_public_key_folds_io_errors
    (username keyfile password : string) (s : run W) :
  (fst (conn_authenticateWithPublicKey username keyfile password (world s))
     = Return false
   \/ exists e,
        fst (conn_authenticateWithPublicKey username keyfile password
               (world s)) = Raise e
        /\ isinstance_IOError e = true) ->
  fst (_login_with_public_key username keyfile password s)
    = Raise SSHClientException.
Proof.
  unfold _login_with_public_key, try_except, bind,
    authenticateWithPublicKey, call.
  destruct (conn_authenticateWithPublicKey username keyfile password
              (world s)) as [r w'].
  simpl. intros [-> | [e [-> He]]]; simpl.
  - reflexivity.
  - rewrite He. reflexivity.
Qed.

End Authentication.

Lemma _login_raises_unless_authenticated_witness :
  fst (_login "robot" "guess" (start test_sshd)) = Raise SSHClientException
  /\ fst (conn_authenticateWithPassword "robot" "secret"
            (world (start test_sshd))) = Return true.
Proof.
  split.
  - apply (proj1 (_login_raises_unless_authenticated
                    "robot" "guess" (start test_sshd))).
    vm_compute. reflexivity.
  - apply (proj2 (_login_raises_unless_authenticated
                    "robot" "secret" (start test_sshd))).
    vm_compute. reflexivity.
Defined.

Lemma _login_with_public_key_folds_io_errors_witness :
  fst (_login_with_public_key "robot" "id_other" "" (start test_sshd))
    = Raise SSHClientException
  /\ fst (_login_with_public_key "robot" "id_missing" "" (start test_sshd))
       = Raise SSHClientException
  /\ fst (_login_with_public_key "robot" "id_broken" "" (start test_sshd))
       = Raise SSHClientException.
Proof.
  split; [| split].
  - apply (_login_with_public_key_folds_io_errors
             "robot" "id_other" "" (start test_sshd)).
    left. vm_compute. reflexivity.
  - apply (_login_with_public_key_folds_io_errors
             "robot" "id_missing" "" (start test_sshd)).
    right. exists FileNotFoundException. split; vm_compute; reflexivity.
  - apply (_login_with_public_key_folds_io_errors
             "robot" "id_broken" "" (start test_sshd)).
    right. exists IOException. split; vm_compute; reflexivity.
Defined.

(** ** Creating a remote file *)

Section CreateRemoteFile.
Context {W : Type} `{SFTPv3Client W}.

(** C6: [_create_remote_file] calls [createFile] and, on the handle it
    returned, [fstat] and [fsetstat] with the mode asked for, and nothing
    else: the server is left as those calls leave it, the file created and
    the handle open, never closed.  It returns that handle whether the
    permission step succeeds or raises an [SFTPException]; any other
    exception of that step, and any exception of [createFile], reaches the
    caller, [createFile]'s before anything else is asked of the server. *)
Theorem _create_remote_file_swallows_sftp_errors_only (dest : string)
    (mode : Z) (s : run W) :
  (forall h w1,
      sftp_createFile dest (world s) = (Return h, w1) ->
      snd (_create_remote_file dest mode s)
        = mkRun (snd (apply_permissions h mode w1))
            (trace s ++ ev_createFile dest (Return h)
                        :: permission_events h mode w1)
      /\ (forall e, fst (apply_permissions h mode w1) = Raise e ->
                    fst (_create_remote_file dest mode s) =
                      if isinstance_SFTPException e then Return h
                      else Raise e)
      /\ (fst (apply_permissions h mode w1) = Return tt ->
          fst (_create_remote_file dest mode s) = Return h))
  /\ (forall e, fst (sftp_createFile dest (world s)) = Raise e ->
                _create_remote_file dest mode s
                  = (Raise e,
                     mkRun (snd (sftp_createFile dest (world s)))
                       (trace s ++ [ev_createFile dest (Raise e)])))
  /\ (exists evs,
        trace (snd (_create_remote_file dest mode s)) = trace s ++ evs
        /\ closed_handles evs = []).
Proof.
  unfold _create_remote_file, apply_permissions, permission_events,
    try_except, bind, createFile, fstat, fsetstat, call, ret.
  destruct (sftp_createFile dest (world s)) as [[h | e | |] w1] eqn:Ecreate;
    simpl.
  - split; [| split].
    + intros h' w1' [= <- <-].
      destruct (sftp_fstat h w1) as [[a | e | |] w2]; simpl.
      * destruct (sftp_fsetstat h _ w2) as [[[] | e | |] w3]; simpl;
          try destruct (isinstance_SFTPException e) eqn:Ecatch; simpl;
          (split; [rewrite <- ?app_assoc; reflexivity |]);
          (split; [| congruence]);
          intros e' [= <-]; rewrite ?Ecatch; reflexivity.
      * destruct (isinstance_SFTPException e) eqn:Ecatch; simpl;
          (split; [rewrite <- ?app_assoc; reflexivity |]);
          (split; [| congruence]);
          intros e' [= <-]; rewrite ?Ecatch; reflexivity.
      * split; [rewrite <- ?app_assoc; reflexivity |]. split; congruence.
      * split; [rewrite <- ?app_assoc; reflexivity |]. split; congruence.
    + congruence.
    + destruct (sftp_fstat h w1) as [[a | e | |] w2]; simpl.
      * destruct (sftp_fsetstat h _ w2) as [[[] | e | |] w3]; simpl;
          try destruct (isinstance_SFTPException e); simpl;
          eexists; (split; [rewrite <- ?app_assoc; reflexivity | reflexivity]).
      * destruct (isinstance_SFTPException e); simpl;
          eexists; (split; [rewrite <- ?app_assoc; reflexivity | reflexivity]).
      * eexists; (split; [rewrite <- ?app_assoc; reflexivity | reflexivity]).
      * eexists; (split; [rewrite <- ?app_assoc; reflexivity | reflexivity]).
  - split; [| split];
      [congruence | intros e' [= <-]; reflexivity
       | eexists; split; reflexivity].
  - split; [| split]; try congruence. eexists; split; reflexivity.
  - split; [| split]; try congruence. eexists; split; reflexivity.
Qed.

End CreateRemoteFile.


Lemma _create_remote_file_swallows_sftp_errors_only_witness :
  let r := _create_remote_file "/tmp/x" 420 (start machine_without_setstat) in
  fst r = Return 0%nat
  /\ node_at (remote (world (snd r))) ["tmp"; "x"] = Some (File 420 [])
  /\ handles (world (snd r)) !! 0%nat = Some ["tmp"; "x"]
  /\ trace (snd r)
     = [ev_createFile "/tmp/x" (Return 0%nat);
        ev_fstat 0%nat (Return (mkAttrs 0 420));
        ev_fsetstat 0%nat (mkAttrs 0 420) (Raise SFTPException)]
  /\ fst (_write_to_remote_file 0%nat [1; 2] 0 (snd r)) = Return tt.
Proof.
  cbv zeta.
  destruct (_create_remote_file_swallows_sftp_errors_only
              "/tmp/x" 420 (start machine_without_setstat)) as [Hcreated _].
  destruct (Hcreated 0%nat
              (snd (machine_createFile "/tmp/x" machine_without_setstat))
              eq_refl) as (Hrun & Hraised & _).
  split; [exact (Hraised SFTPException eq_refl) |].
  rewrite Hrun. vm_compute. repeat split; reflexivity.
Defined.

(** ** Reading from the shell *)

Lemma land_255_range (b : Z) : 0 <= Z.land b 255 < 256.
Proof.
  change 255 with (Z.ones 8). rewrite Z.land_ones by lia.
  apply Z.mod_pos_bound. lia.
Qed.

Lemma len_zeros (n : Z) : 0 <= n -> len (zeros n) = n.
Proof.
  intros Hn. unfold len, zeros. rewrite length_replicate. lia.
Qed.

Lemma comprehension_chr {S : Type} (bytes : list jbyte) (s : S) :
  comprehension (fun b => chr (Z.land b 255)) bytes s =
    (Return (map (fun b => String (latin1_char b) EmptyString) bytes), s).
Proof.
  induction bytes as [| b bytes IH]; simpl.
  - reflexivity.
  - unfold bind at 1. unfold chr at 1.
    pose proof (land_255_range b) as Hb.
    replace ((0 <=? Z.land b 255) && (Z.land b 255 <? 256)) with true
      by (symmetry; apply andb_true_iff; split; lia).
    unfold ret at 1. unfold bind. rewrite IH. reflexivity.
Qed.

Lemma join_latin1 (bytes : list jbyte) :
  join (map (fun b => String (latin1_char b) EmptyString) bytes)
    = latin1 bytes.
Proof.
  unfold join.
  induction bytes as [| b bytes IH]; simpl.
  - reflexivity.
  - rewrite IH. reflexivity.
Qed.

Lemma latin1_chars (bytes : list jbyte) :
  list_ascii_of_string (latin1 bytes)
    = map (fun b => ascii_of_N (Z.to_N (Z.land b 255))) bytes.
Proof.
  induction bytes as [| b bytes IH]; simpl; [reflexivity |].
  rewrite IH. reflexivity.
Qed.

Lemma latin1_length (bytes : list jbyte) :
  String.length (latin1 bytes) = length bytes.
Proof.
  induction bytes as [| b bytes IH]; simpl; [reflexivity |].
  rewrite IH. reflexivity.
Qed.

Lemma available_run (self : JavaSSHClient) (t : list event) :
  available (mkRun self t) =
    (Return (len (_stdout self)),
     mkRun self (t ++ [ev_available (Return (len (_stdout self)))])).
Proof. reflexivity. Qed.

(** A [read] into an array as long as the non-empty buffer takes it all. *)
Lemma stream_read_run (self : JavaSSHClient) (t : list event) :
  _stdout self <> [] ->
  stream_read (zeros (len (_stdout self))) (mkRun self t) =
    (Return (len (_stdout self), _stdout self),
     mkRun (mkJavaSSHClient (config self) [])
       (t ++ [ev_stream_read (len (_stdout self))
                (Return (Some (_stdout self)))])).
Proof.
  intros Hne. destruct self as [cfg buffered]. simpl in *.
  assert (Hpos : 0 < len buffered)
    by (destruct buffered; [congruence | unfold len; simpl; lia]).
  assert (Hnat : Z.to_nat (len buffered) = length buffered)
    by (unfold len; lia).
  unfold stream_read, bind, call, stdout_read. simpl.
  rewrite len_zeros by lia.
  replace (len buffered =? 0) with false by (symmetry; lia).
  destruct buffered as [| b bytes]; [congruence |].
  rewrite Hnat, firstn_all, drop_all.
  unfold ret, arraycopy, zeros. rewrite Hnat.
  rewrite drop_ge by (rewrite length_replicate; lia).
  rewrite app_nil_r. reflexivity.
Qed.

(** What one [_read] does, for any content of the stream's buffer. *)
Lemma _read_run (self : JavaSSHClient) (t : list event) :
  _read (mkRun self t) =
    (Return (latin1 (_stdout self)),
     mkRun (mkJavaSSHClient (config self) [])
       (t ++ match _stdout self with
             | [] => [ev_available (Return 0)]
             | bytes =>
                 [ev_available (Return (len bytes));
                  ev_available (Return (len bytes));
                  ev_stream_read (len bytes) (Return (Some bytes))]
             end)).
Proof.
  unfold _read, bind. rewrite available_run.
  destruct (_stdout self) as [| b bytes] eqn:Ebuf.
  - destruct self as [cfg buffered]. simpl in Ebuf. subst buffered.
    reflexivity.
  - assert (Hne : _stdout self <> []) by congruence.
    rewrite <- Ebuf.
    replace (len (_stdout self) =? 0) with false
      by (symmetry; rewrite Ebuf; unfold len; simpl; lia).
    simpl. rewrite stream_read_run by exact Hne.
    simpl. rewrite comprehension_chr.
    unfold ret. rewrite join_latin1, <- !app_assoc. simpl.
    rewrite Ebuf. reflexivity.
Qed.

(** C7: [_read] returns, it never waits on the stream: when the stream
    reports no buffered byte it returns the empty string and makes no
    [read] call; in every case it returns the whole buffer decoded and
    leaves the buffer empty. *)
Theorem _read_never_blocks (s : run JavaSSHClient) :
  fst (_read s) = Return (latin1 (_stdout (world s)))
  /\ _stdout (world (snd (_read s))) = []
  /\ (fst (stdout_available (world s)) = Return 0 ->
      fst (_read s) = Return EmptyString
      /\ exists evs,
           trace (snd (_read s)) = trace s ++ evs
           /\ forallb (fun ev => negb (is_stream_read ev)) evs = true).
Proof.
  destruct s as [self t]. rewrite _read_run. simpl.
  split; [reflexivity | split; [reflexivity |]].
  unfold stdout_available. simpl. intros [= Hzero].
  destruct (_stdout self) as [| b bytes].
  - split; [reflexivity |]. eexists. split; reflexivity.
  - unfold len in Hzero. simpl in Hzero. lia.
Qed.

Lemma _read_never_blocks_witness :
  fst (_read (start (mkJavaSSHClient (mkConfiguration "UTF-8" "vt100" 80 24)
                       []))) = Return EmptyString.
Proof.
  apply (_read_never_blocks
           (start (mkJavaSSHClient (mkConfiguration "UTF-8" "vt100" 80 24)
                     []))).
  reflexivity.
Defined.

(** C10: [_read] turns every byte [b] of the buffer into the one character
    [chr(b & 0xFF)], whatever encoding the client is configured with: it
    raises no error, and the string has as many characters as bytes were
    read. *)
Theorem _read_decodes_latin1 (s : run JavaSSHClient) (cfg : Configuration) :
  exists data,
    fst (_read s) = Return data
    /\ list_ascii_of_string data =
         map (fun b => ascii_of_N (Z.to_N (Z.land b 255))) (_stdout (world s))
    /\ String.length data = length (_stdout (world s))
    /\ fst (_read (mkRun (mkJavaSSHClient cfg (_stdout (world s))) (trace s)))
         = Return data.
Proof.
  destruct s as [self t]. exists (latin1 (_stdout self)).
  rewrite !_read_run. simpl.
  split; [reflexivity |]. split; [apply latin1_chars |].
  split; [apply latin1_length | reflexivity].
Qed.

(** ** Reading the outputs of a command *)

Lemma append_cons (c : ascii) (a b : string) :
  (String c a ++ b)%string = String c (a ++ b)%string.
Proof. reflexivity. Qed.

Lemma append_empty_r (a : string) : (a ++ EmptyString)%string = a.
Proof.
  induction a as [| c a IH]; [reflexivity |].
  rewrite append_cons, IH. reflexivity.
Qed.

Lemma append_assoc (a b c : string) :
  ((a ++ b) ++ c)%string = (a ++ (b ++ c))%string.
Proof.
  induction a as [| x a IH]; [reflexivity |].
  rewrite !append_cons, IH. reflexivity.
Qed.

Lemma scan_line_rest_le (text : string) :
  (String.length (snd (scan_line text)) <= String.length text)%nat.
Proof.
  induction text as [| c text IH]; simpl; [lia |].
  destruct (Ascii.eqb c LF); simpl; [lia |].
  destruct (Ascii.eqb c CR); simpl.
  - destruct text as [| c' text']; simpl; [lia |].
    destruct (Ascii.eqb c' LF); simpl; lia.
  - destruct (scan_line text) as [line rest]. simpl in *. lia.
Qed.

(** A line read from a non-empty text leaves a strictly shorter text. *)
Lemma readLine_consumes (c : ascii) (text : string) :
  exists line rest,
    readLine (String c text) = (Some line, rest)
    /\ (String.length rest <= String.length text)%nat.
Proof.
  unfold readLine.
  pose proof (scan_line_rest_le (String c text)) as Hle.
  destruct (scan_line (String c text)) as [line rest] eqn:Escan.
  exists line, rest. split; [reflexivity |].
  simpl in Escan.
  destruct (Ascii.eqb c LF); [injection Escan as <- <-; lia |].
  destruct (Ascii.eqb c CR).
  - injection Escan as <- <-.
    destruct text as [| c' text']; simpl; [lia |].
    destruct (Ascii.eqb c' LF); simpl; lia.
  - pose proof (scan_line_rest_le text) as Hle'.
    destruct (scan_line text) as [line' rest'].
    injection Escan as <- <-. simpl in Hle'. lia.
Qed.

Lemma lines_upto_enough (n m : nat) (text : string) :
  (String.length text <= n)%nat -> (String.length text <= m)%nat ->
  lines_upto n text = lines_upto m text.
Proof.
  revert m text. induction n as [| n IH]; intros m text Hn Hm.
  - destruct text; simpl in Hn; [| lia]. destruct m; reflexivity.
  - destruct text as [| c text].
    + destruct m; reflexivity.
    + destruct m as [| m]; simpl in Hm; [lia |].
      destruct (readLine_consumes c text) as (line & rest & Eread & Hle).
      cbn [lines_upto]. rewrite Eread. f_equal.
      simpl in Hn. apply IH; lia.
Qed.

Lemma scan_line_plain (l rest : string) :
  plain l = true -> scan_line (l ++ String LF rest)%string = (l, rest).
Proof.
  induction l as [| c l IH]; intros Hplain.
  - reflexivity.
  - rewrite append_cons. cbn [plain] in Hplain.
    apply andb_true_iff in Hplain as [Hc Hl].
    apply andb_true_iff in Hc as [Hlf Hcr].
    apply negb_true_iff in Hlf, Hcr.
    cbn [scan_line]. rewrite Hlf, Hcr, (IH Hl). reflexivity.
Qed.

Lemma length_append (a b : string) :
  String.length (a ++ b)%string = (String.length a + String.length b)%nat.
Proof.
  induction a as [| c a IH]; [reflexivity |].
  rewrite append_cons. cbn [String.length]. rewrite IH. reflexivity.
Qed.

(** Lines that are emitted each with a line feed are read back as they
    are: the reader drops nothing and adds nothing. *)
Lemma lines_terminated (ls : list string) :
  Forall (fun l => plain l = true) ls -> lines (terminated ls) = ls.
Proof.
  induction 1 as [| l ls Hl _ IH]; [reflexivity |].
  assert (Etext : terminated (l :: ls)
                  = (l ++ String LF (terminated ls))%string).
  { unfold terminated, join. cbn [map fold_right].
    unfold newline. rewrite append_assoc. reflexivity. }
  rewrite Etext. unfold lines.
  destruct (l ++ String LF (terminated ls))%string as [| c text] eqn:Etext'.
  - apply (f_equal String.length) in Etext'.
    rewrite length_append in Etext'. cbn in Etext'. lia.
  - cbn [String.length lines_upto]. unfold readLine.
    rewrite <- Etext', (scan_line_plain l _ Hl).
    f_equal. rewrite <- IH at 2. unfold lines.
    apply lines_upto_enough; [| lia].
    apply (f_equal String.length) in Etext'.
    rewrite length_append in Etext'. cbn [String.length] in Etext'. lia.
Qed.

(** *** The lines of a text *)

Lemma plain_cons (c : ascii) (l : string) :
  plain (String c l) = true ->
  Ascii.eqb c LF = false /\ Ascii.eqb c CR = false /\ plain l = true.
Proof.
  cbn [plain]. intros Hplain.
  apply andb_true_iff in Hplain as [Hc Hl].
  apply andb_true_iff in Hc as [Hlf Hcr].
  apply negb_true_iff in Hlf, Hcr. auto.
Qed.

Lemma scan_line_plain_end (l : string) :
  plain l = true -> scan_line l = (l, EmptyString).
Proof.
  induction l as [| c l IH]; intros Hplain; [reflexivity |].
  apply plain_cons in Hplain as (Hlf & Hcr & Hl).
  cbn [scan_line]. rewrite Hlf, Hcr, (IH Hl). reflexivity.
Qed.

Lemma scan_line_plain_CRLF (l rest : string) :
  plain l = true ->
  scan_line (l ++ String CR (String LF rest))%string = (l, rest).
Proof.
  induction l as [| c l IH]; intros Hplain.
  - reflexivity.
  - rewrite append_cons. apply plain_cons in Hplain as (Hlf & Hcr & Hl).
    cbn [scan_line]. rewrite Hlf, Hcr, (IH Hl). reflexivity.
Qed.

Lemma scan_line_plain_CR (l rest : string) :
  plain l = true -> starts_with_LF rest = false ->
  scan_line (l ++ String CR rest)%string = (l, rest).
Proof.
  intros Hplain Hrest. induction l as [| c l IH].
  - destruct rest as [| c' rest]; [reflexivity |].
    cbn [starts_with_LF] in Hrest.
    change (scan_line (String CR (String c' rest))
            = (EmptyString, String c' rest)).
    cbn [scan_line].
    change (Ascii.eqb CR LF) with false. change (Ascii.eqb CR CR) with true.
    cbv iota. rewrite Hrest. reflexivity.
  - rewrite append_cons. apply plain_cons in Hplain as (Hlf & Hcr & Hl).
    cbn [scan_line]. rewrite Hlf, Hcr, (IH Hl). reflexivity.
Qed.

(** What [scan_line] cuts off is a line without a line end inside, and the
    text is that line, one of the three line ends, and the rest. *)
Lemma scan_line_spec (text : string) :
  let l := fst (scan_line text) in
  let rest := snd (scan_line text) in
  plain l = true
  /\ ((text = l /\ rest = EmptyString)
      \/ text = (l ++ String LF rest)%string
      \/ text = (l ++ String CR (String LF rest))%string
      \/ (text = (l ++ String CR rest)%string
          /\ starts_with_LF rest = false)).
Proof.
  induction text as [| c text IH]; cbn zeta.
  - split; [reflexivity |]. left. split; reflexivity.
  - cbn [scan_line].
    destruct (Ascii.eqb c LF) eqn:Hlf.
    { apply Ascii.eqb_eq in Hlf as ->. cbn [fst snd].
      split; [reflexivity |]. right. left. reflexivity. }
    destruct (Ascii.eqb c CR) eqn:Hcr.
    { apply Ascii.eqb_eq in Hcr as ->. cbn [fst snd].
      split; [reflexivity |].
      destruct text as [| c' text']; [right; right; right; split; reflexivity |].
      destruct (Ascii.eqb c' LF) eqn:Hlf'.
      - apply Ascii.eqb_eq in Hlf' as ->. right. right. left. reflexivity.
      - right. right. right. split; [reflexivity | exact Hlf']. }
    cbn zeta in IH. destruct (scan_line text) as [l rest]. cbn [fst snd] in *.
    destruct IH as (Hplain & Hcases).
    split; [cbn [plain]; rewrite Hlf, Hcr, Hplain; reflexivity |].
    rewrite !append_cons.
    destruct Hcases as [[E1 E2] | [E | [E | [E Hrest]]]].
    + left. split; congruence.
    + right. left. congruence.
    + right. right. left. congruence.
    + right. right. right. split; [congruence | exact Hrest].
Qed.

Lemma lines_step (text l rest : string) :
  text <> EmptyString -> scan_line text = (l, rest) ->
  lines text = l :: lines rest.
Proof.
  intros Htext Escan. destruct text as [| c text]; [congruence |].
  destruct (readLine_consumes c text) as (line & rest' & Eread & Hle).
  unfold lines. cbn [String.length lines_upto]. rewrite Eread.
  unfold readLine in Eread. rewrite Escan in Eread.
  injection Eread as <- <-. f_equal.
  apply lines_upto_enough; lia.
Qed.

Lemma append_not_empty (a b : string) (c : ascii) :
  (a ++ String c b)%string <> EmptyString.
Proof. destruct a; discriminate. Qed.

(** [readLine] delivers the lines of the text, whatever the line ends. *)
Lemma lines_has_lines (text : string) (ls : list string) :
  has_lines text ls -> lines text = ls.
Proof.
  induction 1 as [| l Hplain Hl | l rest ls Hplain _ IH
                  | l rest ls Hplain _ IH | l rest ls Hplain Hrest _ IH].
  - reflexivity.
  - rewrite (lines_step l l EmptyString Hl (scan_line_plain_end l Hplain)).
    reflexivity.
  - rewrite (lines_step _ l rest (append_not_empty _ _ _)
               (scan_line_plain l rest Hplain)), IH. reflexivity.
  - rewrite (lines_step _ l rest (append_not_empty _ _ _)
               (scan_line_plain_CRLF l rest Hplain)), IH. reflexivity.
  - rewrite (lines_step _ l rest (append_not_empty _ _ _)
               (scan_line_plain_CR l rest Hplain Hrest)), IH. reflexivity.
Qed.

Lemma has_lines_upto (n : nat) (text : string) :
  (String.length text <= n)%nat -> has_lines text (lines text).
Proof.
  revert text. induction n as [| n IH]; intros text Hn.
  - destruct text; [constructor | simpl in Hn; lia].
  - destruct text as [| c text]; [constructor |].
    pose proof (scan_line_spec (String c text)) as Hspec. cbn zeta in Hspec.
    destruct (readLine_consumes c text) as (line & rest' & Eread & Hle).
    unfold readLine in Eread.
    destruct (scan_line (String c text)) as [l rest] eqn:Escan.
    injection Eread as <- <-. cbn [fst snd] in Hspec.
    rewrite (lines_step (String c text) l rest ltac:(discriminate) Escan).
    simpl in Hn.
    destruct Hspec as (Hplain & [[E1 E2] | [E | [E | [E Hrest]]]]).
    + subst rest. rewrite E1. constructor; [exact Hplain | congruence].
    + rewrite E. constructor; [exact Hplain | apply IH; lia].
    + rewrite E. constructor; [exact Hplain | apply IH; lia].
    + rewrite E. constructor; [exact Hplain | exact Hrest | apply IH; lia].
Qed.

(** Every text is made of lines, and of one list of lines only. *)
Lemma has_lines_total (text : string) :
  exists ls, has_lines text ls /\ forall ls', has_lines text ls' -> ls' = ls.
Proof.
  exists (lines text). split.
  - apply (has_lines_upto (String.length text)). lia.
  - intros ls' Hls'. symmetry. apply lines_has_lines. exact Hls'.
Qed.

Section ReadOutputs.
Variable decode : string -> option (list jbyte -> string).

(** With more fuel than the text has characters the loop reaches the
    end of the stream, and [result] has grown by every line and a
    separator after each. *)
Lemma _read_from_stream_while_run (fuel : nat) (text result : string)
    (s : run Session) :
  (String.length text < fuel)%nat ->
  (let (line, reader) := readLine text in
   _read_from_stream_while fuel reader result line s)
  = (Return (result ++ terminated (lines text))%string, s).
Proof.
  revert text result. induction fuel as [| fuel IH]; intros text result Hfuel.
  - lia.
  - destruct text as [| c text].
    + simpl. unfold ret. rewrite append_empty_r. reflexivity.
    + destruct (readLine_consumes c text) as (line & rest & Eread & Hle).
      rewrite Eread. cbn [_read_from_stream_while].
      simpl in Hfuel.
      specialize (IH rest (result ++ line ++ newline)%string).
      destruct (readLine rest) as [line' reader'].
      rewrite IH by lia.
      unfold lines. cbn [String.length lines_upto]. rewrite Eread.
      rewrite (lines_upto_enough (String.length text) (String.length rest))
        by lia.
      unfold terminated, join. cbn [map fold_right].
      rewrite !append_assoc. reflexivity.
Qed.

(** When the charset is known and the stream reaches its end, the reader
    is built on the whole stream and read to the end. *)
Lemma _read_from_stream_run (self : RemoteCommand) (fuel : nat)
    (stream : std_stream) (session session' : Session) (t : list event)
    (decoder : list jbyte -> string) (bytes : list jbyte) :
  decode (_encoding self) = Some decoder ->
  session_gobble stream session = (Return bytes, session') ->
  (String.length (decoder bytes) < fuel)%nat ->
  _read_from_stream decode self fuel stream (mkRun session t) =
    (Return (terminated (lines (decoder bytes))),
     mkRun session' (t ++ [ev_StreamGobbler stream (Return bytes)])).
Proof.
  intros Hdecode Hgobble Hfuel.
  unfold _read_from_stream, BufferedReader. rewrite Hdecode.
  unfold bind, call, ret. cbn [world trace]. rewrite Hgobble. cbn [fst snd].
  pose proof (_read_from_stream_while_run fuel (decoder bytes) EmptyString)
    as Hrun.
  destruct (readLine (decoder bytes)) as [line reader].
  apply Hrun. exact Hfuel.
Qed.

(** When the runtime has no charset of that name nothing is read. *)
Lemma _read_from_stream_unsupported (self : RemoteCommand) (fuel : nat)
    (stream : std_stream) (s : run Session) :
  decode (_encoding self) = None ->
  _read_from_stream decode self fuel stream s
    = (Raise UnsupportedEncodingException, s).
Proof.
  intros Hdecode. unfold _read_from_stream, BufferedReader.
  rewrite Hdecode. reflexivity.
Qed.

Lemma or_0_default (status : option Z) : or_0 status = default 0 status.
Proof.
  destruct status as [n |]; simpl; [| reflexivity].
  destruct (Z.eqb_spec n 0); congruence.
Qed.

(** The whole run of [read_outputs] on a session whose charset is known
    and whose standard error leaves room in the window. *)
Lemma read_outputs_run (self : RemoteCommand) (fuel : nat)
    (session : Session) (t : list event) (decoder : list jbyte -> string) :
  let out := decoder (session_stdout session) in
  let err := decoder (session_stderr session) in
  decode (_encoding self) = Some decoder ->
  len (session_stderr session) < session_window session ->
  (String.length out < fuel)%nat ->
  (String.length err < fuel)%nat ->
  read_outputs decode self fuel (mkRun session t) =
    (Return (terminated (lines out), terminated (lines err),
             default 0 (session_exit_status session)),
     mkRun (mkSession [] [] (session_exit_status session) true
              (session_window session))
       (t ++ [ev_getStdout (Return Stdout);
              ev_StreamGobbler Stdout (Return (session_stdout session));
              ev_getStderr (Return Stderr);
              ev_StreamGobbler Stderr (Return (session_stderr session));
              ev_getExitStatus (Return (session_exit_status session));
              ev_session_close (Return tt)])).
Proof.
  intros out err Hdecode Hwindow Hout Herr.
  assert (Hpos : 0 <= len (session_stderr session)) by (unfold len; lia).
  unfold read_outputs, bind, getStdout, getStderr, getExitStatus,
    Session_close, call. simpl.
  erewrite (_read_from_stream_run self fuel Stdout);
    [| exact Hdecode
     | cbn [session_gobble];
       destruct (Z.leb_spec (session_window session)
                   (len (session_stderr session))); [lia | reflexivity]
     | exact Hout].
  simpl.
  erewrite (_read_from_stream_run self fuel Stderr);
    [| exact Hdecode
     | cbn [session_gobble session_window session_stdout];
       destruct (Z.leb_spec (session_window session) (len (@nil Z)));
       [unfold len in *; simpl in *; lia | reflexivity]
     | exact Herr].
  simpl. rewrite or_0_default. rewrite <- !app_assoc. reflexivity.
Qed.

(** C3, as the code has it: when the command's encoding names a charset of
    the runtime and the standard error leaves room in the channel's window,
    one [read_outputs] returns, for each of the two streams, every line of
    the stream followed by the line separator, and the exit status the
    session reports, [0] when it reports none; the session's [close()] is
    the last call made, and the only [close()].  When the runtime has no
    charset of that name, [read_outputs] raises
    [UnsupportedEncodingException] with [getStdout()] as the only call made
    on the session, which it leaves open if it was: [close()] is not
    called. *)
Theorem read_outputs_returns_lines_and_status (self : RemoteCommand)
    (fuel : nat) (s : run Session) :
  (forall decoder out_lines err_lines,
     decode (_encoding self) = Some decoder ->
     len (session_stderr (world s)) < session_window (world s) ->
     has_lines (decoder (session_stdout (world s))) out_lines ->
     has_lines (decoder (session_stderr (world s))) err_lines ->
     (String.length (decoder (session_stdout (world s))) < fuel)%nat ->
     (String.length (decoder (session_stderr (world s))) < fuel)%nat ->
     fst (read_outputs decode self fuel s) =
       Return (terminated out_lines, terminated err_lines,
               default 0 (session_exit_status (world s)))
     /\ last (trace (snd (read_outputs decode self fuel s)))
          = Some (ev_session_close (Return tt))
     /\ session_close_calls
          (drop (length (trace s))
             (trace (snd (read_outputs decode self fuel s)))) = 1%nat
     /\ session_closed (world (snd (read_outputs decode self fuel s))) = true)
  /\ (decode (_encoding self) = None ->
      fst (read_outputs decode self fuel s)
        = Raise UnsupportedEncodingException
      /\ trace (snd (read_outputs decode self fuel s))
         = trace s ++ [ev_getStdout (Return Stdout)]
      /\ session_closed (world (snd (read_outputs decode self fuel s)))
         = session_closed (world s)).
Proof.
  destruct s as [session t]. cbn [world trace]. split.
  - intros decoder out_lines err_lines Hdecode Hwindow Hout_lines Herr_lines
      Hout Herr.
    rewrite (read_outputs_run self fuel session t decoder Hdecode Hwindow
               Hout Herr).
    cbn [fst snd world trace].
    rewrite (lines_has_lines _ _ Hout_lines), (lines_has_lines _ _ Herr_lines).
    split; [reflexivity |].
    split; [rewrite last_app; reflexivity |].
    split; [| reflexivity].
    rewrite drop_app_length. reflexivity.
  - intros Hdecode.
    unfold read_outputs, bind, getStdout, call. cbn.
    rewrite (_read_from_stream_unsupported self fuel Stdout _ Hdecode).
    split; [reflexivity |]. split; reflexivity.
Qed.

End ReadOutputs.

Lemma read_outputs_returns_lines_and_status_witness :
  fst (read_outputs latin1_only (mkRemoteCommand "echo hi" "ISO-8859-1") 4
         (start echo_hi))
    = Return (String "h" (String "i" newline), EmptyString, 0)
  /\ fst (read_outputs latin1_only (mkRemoteCommand "echo hi" "NOPE-8") 4
            (start echo_hi))
     = Raise UnsupportedEncodingException.
Proof.
  pose proof (read_outputs_returns_lines_and_status latin1_only
                (mkRemoteCommand "echo hi" "ISO-8859-1") 4 (start echo_hi))
    as [Hreturns _].
  pose proof (read_outputs_returns_lines_and_status latin1_only
                (mkRemoteCommand "echo hi" "NOPE-8") 4 (start echo_hi))
    as [_ Hraises].
  split.
  - apply (Hreturns latin1 [String "h" (String "i" EmptyString)] []).
    + reflexivity.
    + vm_compute. reflexivity.
    + apply (has_lines_LF (String "h" (String "i" EmptyString)) EmptyString []);
        [reflexivity | constructor].
    + constructor.
    + vm_compute. lia.
    + vm_compute. lia.
  - apply Hraises. reflexivity.
Defined.

(** The claim as the specification words it fails on a command whose
    encoding the runtime does not know: [read_outputs] raises, there is no
    result, and the session is still open. *)
Lemma read_outputs_raises_on_unknown_charset :
  let r := read_outputs latin1_only (mkRemoteCommand "echo hi" "NOPE-8") 4
             (start echo_hi) in
  fst r = Raise UnsupportedEncodingException
  /\ session_closed (world (snd r)) = false
  /\ session_close_calls (trace (snd r)) = 0%nat.
Proof. vm_compute. repeat split. Qed.

(** ** What a computation adds to the trace *)


Section Emits.
Context {W : Type} (P : event -> Prop).

Lemma emits_ret {A : Type} (a : A) : emits P (@ret (run W) A a).
Proof. intros s. exists []. rewrite app_nil_r. split; [reflexivity | constructor]. Qed.

Lemma emits_raise {A : Type} (e : exn) : emits P (@raise (run W) A e).
Proof. intros s. exists []. rewrite app_nil_r. split; [reflexivity | constructor]. Qed.

Lemma emits_out_of_fuel {A : Type} : emits P (@out_of_fuel (run W) A).
Proof. intros s. exists []. rewrite app_nil_r. split; [reflexivity | constructor]. Qed.

Lemma emits_call {A : Type} (mk : outcome A -> event)
    (op : W -> outcome A * W) :
  (forall r, P (mk r)) -> emits P (call mk op).
Proof.
  intros HP s. unfold call. destruct (op (world s)) as [r w'].
  exists [mk r]. split; [reflexivity |]. repeat constructor. apply HP.
Qed.

Lemma emits_bind {A B : Type} (m : M (run W) A) (k : A -> M (run W) B) :
  emits P m -> (forall a, emits P (k a)) -> emits P (bind m k).
Proof.
  intros Hm Hk s. unfold bind.
  destruct (Hm s) as (evs & Etrace & Hevs).
  destruct (m s) as [[a | e | |] s1]; simpl in Etrace;
    try (exists evs; split; [exact Etrace | exact Hevs]).
  destruct (Hk a s1) as (evs' & Etrace' & Hevs').
  exists (evs ++ evs'). split.
  - rewrite Etrace', Etrace, app_assoc. reflexivity.
  - apply Forall_app. split; assumption.
Qed.

Lemma emits_try_except {A : Type} (m h : M (run W) A)
    (catches : exn -> bool) :
  emits P m -> emits P h -> emits P (try_except m catches h).
Proof.
  intros Hm Hh s. unfold try_except.
  destruct (Hm s) as (evs & Etrace & Hevs).
  destruct (m s) as [[a | e | |] s1]; simpl in Etrace;
    try (exists evs; split; [exact Etrace | exact Hevs]).
  destruct (catches e); [| exists evs; split; [exact Etrace | exact Hevs]].
  destruct (Hh s1) as (evs' & Etrace' & Hevs').
  exists (evs ++ evs'). split.
  - rewrite Etrace', Etrace, app_assoc. reflexivity.
  - apply Forall_app. split; assumption.
Qed.

End Emits.

Lemma bind_run {S A B : Type} (m : M S A) (k : A -> M S B) (s : S) :
  bind m k s =
    let (r, s') := m s in
    match r with
    | Return a => k a s'
    | Raise e => (Raise e, s')
    | Blocks => (Blocks, s')
    | OutOfFuel => (OutOfFuel, s')
    end.
Proof. unfold bind. destruct (m s) as [[a | e | |] s']; reflexivity. Qed.

(** A call followed by the rest of the computation. *)
Lemma bind_call_run {W A B : Type} (mk : outcome A -> event)
    (op : W -> outcome A * W) (k : A -> M (run W) B) (s : run W) :
  bind (call mk op) k s =
    let (r, w') := op (world s) in
    let s' := mkRun w' (trace s ++ [mk r]) in
    match r with
    | Return a => k a s'
    | Raise e => (Raise e, s')
    | Blocks => (Blocks, s')
    | OutOfFuel => (OutOfFuel, s')
    end.
Proof.
  unfold bind, call. destruct (op (world s)) as [[a | e | |] w']; reflexivity.
Qed.

Lemma closed_handles_app (evs evs' : list event) :
  closed_handles (evs ++ evs') = closed_handles evs ++ closed_handles evs'.
Proof.
  induction evs as [| ev evs IH]; [reflexivity |].
  destruct ev; simpl; rewrite IH; reflexivity.
Qed.

Lemma write_lengths_app (evs evs' : list event) :
  write_lengths (evs ++ evs') = write_lengths evs ++ write_lengths evs'.
Proof.
  induction evs as [| ev evs IH]; [reflexivity |].
  destruct ev; simpl; rewrite IH; reflexivity.
Qed.

Lemma transfer_events_close_nothing (evs : list event) :
  Forall (fun ev => is_transfer_event ev = true) evs ->
  closed_handles evs = [].
Proof.
  induction 1 as [| ev evs Hev _ IH]; [reflexivity |].
  destruct ev; simpl in Hev; try discriminate; exact IH.
Qed.

(** ** Downloading a file *)


Lemma arraycopy_length {A : Type} (src dst : list A) :
  (length src <= length dst)%nat ->
  length (arraycopy src dst 0) = length dst.
Proof.
  intros Hle. unfold arraycopy. simpl.
  rewrite length_app, length_drop. lia.
Qed.

Lemma arraycopy_take {A : Type} (src dst : list A) :
  take (length src) (arraycopy src dst 0) = src.
Proof.
  unfold arraycopy. simpl. rewrite take_app_length. reflexivity.
Qed.

Section GetFile.
Context {W : Type} `{SFTPv3Client W} `{LocalFiles W}.

Lemma read_emits (h : handle) (fileOffset : Z) (dst : list jbyte)
    (dstoff n : Z) :
  emits (fun ev => is_transfer_event ev = true)
    (read h fileOffset dst dstoff n).
Proof.
  unfold read. destruct ((32768 <? n) || (n <=? 0)).
  - apply emits_raise.
  - apply emits_bind; [apply emits_call; reflexivity |].
    intros [payload |]; [| apply emits_ret].
    destruct (n <? Z.of_nat (length payload)); [apply emits_raise |].
    destruct ((dstoff <? 0) || _); [apply emits_raise | apply emits_ret].
Qed.

Lemma write_emits (f : ostream) (b : list jbyte) (off n : Z) :
  emits (fun ev => is_transfer_event ev = true) (write f b off n).
Proof.
  unfold write. destruct ((off <? 0) || (n <? 0) || _).
  - apply emits_raise.
  - apply emits_call. reflexivity.
Qed.

(** The loop makes [read] requests and local writes, nothing else. *)
Lemma _get_file_while_emits (fuel : nat) (remotefile : handle)
    (localfile : ostream) (remotefilesize size : Z) (data : list jbyte) :
  emits (fun ev => is_transfer_event ev = true)
    (_get_file_while fuel remotefile localfile remotefilesize size data).
Proof.
  revert size data. induction fuel as [| fuel IH]; intros size data.
  - apply emits_out_of_fuel.
  - cbn [_get_file_while].
    apply emits_bind; [apply read_emits |].
    intros [moredata data']. simpl.
    destruct (moredata =? -1); [apply emits_ret |].
    apply emits_bind; [apply write_emits | intros _; apply IH].
Qed.

(** One request for a full array into an array of that size. *)
Lemma read_run (h : handle) (fileOffset : Z) (dst : list jbyte)
    (s : run W) :
  len dst = arraysize ->
  read h fileOffset dst 0 arraysize s =
    let (r, w1) := sftp_read h fileOffset arraysize (world s) in
    let s1 := mkRun w1 (trace s ++ [ev_read h fileOffset arraysize r]) in
    match r with
    | Return None => (Return (-1, dst), s1)
    | Return (Some payload) =>
        if arraysize <? len payload then (Raise IOException, s1)
        else (Return (len payload, arraycopy payload dst 0), s1)
    | Raise e => (Raise e, s1)
    | Blocks => (Blocks, s1)
    | OutOfFuel => (OutOfFuel, s1)
    end.
Proof.
  intros Hdst. unfold read, bind, call. simpl.
  destruct (sftp_read h fileOffset arraysize (world s))
    as [[[payload |] | e | |] w1]; try reflexivity.
  fold (len payload). fold (len dst). rewrite Hdst.
  destruct (arraysize <? len payload) eqn:Elong; [reflexivity |].
  replace (arraysize <? 0 + len payload) with false by (symmetry; lia).
  reflexivity.
Qed.

(** A write of the first [n] bytes of an array that has them. *)
Lemma write_run (f : ostream) (b : list jbyte) (n : Z) (s : run W) :
  0 <= n <= len b ->
  write f b 0 n s =
    let bytes := take (Z.to_nat n) b in
    let (r, w1) := fos_write f bytes (world s) in
    (r, mkRun w1 (trace s ++ [ev_write f bytes r])).
Proof.
  intros Hn. unfold write, call. fold (len b).
  replace ((0 <? 0) || (n <? 0) || (len b <? 0 + n)) with false
    by (symmetry; rewrite !orb_false_iff; lia).
  reflexivity.
Qed.


(** One iteration of the loop, in terms of the two calls it makes. *)
Lemma _get_file_while_step (fuel : nat) (remotefile : handle)
    (localfile : ostream) (remotefilesize size : Z) (data : list jbyte)
    (s : run W) :
  len data = arraysize ->
  0 <= size <= remotefilesize ->
  _get_file_while (S fuel) remotefile localfile remotefilesize size data s =
    let (r, w1) := sftp_read remotefile size arraysize (world s) in
    let s1 := mkRun w1 (trace s ++ [ev_read remotefile size arraysize r]) in
    match r with
    | Return None => (Return tt, s1)
    | Return (Some payload) =>
        if arraysize <? len payload then (Raise IOException, s1)
        else
          let data' := arraycopy payload data 0 in
          let datalen := chunk remotefilesize size in
          let bytes := take (Z.to_nat datalen) data' in
          let (r2, w2) := fos_write localfile bytes w1 in
          let s2 := mkRun w2 (trace s1 ++ [ev_write localfile bytes r2]) in
          match r2 with
          | Return _ =>
              _get_file_while fuel remotefile localfile remotefilesize
                (size + datalen) data' s2
          | Raise e => (Raise e, s2)
          | Blocks => (Blocks, s2)
          | OutOfFuel => (OutOfFuel, s2)
          end
    | Raise e => (Raise e, s1)
    | Blocks => (Blocks, s1)
    | OutOfFuel => (OutOfFuel, s1)
    end.
Proof.
  intros Hdata Hsize. cbn [_get_file_while]. unfold bind at 1.
  rewrite read_run by exact Hdata.
  destruct (sftp_read remotefile size arraysize (world s))
    as [[[payload |] | e | |] w1]; try reflexivity.
  destruct (arraysize <? len payload) eqn:Elong; [reflexivity |].
  cbn [fst snd].
  assert (Hlen : len (arraycopy payload data 0) = arraysize).
  { bool_to_prop. unfold len, arraysize in *.
    rewrite arraycopy_length; lia. }
  replace (len payload =? -1) with false
    by (symmetry; apply Z.eqb_neq; unfold len; lia).
  rewrite Hlen. fold (chunk remotefilesize size).
  unfold bind. rewrite write_run
    by (rewrite Hlen; unfold chunk, arraysize;
        destruct (remotefilesize - size <? 4096) eqn:E;
        bool_to_prop; lia).
  cbn [world trace].
  destruct (fos_write localfile _ w1) as [[[] | e | |] w2]; reflexivity.
Qed.

End GetFile.

Section GetFileTrace.
Context {W : Type} `{SFTPv3Client W} `{LocalFiles W}.

Lemma chunk_bounds (remotefilesize size : Z) :
  0 <= size <= remotefilesize ->
  0 <= chunk remotefilesize size <= arraysize
  /\ size + chunk remotefilesize size <= remotefilesize.
Proof.
  intros Hsize. unfold chunk, arraysize.
  destruct (remotefilesize - size <? 4096) eqn:E; bool_to_prop; lia.
Qed.


(** The writes of the loop follow the chunking rule, and the running count
    stays within [remotefilesize], whatever the server replies. *)
Lemma _get_file_while_chunked (fuel : nat) (remotefile : handle)
    (localfile : ostream) (remotefilesize size : Z) (data : list jbyte)
    (s : run W) :
  len data = arraysize ->
  0 <= size <= remotefilesize ->
  exists evs,
    trace (snd (_get_file_while fuel remotefile localfile remotefilesize
                  size data s)) = trace s ++ evs
    /\ chunked remotefilesize size (write_lengths evs)
    /\ never_exceeds remotefilesize size (write_lengths evs)
    /\ size + sum_list (write_lengths evs) <= remotefilesize.
Proof.
  revert size data s.
  induction fuel as [| fuel IH]; intros size data s Hdata Hsize.
  - exists []. rewrite app_nil_r. cbn. repeat split; lia.
  - rewrite _get_file_while_step by assumption.
    destruct (sftp_read remotefile size arraysize (world s))
      as [[[payload |] | e | |] w1];
      try (eexists [_]; trace_done).
    destruct (arraysize <? len payload) eqn:Elong;
      [eexists [_]; trace_done |].
    cbv zeta. cbn [trace world].
    pose proof (chunk_bounds remotefilesize size Hsize) as [Hchunk Hnext].
    assert (Hdata' : len (arraycopy payload data 0) = arraysize).
    { bool_to_prop. unfold len, arraysize in *.
      rewrite arraycopy_length; lia. }
    assert (Hbytes :
      len (take (Z.to_nat (chunk remotefilesize size))
             (arraycopy payload data 0)) = chunk remotefilesize size).
    { unfold len in *. rewrite length_take. lia. }
    destruct (fos_write localfile _ w1) as [[[] | e | |] w2];
      try (eexists [_; _]; split;
           [cbn [snd trace]; rewrite <- ?app_assoc; reflexivity |];
           cbn [write_lengths chunked never_exceeds sum_list fold_right];
           rewrite Hbytes; unfold chunk at 1; repeat split; lia).
    destruct (IH (size + chunk remotefilesize size)
                (arraycopy payload data 0)
                (mkRun w2
                   ((trace s ++ [ev_read remotefile size arraysize
                                   (Return (Some payload))])
                    ++ [ev_write localfile
                          (take (Z.to_nat (chunk remotefilesize size))
                             (arraycopy payload data 0)) (Return tt)]))
                Hdata' ltac:(lia))
      as (evs & Etrace & Hchunked & Hnever & Hsum).
    eexists (_ :: _ :: evs). split.
    + rewrite Etrace. cbn [trace]. rewrite <- !app_assoc. reflexivity.
    + cbn [write_lengths chunked never_exceeds sum_list fold_right].
      fold (sum_list (write_lengths evs)).
      rewrite Hbytes. unfold chunk at 1.
      repeat split; try assumption; lia.
Qed.

(** The parts of a run of [_get_file]: either it stops before the loop,
    having closed and written nothing, or it opens the local stream, stats
    and opens the remote file, runs the loop, and, only if the loop ends
    through the end-of-file reply, goes on to [closeFile], [flush] and
    [close]. *)
Lemma _get_file_shape (fuel : nat) (remotepath localpath : string)
    (s : run W) :
  (exists evs,
      trace (snd (_get_file fuel remotepath localpath s)) = trace s ++ evs
      /\ fst (_get_file fuel remotepath localpath s) <> Return tt
      /\ closed_handles evs = []
      /\ write_lengths evs = [])
  \/ (exists localfile tempstats remotefile w3 tail,
        let setup :=
          [ev_FileOutputStream localpath (Return localfile);
           ev_stat remotepath (Return tempstats);
           ev_openFileRO remotepath (Return remotefile)] in
        let loop :=
          _get_file_while fuel remotefile localfile (attrs_size tempstats) 0
            (zeros arraysize) (mkRun w3 (trace s ++ setup)) in
        trace (snd (_get_file fuel remotepath localpath s))
          = trace (snd loop) ++ tail
        /\ match fst loop with
           | Return _ =>
               closed_handles tail = [remotefile]
               /\ write_lengths tail = []
               /\ tail <> []
               /\ Forall (fun ev => is_transfer_event ev = false) tail
           | _ =>
               tail = []
               /\ fst (_get_file fuel remotepath localpath s) <> Return tt
           end).
Proof.
  unfold _get_file, FileOutputStream, stat, openFileRO.
  rewrite bind_call_run.
  destruct (fos_new localpath (world s)) as [[localfile | e | |] w1];
    cbv zeta;
    try (left; eexists [_]; cbn [fst snd trace];
         repeat split; congruence).
  rewrite bind_call_run. cbn [world trace].
  destruct (sftp_stat remotepath w1) as [[tempstats | e | |] w2];
    cbv zeta;
    try (left; eexists [_; _]; cbn [fst snd trace]; rewrite <- ?app_assoc;
         repeat split; congruence).
  rewrite bind_call_run. cbn [world trace].
  destruct (sftp_openFileRO remotepath w2) as [[remotefile | e | |] w3];
    cbv zeta;
    try (left; eexists [_; _; _]; cbn [fst snd trace]; rewrite <- ?app_assoc;
         repeat split; congruence).
  right. exists localfile, tempstats, remotefile, w3.
  rewrite <- !app_assoc. cbn [app].
  rewrite (bind_run (_get_file_while fuel remotefile localfile
                       (attrs_size tempstats) 0 (zeros arraysize))).
  destruct (_get_file_while fuel remotefile localfile (attrs_size tempstats)
              0 (zeros arraysize) _) as [[[] | e | |] s4];
    try (exists []; cbn [fst snd]; rewrite app_nil_r;
         repeat split; congruence).
  unfold closeFile, flush, close. rewrite bind_call_run. cbn [fst snd].
  destruct (sftp_closeFile remotefile (world s4)) as [[[] | e | |] w5];
    cbv zeta;
    try solve [eexists [ev_closeFile remotefile _]; cbn [fst snd trace];
               repeat split; try congruence; repeat constructor].
  rewrite bind_call_run. cbn [world trace].
  destruct (fos_flush localfile w5) as [[[] | e | |] w6];
    cbv zeta;
    try solve [eexists [ev_closeFile remotefile _; ev_flush localfile _];
               cbn [fst snd trace]; rewrite <- ?app_assoc;
               repeat split; try congruence; repeat constructor].
  unfold call. cbn [world trace].
  destruct (fos_close localfile w6) as [r7 w7].
  exists [ev_closeFile remotefile (Return tt); ev_flush localfile (Return tt);
          ev_close localfile r7].
  cbn [snd trace]. rewrite <- !app_assoc.
  repeat split; try congruence; repeat constructor.
Qed.

Lemma len_buffer : len (zeros arraysize) = arraysize.
Proof. apply len_zeros. unfold arraysize. lia. Qed.

(** C9: in every run of [_get_file], against any server and local disk,
    the writes to the local file follow the chunking rule for the size the
    [stat] reply reported (a full array of [arraysize] bytes while that many
    remain, the remainder afterwards), the running count never passes that
    size, and so neither does the total written. *)
Theorem _get_file_writes_within_stat_size (fuel : nat)
    (remotepath localpath : string) (s : run W) :
  exists evs,
    trace (snd (_get_file fuel remotepath localpath s)) = trace s ++ evs
    /\ forall remotefilesize,
         stat_reported_size evs = Some remotefilesize ->
         0 <= remotefilesize ->
         chunked remotefilesize 0 (write_lengths evs)
         /\ never_exceeds remotefilesize 0 (write_lengths evs)
         /\ sum_list (write_lengths evs) <= remotefilesize.
Proof.
  destruct (_get_file_shape fuel remotepath localpath s)
    as [(evs & Etrace & _ & _ & Hwrites)
       | (localfile & tempstats & remotefile & w3 & tail & Etrace & Htail)].
  - exists evs. split; [exact Etrace |].
    intros n _ Hn. rewrite Hwrites. cbn. repeat split; try lia.
  - cbv zeta in Etrace, Htail.
    set (s3 := mkRun w3 _) in *.
    set (loop := _get_file_while fuel remotefile localfile
                   (attrs_size tempstats) 0 (zeros arraysize) s3) in *.
    destruct (_get_file_while_emits fuel remotefile localfile
                (attrs_size tempstats) 0 (zeros arraysize) s3)
      as (evs4 & Eloop & _).
    fold loop in Eloop.
    assert (Hwrites : write_lengths tail = []).
    { destruct (fst loop); [tauto | | |]; destruct Htail as [-> _];
        reflexivity. }
    eexists. split.
    + rewrite Etrace, Eloop. subst s3. cbn [trace].
      rewrite <- !app_assoc. reflexivity.
    + cbn [app stat_reported_size]. intros n [= <-] Hn.
      cbn [write_lengths]. rewrite write_lengths_app, Hwrites, app_nil_r.
      destruct (_get_file_while_chunked fuel remotefile localfile
                  (attrs_size tempstats) 0 (zeros arraysize) s3
                  len_buffer (conj (Z.le_refl 0) Hn))
        as (evs4' & Eloop' & Hchunked & Hnever & Hsum).
      fold loop in Eloop'. rewrite Eloop in Eloop'.
      apply app_inv_head in Eloop'. subst evs4'.
      repeat split; try assumption; lia.
Qed.

Lemma transfer_failure_app (evs evs' : list event) :
  transfer_failure (evs ++ evs')
    = match transfer_failure evs with
      | Some e => Some e
      | None => transfer_failure evs'
      end.
Proof.
  induction evs as [| ev evs IH]; [reflexivity |].
  destruct ev; cbn [app transfer_failure]; try exact IH.
  - destruct r as [[payload |] | e | |]; try exact IH; [| reflexivity].
    destruct (len0 <? len payload); [reflexivity | exact IH].
  - destruct r; try exact IH. reflexivity.
Qed.

Lemma transfer_failure_others (evs : list event) :
  Forall (fun ev => is_transfer_event ev = false) evs ->
  transfer_failure evs = None.
Proof.
  induction 1 as [| ev evs Hev _ IH]; [reflexivity |].
  destruct ev; cbn [transfer_failure]; try exact IH; discriminate.
Qed.

Lemma fails_fast_ret {A : Type} (a : A) : fails_fast (@ret (run W) A a).
Proof.
  intros s. exists []. rewrite app_nil_r.
  split; [reflexivity |]. split; [discriminate | reflexivity].
Qed.

Lemma fails_fast_raise {A : Type} (e : exn) :
  fails_fast (@raise (run W) A e).
Proof.
  intros s. exists []. rewrite app_nil_r.
  split; [reflexivity |]. split; discriminate.
Qed.

Lemma fails_fast_out_of_fuel {A : Type} :
  fails_fast (@out_of_fuel (run W) A).
Proof.
  intros s. exists []. rewrite app_nil_r.
  split; [reflexivity |]. split; discriminate.
Qed.

Lemma fails_fast_bind {A B : Type} (m : M (run W) A)
    (k : A -> M (run W) B) :
  fails_fast m -> (forall a, fails_fast (k a)) -> fails_fast (bind m k).
Proof.
  intros Hm Hk s. unfold bind.
  destruct (Hm s) as (evs & Etrace & Hfailed & Hreturned).
  destruct (m s) as [[a | e | |] s1]; cbn [fst snd] in *;
    try (exists evs; split; [exact Etrace |];
         split; [| discriminate];
         intros e' He'; specialize (Hfailed _ He'); try discriminate;
         injection Hfailed as ->; reflexivity).
  destruct (Hk a s1) as (evs' & Etrace' & Hfailed' & Hreturned').
  exists (evs ++ evs'). split; [rewrite Etrace', Etrace, app_assoc; reflexivity |].
  rewrite transfer_failure_app, (Hreturned a eq_refl).
  split; assumption.
Qed.

(** A call other than a remote [read] or a local [write]. *)
Lemma fails_fast_call {A : Type} (mk : outcome A -> event)
    (op : W -> outcome A * W) :
  (forall r, is_transfer_event (mk r) = false) -> fails_fast (call mk op).
Proof.
  intros Hmk s. unfold call. destruct (op (world s)) as [r w'].
  exists [mk r]. split; [reflexivity |].
  rewrite (transfer_failure_others [mk r])
    by (repeat constructor; apply Hmk).
  split; [discriminate | reflexivity].
Qed.

Lemma read_fails_fast (h : handle) (fileOffset : Z) (dst : list jbyte)
    (dstoff n : Z) :
  fails_fast (read h fileOffset dst dstoff n).
Proof.
  unfold read. destruct ((32768 <? n) || (n <=? 0));
    [apply fails_fast_raise |].
  intros s. unfold bind, call.
  destruct (sftp_read h fileOffset n (world s)) as [[[payload |] | e | |] w1];
    cbn [fst snd trace].
  - exists [ev_read h fileOffset n (Return (Some payload))].
    cbn [transfer_failure]. fold (len payload).
    destruct (n <? len payload); unfold raise, ret.
    + split; [reflexivity |]. cbn [fst].
      split; [congruence | discriminate].
    + destruct ((dstoff <? 0) || _); cbn [fst snd trace];
        (split; [reflexivity |]); split; try discriminate; reflexivity.
  - exists [ev_read h fileOffset n (Return None)].
    split; [reflexivity |]. split; [discriminate | reflexivity].
  - exists [ev_read h fileOffset n (Raise e)].
    split; [reflexivity |]. split; [cbn; congruence | discriminate].
  - exists [ev_read h fileOffset n Blocks].
    split; [reflexivity |]. split; discriminate.
  - exists [ev_read h fileOffset n OutOfFuel].
    split; [reflexivity |]. split; discriminate.
Qed.

Lemma write_fails_fast (f : ostream) (b : list jbyte) (off n : Z) :
  fails_fast (write f b off n).
Proof.
  unfold write. destruct ((off <? 0) || (n <? 0) || _);
    [apply fails_fast_raise |].
  intros s. unfold call.
  destruct (fos_write f _ (world s)) as [[[] | e | |] w1];
    cbn [fst snd trace]; eexists [_];
    (split; [reflexivity |]); cbn [transfer_failure]; split;
    try discriminate; try reflexivity; congruence.
Qed.

(** The loop ends with the first [read] or [write] that fails. *)
Lemma _get_file_while_fails_fast (fuel : nat) (remotefile : handle)
    (localfile : ostream) (remotefilesize size : Z) (data : list jbyte) :
  fails_fast
    (_get_file_while fuel remotefile localfile remotefilesize size data).
Proof.
  revert size data. induction fuel as [| fuel IH]; intros size data.
  - apply fails_fast_out_of_fuel.
  - cbn [_get_file_while].
    apply fails_fast_bind; [apply read_fails_fast |].
    intros [moredata data']. simpl.
    destruct (moredata =? -1); [apply fails_fast_ret |].
    apply fails_fast_bind; [apply write_fails_fast | intros _; apply IH].
Qed.

Lemma _get_file_fails_fast (fuel : nat) (remotepath localpath : string) :
  fails_fast (_get_file fuel remotepath localpath).
Proof.
  unfold _get_file, FileOutputStream, stat, openFileRO, closeFile, flush,
    close.
  apply fails_fast_bind; [apply fails_fast_call; reflexivity | intros localfile].
  apply fails_fast_bind; [apply fails_fast_call; reflexivity | intros tempstats].
  apply fails_fast_bind; [apply fails_fast_call; reflexivity | intros remotefile].
  cbv zeta.
  apply fails_fast_bind; [apply _get_file_while_fails_fast | intros _].
  apply fails_fast_bind; [apply fails_fast_call; reflexivity | intros _].
  apply fails_fast_bind; [apply fails_fast_call; reflexivity | intros _].
  apply fails_fast_call; reflexivity.
Qed.

(** C2, as the code has it: when [_get_file] returns normally, the handle
    that [openFileRO] returned has been closed exactly once.  When a remote
    [read] or a local [write] fails during the transfer, [_get_file] raises
    the exception of that call and [closeFile] has not been called at all:
    the handle stays open.  So does it whenever [_get_file] raises with a
    [read] or a [write] as the last call made. *)
Theorem _get_file_closes_handle_on_normal_exit (fuel : nat)
    (remotepath localpath : string) (s : run W) :
  exists evs,
    trace (snd (_get_file fuel remotepath localpath s)) = trace s ++ evs
    /\ (fst (_get_file fuel remotepath localpath s) = Return tt ->
        exists remotefile,
          In (ev_openFileRO remotepath (Return remotefile)) evs
          /\ closed_handles evs = [remotefile])
    /\ (forall e,
          transfer_failure evs = Some e ->
          fst (_get_file fuel remotepath localpath s) = Raise e
          /\ closed_handles evs = [])
    /\ (forall e ev,
          fst (_get_file fuel remotepath localpath s) = Raise e ->
          last evs = Some ev ->
          is_transfer_event ev = true ->
          closed_handles evs = []).
Proof.
  destruct (_get_file_fails_fast fuel remotepath localpath s)
    as (evs0 & Etrace0 & Hfailed & _).
  destruct (_get_file_shape fuel remotepath localpath s)
    as [(evs & Etrace & Hraised & Hclosed & _)
       | (localfile & tempstats & remotefile & w3 & tail & Etrace & Htail)].
  - exists evs. split; [exact Etrace |]. split; [contradiction |].
    rewrite Etrace in Etrace0. apply app_inv_head in Etrace0. subst evs0.
    split; [| intros; exact Hclosed].
    intros e He. split; [exact (Hfailed e He) | exact Hclosed].
  - cbv zeta in Etrace, Htail.
    set (s3 := mkRun w3 _) in *.
    set (loop := _get_file_while fuel remotefile localfile
                   (attrs_size tempstats) 0 (zeros arraysize) s3) in *.
    destruct (_get_file_while_emits fuel remotefile localfile
                (attrs_size tempstats) 0 (zeros arraysize) s3)
      as (evs4 & Eloop & Hevs4).
    destruct (_get_file_while_fails_fast fuel remotefile localfile
                (attrs_size tempstats) 0 (zeros arraysize) s3)
      as (evs4' & Eloop' & _ & Hreturned4).
    fold loop in Eloop, Eloop', Hreturned4.
    rewrite Eloop in Eloop'. apply app_inv_head in Eloop'. subst evs4'.
    apply transfer_events_close_nothing in Hevs4.
    assert (Etrace' :
      trace (snd (_get_file fuel remotepath localpath s))
        = trace s ++ ([ev_FileOutputStream localpath (Return localfile);
                       ev_stat remotepath (Return tempstats);
                       ev_openFileRO remotepath (Return remotefile)]
                      ++ evs4 ++ tail)).
    { rewrite Etrace, Eloop. subst s3. cbn [trace].
      rewrite <- !app_assoc. reflexivity. }
    eexists. split; [exact Etrace' |].
    rewrite Etrace' in Etrace0. apply app_inv_head in Etrace0. subst evs0.
    cbn [app closed_handles]. rewrite closed_handles_app, Hevs4.
    cbn [app].
    destruct (fst loop) as [[] | e0 | |].
    + destruct Htail as (Hclosed & _ & Hne & Hnot). split; [| split].
      * intros _. exists remotefile. split; [| exact Hclosed].
        right. right. left. reflexivity.
      * intros e He. exfalso.
        cbn [app transfer_failure] in He.
        rewrite transfer_failure_app, (Hreturned4 tt eq_refl),
          (transfer_failure_others tail Hnot) in He.
        discriminate.
      * intros e ev _ Hlast Htransfer. exfalso.
        apply last_is_Some in Hne as [ev' Hev'].
        rewrite !app_comm_cons, last_app, Hev' in Hlast.
        injection Hlast as ->.
        apply last_Some_elem_of in Hev'.
        rewrite Forall_forall in Hnot. specialize (Hnot _ Hev').
        congruence.
    + destruct Htail as [-> Hraised]. split; [contradiction |].
      split; [| intros; reflexivity].
      intros e He. split; [exact (Hfailed e He) | reflexivity].
    + destruct Htail as [-> Hraised]. split; [contradiction |].
      split; [| intros; reflexivity].
      intros e He. split; [exact (Hfailed e He) | reflexivity].
    + destruct Htail as [-> Hraised]. split; [contradiction |].
      split; [| intros; reflexivity].
      intros e He. split; [exact (Hfailed e He) | reflexivity].
Qed.

End GetFileTrace.

(** ** Creating the missing directories of a path *)

Section CreateMissingRemotePath.
Context {W : Type} `{SFTPv3Client W}.

(** In every run, a [mkdir] follows a failed [stat] of the same path and
    nothing else. *)
Lemma _create_missing_remote_path_for_discipline (dirnames : list string)
    (curdir : string) (s : run W) :
  exists evs,
    trace (snd (_create_missing_remote_path_for curdir dirnames s))
      = trace s ++ evs
    /\ stat_then_mkdir evs = true.
Proof.
  revert curdir s. induction dirnames as [| dirname dirnames IH]; intros curdir s.
  - exists []. rewrite app_nil_r. split; reflexivity.
  - cbn [_create_missing_remote_path_for].
    set (curdir' := if truthy_str dirname then format_slash curdir dirname
                    else curdir).
    rewrite bind_run. unfold try_except, stat, mkdir.
    rewrite bind_call_run.
    destruct (sftp_stat curdir' (world s)) as [[a | e | |] w1]; cbv zeta;
      try solve [eexists [_]; split; reflexivity].
    + unfold ret.
      destruct (IH curdir' (mkRun w1 (trace s ++ [ev_stat curdir' (Return a)])))
        as (evs & Etrace & Hevs).
      exists (ev_stat curdir' (Return a) :: evs). split; [| exact Hevs].
      rewrite Etrace. cbn [trace]. rewrite <- app_assoc. reflexivity.
    + destruct (isinstance_IOException e) eqn:Ecatch;
        cbv beta iota; rewrite ?Ecatch.
      * unfold call. cbn [world trace].
        destruct (sftp_mkdir curdir' mode_0744 w1) as [[[] | e' | |] w2];
          try solve [eexists [_; _]; split;
                     [cbn [snd trace]; rewrite <- app_assoc; reflexivity
                     | cbn; rewrite Ecatch, String.eqb_refl; reflexivity]].
        match goal with
        | |- context [_create_missing_remote_path_for curdir' dirnames ?s2] =>
            destruct (IH curdir' s2) as (evs & Etrace & Hevs)
        end.
        eexists (_ :: _ :: evs). split.
        -- rewrite Etrace. cbn [trace]. rewrite <- !app_assoc. reflexivity.
        -- cbn. rewrite Ecatch, String.eqb_refl. exact Hevs.
      * eexists [_]. split; [reflexivity |]. cbn. rewrite Ecatch. reflexivity.
Qed.

Hypothesis stat_reads_only : forall p w, snd (sftp_stat p w) = w.
Hypothesis absolute_path_reads_only :
  forall p w, snd (sftp_private_absolute_path p w) = w.
Hypothesis mkdir_creates :
  forall p mode w w',
    sftp_mkdir p mode w = (Return tt, w') ->
    exists a, fst (sftp_stat p w') = Return a.
Hypothesis mkdir_keeps :
  forall p mode w w' q a,
    sftp_mkdir p mode w = (Return tt, w') ->
    fst (sftp_stat q w) = Return a ->
    exists a', fst (sftp_stat q w') = Return a'.
Hypothesis mkdir_keeps_absolute_path :
  forall p mode w w' q,
    sftp_mkdir p mode w = (Return tt, w') ->
    fst (sftp_private_absolute_path q w')
      = fst (sftp_private_absolute_path q w).


(** After a successful pass over the segments, every segment exists, and
    whatever existed before still does. *)
Lemma _create_missing_remote_path_for_creates (dirnames : list string)
    (curdir : string) (s s1 : run W) :
  _create_missing_remote_path_for curdir dirnames s = (Return tt, s1) ->
  Forall (exists_on (world s1)) (segments curdir dirnames)
  /\ (forall q, exists_on (world s) q -> exists_on (world s1) q)
  /\ (forall q, fst (sftp_private_absolute_path q (world s1))
                = fst (sftp_private_absolute_path q (world s))).
Proof.
  revert curdir s. induction dirnames as [| dirname dirnames IH];
    intros curdir s Hrun.
  - injection Hrun as <-. repeat split; [constructor | tauto].
  - cbn [_create_missing_remote_path_for segments] in *.
    set (curdir' := if truthy_str dirname then format_slash curdir dirname
                    else curdir) in *.
    rewrite bind_run in Hrun. unfold try_except, stat, mkdir in Hrun.
    rewrite bind_call_run in Hrun.
    pose proof (stat_reads_only curdir' (world s)) as Hpure.
    destruct (sftp_stat curdir' (world s)) as [[a | e | |] w1] eqn:Estat;
      cbv zeta in Hrun; try discriminate; simpl in Hpure; subst w1.
    + unfold ret in Hrun. apply IH in Hrun as (Hsegs & Hkeep & Habs).
      cbn [world] in *. repeat split; try assumption.
      constructor; [| exact Hsegs].
      apply Hkeep. exists a. rewrite Estat. reflexivity.
    + destruct (isinstance_IOException e); [| discriminate].
      unfold call in Hrun. cbn [world trace] in Hrun.
      destruct (sftp_mkdir curdir' mode_0744 (world s))
        as [[[] | e' | |] w2] eqn:Emkdir; try discriminate.
      apply IH in Hrun as (Hsegs & Hkeep & Habs). cbn [world] in *.
      split; [| split].
      * constructor; [| exact Hsegs].
        apply Hkeep. exact (mkdir_creates _ _ _ _ Emkdir).
      * intros q [a Hq]. apply Hkeep.
        exact (mkdir_keeps _ _ _ _ q a Emkdir Hq).
      * intros q. rewrite Habs.
        exact (mkdir_keeps_absolute_path _ _ _ _ q Emkdir).
Qed.

(** A pass over segments that all exist stats each of them, and does
    nothing else. *)
Lemma _create_missing_remote_path_for_existing (dirnames : list string)
    (curdir : string) (s : run W) :
  Forall (exists_on (world s)) (segments curdir dirnames) ->
  exists evs,
    _create_missing_remote_path_for curdir dirnames s
      = (Return tt, mkRun (world s) (trace s ++ evs))
    /\ mkdir_calls evs = []
    /\ successful_stats evs = segments curdir dirnames.
Proof.
  revert curdir s. induction dirnames as [| dirname dirnames IH];
    intros curdir s Hsegs.
  - exists []. rewrite app_nil_r. destruct s. repeat split.
  - cbn [_create_missing_remote_path_for segments] in *.
    set (curdir' := if truthy_str dirname then format_slash curdir dirname
                    else curdir) in *.
    apply Forall_cons in Hsegs as [[a Ha] Hsegs].
    rewrite bind_run. unfold try_except, stat.
    rewrite bind_call_run.
    pose proof (stat_reads_only curdir' (world s)) as Hpure.
    destruct (sftp_stat curdir' (world s)) as [r w1].
    simpl in Ha, Hpure. subst r w1. cbv zeta. unfold ret.
    destruct (IH curdir'
                (mkRun (world s) (trace s ++ [ev_stat curdir' (Return a)]))
                Hsegs) as (evs & Erun & Hmkdir & Hstats).
    exists (ev_stat curdir' (Return a) :: evs).
    rewrite Erun. cbn [world trace]. rewrite <- app_assoc.
    repeat split; [exact Hmkdir |]. cbn. rewrite Hstats. reflexivity.
Qed.

(** C5: after one successful [_create_missing_remote_path], a second call
    with the same path returns without error, leaves the server as it was,
    makes no [mkdir], and its successful [stat]s are those of the
    accumulated segments; and in any call at all a [mkdir] is made only
    right after the [stat] of that same segment has raised an
    [IOException]. *)
Theorem _create_missing_remote_path_idempotent (path : string)
    (s s1 : run W) :
  _create_missing_remote_path path s = (Return tt, s1) ->
  (exists evs curdir,
      _create_missing_remote_path path s1
        = (Return tt, mkRun (world s1) (trace s1 ++ evs))
      /\ mkdir_calls evs = []
      /\ successful_stats evs = segments curdir (split_slash path)
      /\ (startswith path "/" = true -> curdir = "/"))
  /\ (forall s0 : run W, exists evs,
        trace (snd (_create_missing_remote_path path s0)) = trace s0 ++ evs
        /\ stat_then_mkdir evs = true).
Proof.
  intros Hrun. split.
  - unfold _create_missing_remote_path in *.
    rewrite bind_run in Hrun. rewrite bind_run.
    destruct (startswith path "/") eqn:Eabs.
    + unfold ret in *.
      apply _create_missing_remote_path_for_creates in Hrun as (Hsegs & _).
      destruct (_create_missing_remote_path_for_existing
                  (split_slash path) "/" s1 Hsegs)
        as (evs & Erun & Hmkdir & Hstats).
      exists evs, "/". rewrite Erun. repeat split; assumption.
    + unfold client_absolute_path, call in *.
      pose proof (absolute_path_reads_only "." (world s)) as Hpure.
      pose proof (absolute_path_reads_only "." (world s1)) as Hpure1.
      destruct (sftp_private_absolute_path "." (world s))
        as [[curdir | e | |] w0] eqn:Eabs0; try discriminate.
      simpl in Hpure. subst w0.
      apply _create_missing_remote_path_for_creates in Hrun
        as (Hsegs & _ & Hstable).
      specialize (Hstable "."). cbn [world] in Hstable.
      rewrite Eabs0 in Hstable.
      destruct (sftp_private_absolute_path "." (world s1)) as [r w1].
      simpl in Hpure1, Hstable. subst r w1.
      match goal with
      | |- context [_create_missing_remote_path_for curdir _ ?s2] =>
          destruct (_create_missing_remote_path_for_existing
                      (split_slash path) curdir s2 Hsegs)
            as (evs & Erun & Hmkdir & Hstats)
      end.
      exists (ev_client_absolute_path "." (Return curdir) :: evs), curdir.
      rewrite Erun. cbn [world trace]. rewrite <- app_assoc.
      repeat split; try assumption. discriminate.
  - intros s0. unfold _create_missing_remote_path.
    rewrite bind_run.
    destruct (startswith path "/").
    + unfold ret. apply _create_missing_remote_path_for_discipline.
    + unfold client_absolute_path, call.
      destruct (sftp_private_absolute_path "." (world s0))
        as [[curdir | e | |] w0];
        try solve [eexists [_]; split; reflexivity].
      match goal with
      | |- context [_create_missing_remote_path_for curdir _ ?s2] =>
          destruct (_create_missing_remote_path_for_discipline
                      (split_slash path) curdir s2) as (evs & Etrace & Hevs)
      end.
      exists (ev_client_absolute_path "." (Return curdir) :: evs).
      split; [| exact Hevs].
      rewrite Etrace. cbn [trace]. rewrite <- app_assoc. reflexivity.
Qed.

End CreateMissingRemotePath.

(** ** The in-memory server meets what idempotence needs *)

Lemma machine_stat_reads_only (p : string) (m : machine) :
  snd (machine_stat p m) = m.
Proof.
  unfold machine_stat. destruct (node_at (remote m) (components p)); reflexivity.
Qed.

Lemma machine_absolute_path_reads_only (p : string) (m : machine) :
  snd (machine_private_absolute_path p m) = m.
Proof. reflexivity. Qed.

Lemma node_at_insert (fs : gmap (list string) node) (p q : list string)
    (n : node) :
  is_Some (node_at fs q) -> is_Some (node_at (<[p := n]> fs) q).
Proof.
  destruct q as [| c q]; [intros _; eexists; reflexivity |].
  simpl. intros Hq. destruct (decide (p = c :: q)) as [-> | Hne].
  - rewrite lookup_insert_eq. eexists; reflexivity.
  - rewrite lookup_insert_ne by exact Hne. exact Hq.
Qed.

Lemma machine_stat_returns (p : string) (m : machine) :
  (exists a, fst (machine_stat p m) = Return a)
  <-> is_Some (node_at (remote m) (components p)).
Proof.
  unfold machine_stat.
  destruct (node_at (remote m) (components p)) as [n |]; simpl; split.
  - intros _. eexists; reflexivity.
  - intros _. eexists; reflexivity.
  - intros [a Ha]. discriminate.
  - intros [n Hn]. discriminate.
Qed.

Lemma machine_mkdir_returns (p : string) (mode : Z) (m m' : machine) :
  machine_mkdir p mode m = (Return tt, m') ->
  m' = with_remote m (<[components p := Dir mode]> (remote m)).
Proof.
  unfold machine_mkdir.
  destruct (node_at (remote m) (components p)); [discriminate |].
  destruct (node_at (remote m) (parent (components p))) as [[perm | perm c] |];
    try discriminate.
  intros [= <-]. reflexivity.
Qed.

Lemma machine_mkdir_creates (p : string) (mode : Z) (m m' : machine) :
  machine_mkdir p mode m = (Return tt, m') ->
  exists a, fst (machine_stat p m') = Return a.
Proof.
  intros Hmkdir. apply machine_stat_returns.
  rewrite (machine_mkdir_returns _ _ _ _ Hmkdir). simpl.
  destruct (components p) as [| c q]; [eexists; reflexivity |].
  simpl. rewrite lookup_insert_eq. eexists; reflexivity.
Qed.

Lemma machine_mkdir_keeps (p : string) (mode : Z) (m m' : machine)
    (q : string) (a : SFTPv3FileAttributes) :
  machine_mkdir p mode m = (Return tt, m') ->
  fst (machine_stat q m) = Return a ->
  exists a', fst (machine_stat q m') = Return a'.
Proof.
  intros Hmkdir Hq. apply machine_stat_returns.
  rewrite (machine_mkdir_returns _ _ _ _ Hmkdir). simpl.
  apply node_at_insert. apply machine_stat_returns. exists a. exact Hq.
Qed.

Lemma machine_mkdir_keeps_absolute_path (p : string) (mode : Z)
    (m m' : machine) (q : string) :
  machine_mkdir p mode m = (Return tt, m') ->
  fst (machine_private_absolute_path q m')
    = fst (machine_private_absolute_path q m).
Proof. reflexivity. Qed.

Lemma _create_missing_remote_path_idempotent_witness :
  let s1 := snd (_create_missing_remote_path "/a/b" (start empty_machine)) in
  exists evs,
    _create_missing_remote_path "/a/b" s1
      = (Return tt, mkRun (world s1) (trace s1 ++ evs))
    /\ mkdir_calls evs = [].
Proof.
  intros s1.
  destruct (@_create_missing_remote_path_idempotent
              machine machine_SFTPv3Client
              machine_stat_reads_only machine_absolute_path_reads_only
              machine_mkdir_creates machine_mkdir_keeps
              machine_mkdir_keeps_absolute_path
              "/a/b" (start empty_machine) s1)
    as [(evs & curdir & Erun & Hmkdir & _) _].
  - vm_compute. reflexivity.
  - exists evs. split; [exact Erun | exact Hmkdir].
Defined.

(** ** Downloading from the in-memory server *)


Lemma machine_read_eof (m : machine) (h : handle) (p : list string)
    (perm : Z) (content : list jbyte) (fileOffset n : Z) :
  handles m !! h = Some p ->
  node_at (remote m) p = Some (File perm content) ->
  len content <= fileOffset ->
  machine_read h fileOffset n m = (Return None, m).
Proof.
  intros Hh Hp Hoff. unfold machine_read. rewrite Hh, Hp.
  fold (len content).
  destruct (fileOffset <? 0) eqn:Eneg;
    [bool_to_prop; unfold len in *; lia |].
  destruct (len content <=? fileOffset) eqn:Eeof; [reflexivity |].
  bool_to_prop. lia.
Qed.

Lemma machine_read_data (m : machine) (h : handle) (p : list string)
    (perm : Z) (content : list jbyte) (fileOffset n : Z) :
  handles m !! h = Some p ->
  node_at (remote m) p = Some (File perm content) ->
  0 <= fileOffset < len content ->
  machine_read h fileOffset n m =
    (Return (Some (take (Z.to_nat (Z.min n (read_limit m)))
                     (drop (Z.to_nat fileOffset) content))), m).
Proof.
  intros Hh Hp Hoff. unfold machine_read. rewrite Hh, Hp.
  fold (len content).
  destruct (fileOffset <? 0) eqn:Eneg; [bool_to_prop; lia |].
  destruct (len content <=? fileOffset) eqn:Eeof; [bool_to_prop; lia |].
  reflexivity.
Qed.

Lemma machine_fos_write_run (m : machine) (f : ostream) (localpath : string)
    (bytes : list jbyte) :
  streams m !! f = Some localpath ->
  machine_fos_write f bytes m =
    (Return tt,
     with_local m (<[localpath := default [] (local m !! localpath) ++ bytes]>
                     (local m))).
Proof. intros Hf. unfold machine_fos_write. rewrite Hf. reflexivity. Qed.

(** With a full array per request the loop copies the rest of the file and
    stops at the end-of-file reply. *)
Lemma _get_file_while_copies (content : list jbyte) (perm : Z)
    (p : list string) (h : handle) (f : ostream) (localpath : string)
    (fuel : nat) (size : Z) (data : list jbyte) (m : machine)
    (t : list event) :
  copying content perm p h f localpath size m ->
  len data = arraysize ->
  0 <= size <= len content ->
  (len content - size + (arraysize - 1)) / arraysize < Z.of_nat fuel ->
  exists m' t',
    _get_file_while fuel h f (len content) size data (mkRun m t)
      = (Return tt, mkRun m' t')
    /\ copying content perm p h f localpath (len content) m'.
Proof.
  revert size data m t.
  induction fuel as [| fuel IH];
    intros size data m t (Hp & Hh & Hf & Hlocal & Hlimit) Hdata Hsize Hfuel.
  - unfold arraysize in *. exfalso. Z.div_mod_to_equations. lia.
  - rewrite _get_file_while_step by assumption.
    change (@sftp_read machine machine_SFTPv3Client) with machine_read.
    change (@fos_write machine machine_LocalFiles) with machine_fos_write.
    cbn [world trace].
    destruct (Z.eq_dec size (len content)) as [-> | Hmore].
    + rewrite (machine_read_eof m h p perm content) by (assumption || lia).
      eexists _, _. split; [reflexivity |]. repeat split; assumption.
    + rewrite (machine_read_data m h p perm content) by (assumption || lia).
      set (payload := take (Z.to_nat (Z.min arraysize (read_limit m)))
                        (drop (Z.to_nat size) content)).
      assert (Hpayload : len payload = chunk (len content) size).
      { unfold payload, chunk, len in *.
        rewrite length_take, length_drop.
        destruct (Z.of_nat (length content) - size <? arraysize) eqn:E;
          bool_to_prop; unfold arraysize in *; lia. }
      replace (arraysize <? len payload) with false
        by (symmetry; apply Z.ltb_ge; rewrite Hpayload;
            apply chunk_bounds; lia).
      cbv zeta.
      replace (Z.to_nat (chunk (len content) size)) with (length payload)
        by (rewrite <- Hpayload; unfold len; lia).
      rewrite arraycopy_take.
      rewrite (machine_fos_write_run m f localpath) by exact Hf.
      rewrite Hlocal. cbn [default]. unfold id.
      assert (Hgrown :
        take (Z.to_nat size) content ++ payload
        = take (Z.to_nat (size + chunk (len content) size)) content).
      { unfold payload.
        replace (Z.to_nat (size + chunk (len content) size))
          with (Z.to_nat size + Z.to_nat (chunk (len content) size))%nat
          by (pose proof (chunk_bounds (len content) size); lia).
        rewrite <- take_take_drop. f_equal.
        unfold chunk, len, arraysize in *.
        destruct (Z.of_nat (length content) - size <? 4096) eqn:E;
          bool_to_prop.
        - rewrite !take_ge by (rewrite length_drop; lia). reflexivity.
        - f_equal. lia. }
      rewrite Hgrown.
      apply IH.
      * repeat split; cbn; try assumption.
        rewrite lookup_insert_eq. reflexivity.
      * bool_to_prop. unfold len, arraysize in *.
        rewrite arraycopy_length; [exact Hdata |].
        pose proof (chunk_bounds (Z.of_nat (length content)) size).
        unfold arraysize in *. lia.
      * pose proof (chunk_bounds (len content) size). lia.
      * unfold chunk, arraysize in *.
        destruct (len content - size <? 4096) eqn:E; bool_to_prop;
          Z.div_mod_to_equations; lia.
Qed.

(** C1: for a remote file of any size on a server that answers each request
    with a full array or up to the end of the file, and with enough
    iterations allowed for the loop to reach the end, [_get_file] returns
    and the local file holds exactly the bytes of the remote file. *)
Theorem _get_file_copies_remote_content (m : machine) (t : list event)
    (remotepath localpath : string) (perm : Z) (content : list jbyte)
    (fuel : nat) :
  node_at (remote m) (components remotepath) = Some (File perm content) ->
  truthy_str localpath = true ->
  arraysize <= read_limit m ->
  len content / arraysize + 1 < Z.of_nat fuel ->
  fst (_get_file fuel remotepath localpath (mkRun m t)) = Return tt
  /\ local (world (snd (_get_file fuel remotepath localpath (mkRun m t))))
       !! localpath = Some content.
Proof.
  intros Hfile Hlocalpath Hlimit Hfuel.
  unfold _get_file, FileOutputStream, stat, openFileRO, closeFile, flush,
    close.
  rewrite bind_call_run.
  change (@fos_new machine machine_LocalFiles) with machine_fos_new.
  unfold machine_fos_new. cbn [world trace]. rewrite Hlocalpath.
  cbn [negb]. cbv zeta.
  rewrite bind_call_run.
  change (@sftp_stat machine machine_SFTPv3Client) with machine_stat.
  unfold machine_stat. cbn [world trace remote with_streams with_local].
  rewrite Hfile. cbv zeta.
  rewrite bind_call_run.
  change (@sftp_openFileRO machine machine_SFTPv3Client)
    with machine_openFileRO.
  unfold machine_openFileRO, open_handle.
  cbn [world trace remote with_streams with_local]. rewrite Hfile.
  cbv zeta. cbn [attrs_of attrs_size].
  rewrite bind_run.
  match goal with
  | |- context [_get_file_while fuel ?h ?f _ 0 _ (mkRun ?m3 ?t3)] =>
      destruct (_get_file_while_copies content perm (components remotepath)
                  h f localpath fuel 0 (zeros arraysize) m3 t3)
        as (m4 & t4 & Eloop & Hremote & Hh & Hf & Hcopied & _)
  end.
  - repeat split; cbn; try assumption.
    + rewrite lookup_insert_eq. reflexivity.
    + rewrite lookup_insert_eq. reflexivity.
    + rewrite lookup_insert_eq. reflexivity.
  - apply len_buffer.
  - unfold len. lia.
  - unfold arraysize in *. Z.div_mod_to_equations. lia.
  - rewrite Eloop.
    rewrite bind_call_run.
    change (@sftp_closeFile machine machine_SFTPv3Client)
      with machine_closeFile.
    unfold machine_closeFile. cbn [world trace]. rewrite Hh. cbv zeta.
    rewrite bind_call_run.
    change (@fos_flush machine machine_LocalFiles) with machine_fos_flush.
    unfold machine_fos_flush. cbv zeta.
    unfold call.
    change (@fos_close machine machine_LocalFiles) with machine_fos_close.
    unfold machine_fos_close. cbn.
    split; [reflexivity |].
    rewrite Hcopied. f_equal. apply take_ge. unfold len. lia.
Qed.

Lemma _get_file_copies_remote_content_witness :
  Forall (fun n =>
            local (world (snd (_get_file 4 "/data.bin" "copy.bin"
                                 (start (machine_with_file "/data.bin"
                                           (test_content n))))))
              !! "copy.bin" = Some (test_content n))
         [0; 4095; 4096; 8192; 8200].
Proof.
  repeat (apply List.Forall_cons; [| try apply List.Forall_nil]);
    match goal with
    | |- context [test_content ?n] =>
        apply (_get_file_copies_remote_content
                 (machine_with_file "/data.bin" (test_content n))
                 [] "/data.bin" "copy.bin" 420 (test_content n) 4);
          [ vm_compute; reflexivity
          | reflexivity
          | vm_compute; discriminate
          | vm_compute; reflexivity ]
    end.
Defined.

(** ** Runs of [_get_file] on the in-memory server *)

Lemma _get_file_writes_within_stat_size_witness :
  sum_list (write_lengths
              (trace (snd (_get_file 3 "/f" "out"
                             (start (machine_with_file "/f"
                                       [1; 2; 3; 4; 5])))))) <= 5.
Proof.
  destruct (_get_file_writes_within_stat_size 3 "/f" "out"
              (start (machine_with_file "/f" [1; 2; 3; 4; 5])))
    as (evs & Etrace & Hbound).
  change (trace (start (machine_with_file "/f" [1; 2; 3; 4; 5])) ++ evs)
    with evs in Etrace.
  rewrite Etrace. apply (Hbound 5).
  - rewrite <- Etrace. vm_compute. reflexivity.
  - lia.
Defined.

Lemma _get_file_closes_handle_on_normal_exit_witness :
  (exists remotefile,
     closed_handles
       (trace (snd (_get_file 3 "/f" "out"
                      (start (machine_with_file "/f" [1; 2; 3])))))
     = [remotefile])
  /\ (fst (_get_file 3 "/f" "out"
             (start (machine_with_file "/f" [1; 2; 3], 2%nat)))
        = Raise IOException
      /\ closed_handles
           (trace (snd (_get_file 3 "/f" "out"
                          (start (machine_with_file "/f" [1; 2; 3],
                                  2%nat)))))
         = []).
Proof.
  split.
  - destruct (_get_file_closes_handle_on_normal_exit 3 "/f" "out"
                (start (machine_with_file "/f" [1; 2; 3])))
      as (evs & Etrace & Hreturned & _).
    change (trace (start (machine_with_file "/f" [1; 2; 3])) ++ evs)
      with evs in Etrace.
    destruct Hreturned as (remotefile & _ & Hclosed).
    + vm_compute. reflexivity.
    + exists remotefile. rewrite Etrace. exact Hclosed.
  - destruct (_get_file_closes_handle_on_normal_exit 3 "/f" "out"
                (start (machine_with_file "/f" [1; 2; 3], 2%nat)))
      as (evs & Etrace & _ & Hfailed & _).
    change (trace (start (machine_with_file "/f" [1; 2; 3], 2%nat)) ++ evs)
      with evs in Etrace.
    rewrite Etrace. apply Hfailed.
    rewrite <- Etrace. vm_compute. reflexivity.
Defined.

(** When the connection is lost after the file was opened, the first [read]
    raises, [_get_file] raises with it, and the handle that [openFileRO]
    returned is still open on the server: [closeFile] was never called. *)
Lemma _get_file_leaves_handle_open_when_read_raises :
  let r := _get_file 3 "/f" "out"
             (start (machine_with_file "/f" [1; 2; 3], 2%nat)) in
  fst r = Raise IOException
  /\ In (ev_openFileRO "/f" (Return 0%nat)) (trace (snd r))
  /\ closed_handles (trace (snd r)) = []
  /\ closed_handles (trace (snd r)) <> [0%nat]
  /\ handles (fst (world (snd r))) !! 0%nat = Some ["f"].
Proof.
  vm_compute. repeat split; try reflexivity; try discriminate.
  right. right. left. reflexivity.
Qed.

(** * Further properties *)

(** ** Reading the shell byte by byte *)

Lemma _read_byte_run (self : JavaSSHClient) (t : list event) :
  _read_byte (mkRun self t) =
    match _stdout self with
    | [] => (Return EmptyString, mkRun self (t ++ [ev_available (Return 0)]))
    | b :: buffered =>
        (Return (String (latin1_char b) EmptyString),
         mkRun (mkJavaSSHClient (config self) buffered)
           (t ++ [ev_available (Return (len (b :: buffered)));
                  ev_stream_read 1 (Return (Some [Z.land b 255]))]))
    end.
Proof.
  unfold _read_byte, bind. rewrite available_run.
  destruct self as [cfg [| b buffered]]; [reflexivity |].
  cbn [_stdout].
  replace (len (b :: buffered) =? 0) with false
    by (symmetry; apply Z.eqb_neq; unfold len; simpl; lia).
  cbn [negb]. unfold stream_read_one, call, stdout_read_one.
  cbn [world trace _stdout config]. unfold chr.
  pose proof (land_255_range b) as Hb.
  replace ((0 <=? Z.land b 255) && (Z.land b 255 <? 256)) with true
    by (symmetry; apply andb_true_iff; split; lia).
  unfold ret, latin1_char. rewrite <- app_assoc. reflexivity.
Qed.

(** [_read_byte] returns without waiting: the empty string when nothing is
    buffered, and otherwise the Latin-1 character of the first buffered
    byte, which is the only byte it takes off the stream; it calls [read]
    once for a byte taken and not at all otherwise. *)
Theorem _read_byte_takes_one_byte (s : run JavaSSHClient) :
  fst (_read_byte s) = Return (latin1 (take 1 (_stdout (world s))))
  /\ _stdout (world (snd (_read_byte s))) = drop 1 (_stdout (world s))
  /\ exists evs,
       trace (snd (_read_byte s)) = trace s ++ evs
       /\ length (List.filter is_stream_read evs)
          = length (take 1 (_stdout (world s))).
Proof.
  destruct s as [self t]. rewrite _read_byte_run. cbn [world trace].
  destruct self as [cfg [| b buffered]]; cbn [_stdout fst snd world trace].
  - repeat split. eexists. split; reflexivity.
  - repeat split. eexists. split; reflexivity.
Qed.

Lemma latin1_app (a b : list jbyte) :
  latin1 (a ++ b) = (latin1 a ++ latin1 b)%string.
Proof.
  induction a as [| x a IH]; [reflexivity |].
  change (latin1 ((x :: a) ++ b)) with (String (latin1_char x) (latin1 (a ++ b))).
  rewrite IH. reflexivity.
Qed.

(** A [_read_byte] followed by a [_read] returns, in two pieces, what a
    single [_read] returns, and leaves the client in the same state. *)
Theorem _read_byte_then_read (s : run JavaSSHClient) :
  exists c d,
    fst (_read_byte s) = Return c
    /\ fst (_read (snd (_read_byte s))) = Return d
    /\ fst (_read s) = Return (c ++ d)%string
    /\ world (snd (_read (snd (_read_byte s)))) = world (snd (_read s)).
Proof.
  destruct s as [self t]. rewrite _read_byte_run, (_read_run self t).
  destruct self as [cfg [| b buffered]]; cbn [_stdout fst snd config].
  - exists EmptyString, EmptyString. rewrite _read_run. repeat split.
  - exists (String (latin1_char b) EmptyString), (latin1 buffered).
    rewrite _read_run. repeat split.
Qed.

(** ** Writing to the shell *)

Lemma str_bytes_app (a b : string) :
  str_bytes (a ++ b) = str_bytes a ++ str_bytes b.
Proof.
  unfold str_bytes. induction a as [| c a IH]; [reflexivity |].
  rewrite append_cons. cbn [list_ascii_of_string map app].
  rewrite IH. reflexivity.
Qed.

Lemma _write_run (text : string) (w : Writer) :
  _write text w =
    if writer_closed w then (Raise IOException, w)
    else (Return tt,
          mkWriter [] (sent w ++ pending w ++ str_bytes text) false).
Proof.
  unfold _write, bind, writer_write, writer_flush.
  destruct w as [p sn []]; reflexivity.
Qed.

(** [_write] sends the text at once: on an open stream it returns with
    nothing left unflushed, and the bytes that have left are those that
    had, then those that were waiting, then the bytes of the text, one per
    character; on a closed stream it raises [IOException] and sends
    nothing.  So two [_write]s in a row have the effect of one [_write] of
    the two texts put together. *)
Theorem _write_twice (a b : string) (w : Writer) :
  (_write a ;;; _write b) w = _write (a ++ b)%string w
  /\ (writer_closed w = false ->
      _write a w
        = (Return tt, mkWriter [] (sent w ++ pending w ++ str_bytes a) false)
      /\ (_write a ;;; _write b) w
         = (Return tt,
            mkWriter [] (sent w ++ pending w ++ str_bytes a ++ str_bytes b)
              false))
  /\ (writer_closed w = true ->
      _write a w = (Raise IOException, w)
      /\ (_write a ;;; _write b) w = (Raise IOException, w)).
Proof.
  unfold bind. rewrite (_write_run a w), (_write_run (a ++ b)%string w).
  destruct (writer_closed w) eqn:Eclosed.
  - split; [reflexivity |]. split; [discriminate |]. intros _.
    split; reflexivity.
  - rewrite _write_run. cbn [writer_closed sent pending].
    rewrite str_bytes_app, app_nil_l, <- !app_assoc.
    split; [reflexivity |]. split; [| discriminate]. intros _.
    split; reflexivity.
Qed.

Lemma _write_twice_witness :
  (_write "l" ;;; _write "s") (mkWriter [7] [] false)
    = (Return tt, mkWriter [] [7; 108; 115] false)
  /\ (_write "l" ;;; _write "s") (mkWriter [7] [] true)
     = (Raise IOException, mkWriter [7] [] true).
Proof.
  split.
  - apply (_write_twice "l" "s" (mkWriter [7] [] false)). reflexivity.
  - apply (_write_twice "l" "s" (mkWriter [7] [] true)). reflexivity.
Defined.

Lemma latin1_char_signed (c : ascii) :
  latin1_char (let n := Z.of_N (N_of_ascii c) in
               if n <? 128 then n else n - 256) = c.
Proof.
  unfold latin1_char. cbv zeta.
  pose proof (N_ascii_bounded c) as Hc.
  assert (Hland : Z.land (if Z.of_N (N_of_ascii c) <? 128
                          then Z.of_N (N_of_ascii c)
                          else Z.of_N (N_of_ascii c) - 256) 255
                  = Z.of_N (N_of_ascii c)).
  { change 255 with (Z.ones 8). rewrite Z.land_ones by lia.
    destruct (Z.of_N (N_of_ascii c) <? 128) eqn:E; bool_to_prop.
    - apply Z.mod_small. lia.
    - symmetry. apply (Z.mod_unique _ _ (-1)); lia. }
  rewrite Hland, N2Z.id. apply ascii_N_embedding.
Qed.

Lemma latin1_cons (b : jbyte) (bytes : list jbyte) :
  latin1 (b :: bytes) = String (latin1_char b) (latin1 bytes).
Proof. reflexivity. Qed.

Lemma latin1_str_bytes (text : string) : latin1 (str_bytes text) = text.
Proof.
  unfold str_bytes. induction text as [| c text IH]; [reflexivity |].
  cbn [list_ascii_of_string map].
  rewrite latin1_cons, IH, latin1_char_signed. reflexivity.
Qed.

(** What [_write] sends, [_read] reads back: when the bytes that a [_write]
    has sent are the bytes buffered on the shell's output, [_read] returns
    the text that was written, character for character. *)
Theorem _write_then_read_echo (text : string) (cfg : Configuration)
    (t : list event) :
  fst (_read (mkRun (mkJavaSSHClient cfg
                       (sent (snd (_write text (mkWriter [] [] false)))))
                t))
    = Return text.
Proof.
  rewrite _read_run, _write_run.
  cbn [writer_closed sent pending _stdout fst snd app].
  rewrite latin1_str_bytes. reflexivity.
Qed.

(** ** Line ends in the outputs of a command *)

Lemma scan_line_line_plain (text : string) :
  plain (fst (scan_line text)) = true.
Proof.
  induction text as [| c text IH]; [reflexivity |].
  cbn [scan_line].
  destruct (Ascii.eqb c LF) eqn:Elf; [reflexivity |].
  destruct (Ascii.eqb c CR) eqn:Ecr; [reflexivity |].
  destruct (scan_line text) as [line rest]. cbn [fst plain] in *.
  rewrite Elf, Ecr, IH. reflexivity.
Qed.

Lemma lines_upto_plain (n : nat) (text : string) :
  Forall (fun l => plain l = true) (lines_upto n text).
Proof.
  revert text. induction n as [| n IH]; intros text; [constructor |].
  cbn [lines_upto]. unfold readLine.
  destruct text as [| c text]; [constructor |].
  pose proof (scan_line_line_plain (String c text)) as Hline.
  destruct (scan_line (String c text)) as [line rest].
  constructor; [exact Hline | apply IH].
Qed.

Lemma chars_append (a b : string) :
  list_ascii_of_string (a ++ b)
    = list_ascii_of_string a ++ list_ascii_of_string b.
Proof.
  induction a as [| c a IH]; [reflexivity |].
  rewrite append_cons. cbn [list_ascii_of_string app]. rewrite IH.
  reflexivity.
Qed.

Lemma plain_no_CR (l : string) :
  plain l = true -> ~ In CR (list_ascii_of_string l).
Proof.
  induction l as [| c l IH]; intros Hplain; [intros [] |].
  cbn [plain] in Hplain.
  apply andb_true_iff in Hplain as [Hc Hl].
  apply andb_true_iff in Hc as [_ Hcr]. apply negb_true_iff in Hcr.
  intros [-> | Hin]; [| exact (IH Hl Hin)].
  rewrite Ascii.eqb_refl in Hcr. discriminate.
Qed.

Lemma terminated_no_CR (ls : list string) :
  Forall (fun l => plain l = true) ls ->
  ~ In CR (list_ascii_of_string (terminated ls)).
Proof.
  induction 1 as [| l ls Hl _ IH]; [intros [] |].
  unfold terminated, join. cbn [map fold_right].
  fold (join (map (fun l => (l ++ newline)%string) ls)).
  fold (terminated ls).
  rewrite !chars_append. intros Hin.
  apply in_app_or in Hin as [Hin | Hin]; [| exact (IH Hin)].
  apply in_app_or in Hin as [Hin | Hin].
  - exact (plain_no_CR l Hl Hin).
  - destruct Hin as [Heq | []]. discriminate.
Qed.

Lemma has_lines_plain (text : string) (ls : list string) :
  has_lines text ls -> Forall (fun l => plain l = true) ls.
Proof.
  induction 1; repeat constructor; assumption.
Qed.

Lemma has_lines_terminated (ls : list string) :
  Forall (fun l => plain l = true) ls -> has_lines (terminated ls) ls.
Proof.
  induction 1 as [| l ls Hl _ IH]; [constructor |].
  assert (Etext : terminated (l :: ls)
                  = (l ++ String LF (terminated ls))%string).
  { unfold terminated, join. cbn [map fold_right].
    unfold newline. rewrite append_assoc. reflexivity. }
  rewrite Etext. constructor; assumption.
Qed.

Section ReadOutputsText.
Variable decode : string -> option (list jbyte -> string).

(** When each stream carries lines that end in a line feed and hold no
    other line end, the charset is known and the standard error leaves room
    in the window, [read_outputs] returns the text of each stream exactly
    as it was emitted. *)
Theorem read_outputs_returns_emitted_text (self : RemoteCommand)
    (fuel : nat) (s : run Session) (decoder : list jbyte -> string)
    (out_lines err_lines : list string) :
  let out := decoder (session_stdout (world s)) in
  let err := decoder (session_stderr (world s)) in
  decode (_encoding self) = Some decoder ->
  len (session_stderr (world s)) < session_window (world s) ->
  out = terminated out_lines ->
  err = terminated err_lines ->
  Forall (fun l => plain l = true) out_lines ->
  Forall (fun l => plain l = true) err_lines ->
  (String.length out < fuel)%nat ->
  (String.length err < fuel)%nat ->
  fst (read_outputs decode self fuel s)
    = Return (out, err, default 0 (session_exit_status (world s))).
Proof.
  destruct s as [session t].
  intros out err Hdecode Hwindow Eout Eerr Hout Herr Hfuel_out Hfuel_err.
  cbn [world] in *.
  rewrite (read_outputs_run decode self fuel session t decoder Hdecode
             Hwindow Hfuel_out Hfuel_err).
  cbn [fst].
  fold out err. rewrite Eout, Eerr, !lines_terminated by assumption.
  reflexivity.
Qed.

(** Whatever the streams carry, when the charset is known and the standard
    error leaves room in the window, the strings [read_outputs] returns
    hold no carriage return: each is the lines of its stream, every one
    followed by a line feed whatever line end it had and whether or not
    the last one had any, and so is made of the same lines as the stream. *)
Theorem read_outputs_normalises_line_ends (self : RemoteCommand)
    (fuel : nat) (s : run Session) (decoder : list jbyte -> string) :
  let out := decoder (session_stdout (world s)) in
  let err := decoder (session_stderr (world s)) in
  decode (_encoding self) = Some decoder ->
  len (session_stderr (world s)) < session_window (world s) ->
  (String.length out < fuel)%nat ->
  (String.length err < fuel)%nat ->
  exists stdout stderr rc,
    fst (read_outputs decode self fuel s) = Return (stdout, stderr, rc)
    /\ ~ In CR (list_ascii_of_string stdout)
    /\ ~ In CR (list_ascii_of_string stderr)
    /\ (forall ls, has_lines out ls ->
                   stdout = terminated ls /\ has_lines stdout ls)
    /\ (forall ls, has_lines err ls ->
                   stderr = terminated ls /\ has_lines stderr ls).
Proof.
  destruct s as [session t]. intros out err Hdecode Hwindow Hout Herr.
  cbn [world] in *.
  rewrite (read_outputs_run decode self fuel session t decoder Hdecode
             Hwindow Hout Herr).
  cbn [fst]. fold out err.
  eexists _, _, _. split; [reflexivity |].
  split; [apply terminated_no_CR; apply lines_upto_plain |].
  split; [apply terminated_no_CR; apply lines_upto_plain |].
  split; intros ls Hls; rewrite (lines_has_lines _ _ Hls);
    (split; [reflexivity |]);
    apply has_lines_terminated; exact (has_lines_plain _ _ Hls).
Qed.

End ReadOutputsText.

Lemma read_outputs_returns_emitted_text_witness :
  fst (read_outputs latin1_only (mkRemoteCommand "echo hi" "ISO-8859-1") 4
         (start echo_hi))
    = Return (latin1 [104; 105; 10], latin1 [], 0).
Proof.
  apply (read_outputs_returns_emitted_text latin1_only
           (mkRemoteCommand "echo hi" "ISO-8859-1") 4 (start echo_hi) latin1
           [String "h" (String "i" EmptyString)] []).
  - reflexivity.
  - vm_compute. reflexivity.
  - reflexivity.
  - reflexivity.
  - repeat constructor.
  - constructor.
  - vm_compute. lia.
  - vm_compute. lia.
Defined.

Lemma read_outputs_normalises_line_ends_witness :
  exists stdout stderr rc,
    fst (read_outputs latin1_only (mkRemoteCommand "printf" "ISO-8859-1") 9
           (start crlf_session)) = Return (stdout, stderr, rc)
    /\ ~ In CR (list_ascii_of_string stdout)
    /\ stdout
       = terminated [String "o" (String "n" (String "e" EmptyString));
                     String "t" (String "w" (String "o" EmptyString))].
Proof.
  destruct (read_outputs_normalises_line_ends latin1_only
              (mkRemoteCommand "printf" "ISO-8859-1") 9 (start crlf_session)
              latin1)
    as (stdout & stderr & rc & Erun & Hout & _ & Hlines & _).
  - reflexivity.
  - vm_compute. reflexivity.
  - vm_compute. lia.
  - vm_compute. lia.
  - exists stdout, stderr, rc. split; [exact Erun |]. split; [exact Hout |].
    apply Hlines.
    apply (has_lines_CRLF (String "o" (String "n" (String "e" EmptyString)))
             (String "t" (String "w" (String "o" EmptyString)))
             [String "t" (String "w" (String "o" EmptyString))]);
      [reflexivity |].
    apply has_lines_last; [reflexivity | discriminate].
Defined.

(** ** The paths that [_create_missing_remote_path] visits *)

Lemma split_slash_nonempty (s : string) : split_slash s <> [].
Proof.
  destruct s as [| c s]; cbn [split_slash]; [discriminate |].
  destruct (Ascii.eqb c "/"); [discriminate |].
  destruct (split_slash s); discriminate.
Qed.

Lemma split_slash_pieces (s : string) :
  Forall (fun p => slash_free p = true) (split_slash s).
Proof.
  induction s as [| c s IH]; cbn [split_slash].
  - repeat constructor.
  - destruct (Ascii.eqb c "/") eqn:Ec.
    + constructor; [reflexivity | exact IH].
    + destruct (split_slash s) as [| piece pieces].
      * repeat constructor. cbn [slash_free]. rewrite Ec. reflexivity.
      * apply Forall_cons in IH as [Hpiece Hpieces].
        constructor; [| exact Hpieces].
        cbn [slash_free]. rewrite Ec, Hpiece. reflexivity.
Qed.

Lemma split_slash_piece (p : string) :
  slash_free p = true -> split_slash p = [p].
Proof.
  induction p as [| c p IH]; intros Hp; [reflexivity |].
  cbn [slash_free] in Hp. apply andb_true_iff in Hp as [Hc Hp].
  apply negb_true_iff in Hc.
  cbn [split_slash]. rewrite Hc, (IH Hp). reflexivity.
Qed.

Lemma split_slash_format (a b : string) :
  split_slash (format_slash a b) = split_slash a ++ split_slash b.
Proof.
  unfold format_slash. induction a as [| c a IH].
  - reflexivity.
  - rewrite append_cons. cbn [split_slash].
    destruct (Ascii.eqb c "/").
    + rewrite IH. reflexivity.
    + rewrite IH.
      pose proof (split_slash_nonempty a) as Hne.
      destruct (split_slash a) as [| piece pieces]; [congruence |].
      reflexivity.
Qed.

(** Appending a piece to a directory appends it to its components. *)
Lemma components_format (curdir dirname : string) :
  slash_free dirname = true -> truthy_str dirname = true ->
  components (format_slash curdir dirname) = components curdir ++ [dirname].
Proof.
  intros Hfree Htruthy. unfold components.
  rewrite split_slash_format, List.filter_app, (split_slash_piece _ Hfree).
  cbn [List.filter]. rewrite Htruthy. reflexivity.
Qed.

(** The components of every segment are those of the starting directory
    followed by the non-empty pieces met so far. *)
Lemma segments_components (dirnames : list string) (curdir : string) :
  Forall (fun p => slash_free p = true) dirnames ->
  Forall (fun seg => exists k,
            components seg
            = components curdir ++ List.filter truthy_str (take k dirnames))
         (segments curdir dirnames).
Proof.
  revert curdir. induction dirnames as [| dirname dirnames IH];
    intros curdir Hfree; [constructor |].
  apply Forall_cons in Hfree as [Hdirname Hfree].
  cbn [segments].
  set (curdir' := if truthy_str dirname then format_slash curdir dirname
                  else curdir).
  assert (Hcur : components curdir'
                 = components curdir ++ List.filter truthy_str [dirname]).
  { subst curdir'. cbn [List.filter].
    destruct (truthy_str dirname) eqn:Htruthy.
    - apply components_format; assumption.
    - rewrite app_nil_r. reflexivity. }
  constructor.
  - exists 1%nat. exact Hcur.
  - specialize (IH curdir' Hfree).
    eapply Forall_impl; [exact IH |].
    intros seg [k Hseg]. exists (S k).
    rewrite Hseg, Hcur, <- app_assoc, <- List.filter_app. reflexivity.
Qed.

Lemma filter_take_prefix {A : Type} (f : A -> bool) (k : nat) (l : list A) :
  List.filter f (take k l) `prefix_of` List.filter f l.
Proof.
  exists (List.filter f (drop k l)).
  rewrite <- List.filter_app, take_drop. reflexivity.
Qed.

(** From the root, every segment names the requested path or a directory
    above it. *)
Lemma segments_above_path (path : string) :
  Forall (fun seg => components seg `prefix_of` components path)
         (segments "/" (split_slash path)).
Proof.
  eapply Forall_impl;
    [apply (segments_components _ "/" (split_slash_pieces path)) |].
  intros seg [k ->]. apply filter_take_prefix.
Qed.

Section VisitedPaths.
Context {W : Type} `{SFTPv3Client W}.

Lemma _create_missing_remote_path_for_touches (dirnames : list string)
    (curdir : string) (s : run W) :
  exists evs,
    trace (snd (_create_missing_remote_path_for curdir dirnames s))
      = trace s ++ evs
    /\ Forall (fun p => In p (segments curdir dirnames)) (touched_paths evs).
Proof.
  revert curdir s. induction dirnames as [| dirname dirnames IH]; intros curdir s.
  - exists []. rewrite app_nil_r. split; [reflexivity | constructor].
  - cbn [_create_missing_remote_path_for segments].
    set (curdir' := if truthy_str dirname then format_slash curdir dirname
                    else curdir).
    assert (Hlater : forall evs,
               Forall (fun p => In p (segments curdir' dirnames))
                      (touched_paths evs) ->
               Forall (fun p => In p (curdir' :: segments curdir' dirnames))
                      (touched_paths evs)).
    { intros evs Hevs. eapply Forall_impl; [exact Hevs |].
      intros p Hp. right. exact Hp. }
    rewrite bind_run. unfold try_except, stat, mkdir.
    rewrite bind_call_run.
    destruct (sftp_stat curdir' (world s)) as [[a | e | |] w1]; cbv zeta;
      try solve [eexists [_]; split; [reflexivity |];
                 repeat constructor].
    + unfold ret.
      destruct (IH curdir' (mkRun w1 (trace s ++ [ev_stat curdir' (Return a)])))
        as (evs & Etrace & Hevs).
      exists (ev_stat curdir' (Return a) :: evs). split.
      * rewrite Etrace. cbn [trace]. rewrite <- app_assoc. reflexivity.
      * cbn [touched_paths]. constructor; [left; reflexivity |].
        apply Hlater, Hevs.
    + destruct (isinstance_IOException e) eqn:Ecatch;
        cbv beta iota; rewrite ?Ecatch.
      * unfold call. cbn [world trace].
        destruct (sftp_mkdir curdir' mode_0744 w1) as [[[] | e' | |] w2];
          try solve [eexists [_; _]; split;
                     [cbn [snd trace]; rewrite <- app_assoc; reflexivity
                     | repeat constructor]].
        match goal with
        | |- context [_create_missing_remote_path_for curdir' dirnames ?s2] =>
            destruct (IH curdir' s2) as (evs & Etrace & Hevs)
        end.
        eexists (_ :: _ :: evs). split.
        -- rewrite Etrace. cbn [trace]. rewrite <- !app_assoc. reflexivity.
        -- cbn [touched_paths].
           constructor; [left; reflexivity |].
           constructor; [left; reflexivity |].
           apply Hlater, Hevs.
      * eexists [_]. split; [reflexivity |]. repeat constructor.
Qed.

(** For a path that starts at the root, every [stat] and every [mkdir] that
    [_create_missing_remote_path] makes, on any server and whatever the
    outcome, is on the requested directory or on one above it: nothing
    beside the path is looked at or created. *)
Theorem _create_missing_remote_path_stays_on_path (path : string)
    (s : run W) :
  startswith path "/" = true ->
  exists evs,
    trace (snd (_create_missing_remote_path path s)) = trace s ++ evs
    /\ Forall (fun p => components p `prefix_of` components path)
              (touched_paths evs).
Proof.
  intros Habs. unfold _create_missing_remote_path.
  rewrite bind_run, Habs. unfold ret.
  destruct (_create_missing_remote_path_for_touches (split_slash path) "/" s)
    as (evs & Etrace & Hevs).
  exists evs. split; [exact Etrace |].
  pose proof (segments_above_path path) as Habove.
  rewrite Forall_forall in Habove.
  eapply Forall_impl; [exact Hevs |].
  intros p Hp. apply Habove. apply list_elem_of_In. exact Hp.
Qed.

End VisitedPaths.

Lemma _create_missing_remote_path_stays_on_path_witness :
  exists evs,
    trace (snd (_create_missing_remote_path "/srv//logs/"
                  (start empty_machine))) = evs
    /\ Forall (fun p => components p `prefix_of` ["srv"; "logs"])
              (touched_paths evs).
Proof.
  destruct (_create_missing_remote_path_stays_on_path "/srv//logs/"
              (start empty_machine) eq_refl) as (evs & Etrace & Hevs).
  exists evs. split; [exact Etrace | exact Hevs].
Defined.

(** ** What a successful [_create_missing_remote_path] leaves behind *)

Section CreatesAll.
Context {W : Type} `{SFTPv3Client W}.

Hypothesis stat_reads_only : forall p w, snd (sftp_stat p w) = w.
Hypothesis absolute_path_reads_only :
  forall p w, snd (sftp_private_absolute_path p w) = w.
Hypothesis mkdir_creates :
  forall p mode w w',
    sftp_mkdir p mode w = (Return tt, w') ->
    exists a, fst (sftp_stat p w') = Return a.
Hypothesis mkdir_keeps :
  forall p mode w w' q a,
    sftp_mkdir p mode w = (Return tt, w') ->
    fst (sftp_stat q w) = Return a ->
    exists a', fst (sftp_stat q w') = Return a'.
Hypothesis mkdir_keeps_absolute_path :
  forall p mode w w' q,
    sftp_mkdir p mode w = (Return tt, w') ->
    fst (sftp_private_absolute_path q w')
      = fst (sftp_private_absolute_path q w).

(** On a server where [stat] only reads and a successful [mkdir] makes its
    path exist without removing anything: once
    [_create_missing_remote_path] has returned, [stat] succeeds on every
    accumulated segment of the path, and on every path on which it
    succeeded before the call. *)
Theorem _create_missing_remote_path_creates_all (path : string)
    (s s1 : run W) :
  _create_missing_remote_path path s = (Return tt, s1) ->
  exists curdir,
    (startswith path "/" = true -> curdir = "/")
    /\ Forall (exists_on (world s1)) (segments curdir (split_slash path))
    /\ (forall q, exists_on (world s) q -> exists_on (world s1) q).
Proof.
  unfold _create_missing_remote_path. rewrite bind_run.
  destruct (startswith path "/") eqn:Eabs.
  - unfold ret. intros Hrun.
    apply (_create_missing_remote_path_for_creates
             stat_reads_only mkdir_creates mkdir_keeps
             mkdir_keeps_absolute_path) in Hrun as (Hsegs & Hkeep & _).
    exists "/". repeat split; assumption.
  - unfold client_absolute_path, call.
    pose proof (absolute_path_reads_only "." (world s)) as Hpure.
    destruct (sftp_private_absolute_path "." (world s))
      as [[curdir | e | |] w0]; try discriminate.
    simpl in Hpure. subst w0. intros Hrun.
    apply (_create_missing_remote_path_for_creates
             stat_reads_only mkdir_creates mkdir_keeps
             mkdir_keeps_absolute_path) in Hrun as (Hsegs & Hkeep & _).
    exists curdir. split; [discriminate |]. split; assumption.
Qed.

End CreatesAll.

Lemma _create_missing_remote_path_creates_all_witness :
  exists curdir,
    Forall (exists_on
              (world (snd (_create_missing_remote_path "/a/b"
                             (start empty_machine)))))
           (segments curdir (split_slash "/a/b")).
Proof.
  destruct (@_create_missing_remote_path_creates_all
              machine machine_SFTPv3Client
              machine_stat_reads_only machine_absolute_path_reads_only
              machine_mkdir_creates machine_mkdir_keeps
              machine_mkdir_keeps_absolute_path
              "/a/b" (start empty_machine)
              (snd (_create_missing_remote_path "/a/b"
                      (start empty_machine))))
    as (curdir & _ & Hsegs & _).
  - vm_compute. reflexivity.
  - exists curdir. exact Hsegs.
Defined.

(** ** [_create_missing_remote_path] on the in-memory server *)

(** The Trilead client has no attribute [_absolute_path]: for every path
    that does not start with a slash the call raises [AttributeError]
    at once, without a [stat] or [mkdir], and the server stays as it
    was. *)
Theorem _create_missing_remote_path_relative_raises (path : string)
    (m : machine) (t : list event) :
  startswith path "/" = false ->
  _create_missing_remote_path path (mkRun m t) =
    (Raise AttributeError,
     mkRun m (t ++ [ev_client_absolute_path "." (Raise AttributeError)])).
Proof.
  intros Hrel. unfold _create_missing_remote_path.
  rewrite bind_run, Hrel. reflexivity.
Qed.

Lemma _create_missing_remote_path_relative_raises_witness :
  fst (_create_missing_remote_path "logs/today" (start empty_machine))
    = Raise AttributeError.
Proof.
  unfold start.
  rewrite (_create_missing_remote_path_relative_raises
             "logs/today" empty_machine [] eq_refl).
  reflexivity.
Defined.

Lemma node_at_insert_eq (fs : gmap (list string) node) (p : list string)
    (n : node) :
  p <> [] -> node_at (<[p := n]> fs) p = Some n.
Proof.
  destruct p as [| c p]; [congruence |]. intros _.
  cbn [node_at]. apply lookup_insert_eq.
Qed.

Lemma node_at_insert_ne (fs : gmap (list string) node) (p q : list string)
    (n : node) :
  p <> q -> node_at (<[p := n]> fs) q = node_at fs q.
Proof.
  intros Hne. destruct q as [| c q]; [reflexivity |].
  cbn [node_at]. apply lookup_insert_ne. exact Hne.
Qed.

Lemma removelast_snoc {A : Type} (l : list A) (x : A) :
  removelast (l ++ [x]) = l.
Proof. rewrite removelast_app by discriminate. apply app_nil_r. Qed.

(** From a directory, over pieces below which no regular file is in the
    way, the loop returns, every directory along the way exists afterwards,
    and what was on the server before is still there. *)
Lemma _create_missing_remote_path_for_makes (dirnames : list string)
    (curdir : string) (m : machine) (t : list event) :
  Forall (fun p => slash_free p = true) dirnames ->
  is_dir m (components curdir) ->
  (forall k perm content,
      node_at (remote m)
        (components curdir ++ List.filter truthy_str (take k dirnames))
      <> Some (File perm content)) ->
  exists m' t',
    _create_missing_remote_path_for curdir dirnames (mkRun m t)
      = (Return tt, mkRun m' t')
    /\ is_dir m' (components curdir ++ List.filter truthy_str dirnames)
    /\ (forall q n, node_at (remote m) q = Some n ->
                    node_at (remote m') q = Some n).
Proof.
  revert curdir m t. induction dirnames as [| dirname dirnames IH];
    intros curdir m t Hfree Hdir Hfiles.
  - exists m, t. cbn [List.filter]. rewrite app_nil_r.
    repeat split; [exact Hdir | tauto].
  - apply Forall_cons in Hfree as [Hdirname Hfree].
    cbn [_create_missing_remote_path_for].
    set (curdir' := if truthy_str dirname then format_slash curdir dirname
                    else curdir).
    assert (Hcur : components curdir'
                   = components curdir ++ List.filter truthy_str [dirname]).
    { subst curdir'. cbn [List.filter].
      destruct (truthy_str dirname) eqn:Htruthy.
      - apply components_format; assumption.
      - rewrite app_nil_r. reflexivity. }
    assert (Hlater : forall k,
               components curdir' ++ List.filter truthy_str (take k dirnames)
               = components curdir
                 ++ List.filter truthy_str (take (S k) (dirname :: dirnames))).
    { intros k. rewrite Hcur, <- app_assoc, <- List.filter_app. reflexivity. }
    assert (Hall : components curdir' ++ List.filter truthy_str dirnames
                   = components curdir
                     ++ List.filter truthy_str (dirname :: dirnames)).
    { rewrite Hcur, <- app_assoc, <- List.filter_app. reflexivity. }
    rewrite bind_run. unfold try_except, stat, mkdir.
    rewrite bind_call_run.
    change (@sftp_stat machine machine_SFTPv3Client) with machine_stat.
    change (@sftp_mkdir machine machine_SFTPv3Client) with machine_mkdir.
    unfold machine_stat. cbn [world trace].
    destruct (node_at (remote m) (components curdir')) as [[perm | perm c] |]
      eqn:Enode.
    + (* the segment is a directory already *)
      cbv zeta. unfold ret.
      destruct (IH curdir' m
                  (t ++ [ev_stat curdir' (Return (attrs_of (Dir perm)))])
                  Hfree) as (m' & t' & Erun & Hdir' & Hkeep).
      * exists perm. exact Enode.
      * intros k. rewrite Hlater. apply Hfiles.
      * exists m', t'. rewrite Erun, <- Hall. repeat split; assumption.
    + (* a regular file is in the way *)
      exfalso. apply (Hfiles 1%nat perm c).
      change (take 1 (dirname :: dirnames)) with [dirname].
      rewrite <- Hcur. exact Enode.
    + (* the segment is missing: it is created *)
      cbv zeta. cbn [isinstance_IOException].
      assert (Htruthy : truthy_str dirname = true).
      { destruct (truthy_str dirname) eqn:E; [reflexivity |].
        subst curdir'. destruct Hdir as [perm Hperm]. congruence. }
      assert (Hcomp : components curdir' = components curdir ++ [dirname]).
      { rewrite Hcur. cbn [List.filter]. rewrite Htruthy. reflexivity. }
      unfold call, machine_mkdir. cbn [world trace].
      rewrite Enode, Hcomp. unfold parent. rewrite removelast_snoc.
      destruct Hdir as [perm Hperm]. rewrite Hperm. rewrite <- Hcomp.
      set (m2 := with_remote m (<[components curdir' := Dir mode_0744]>
                                  (remote m))).
      assert (Hne : components curdir' <> [])
        by (rewrite Hcomp; destruct (components curdir); discriminate).
      match goal with
      | |- context [_create_missing_remote_path_for curdir' dirnames
                      (mkRun m2 ?t2)] =>
          destruct (IH curdir' m2 t2 Hfree) as (m' & t' & Erun & Hdir' & Hkeep)
      end.
      * exists mode_0744. subst m2. cbn [remote with_remote].
        apply node_at_insert_eq. exact Hne.
      * intros k perm' c. subst m2. cbn [remote with_remote].
        destruct (decide (components curdir'
                          = components curdir'
                            ++ List.filter truthy_str (take k dirnames)))
          as [<- | Hother].
        -- rewrite node_at_insert_eq by exact Hne. discriminate.
        -- rewrite node_at_insert_ne by exact Hother.
           rewrite Hlater. apply Hfiles.
      * exists m', t'. rewrite Erun, <- Hall. repeat split; try assumption.
        intros q n Hq. apply Hkeep. subst m2. cbn [remote with_remote].
        rewrite node_at_insert_ne; [exact Hq |].
        intros <-. congruence.
Qed.

(** On the in-memory server, for every path from the root with no regular
    file at it or above it, [_create_missing_remote_path] returns, the
    requested path is a directory afterwards, and every entry that was on
    the server is still there unchanged. *)
Theorem _create_missing_remote_path_makes_directory (path : string)
    (m : machine) (t : list event) :
  startswith path "/" = true ->
  no_file_above m (components path) ->
  exists m' t',
    _create_missing_remote_path path (mkRun m t) = (Return tt, mkRun m' t')
    /\ is_dir m' (components path)
    /\ (forall q n, node_at (remote m) q = Some n ->
                    node_at (remote m') q = Some n).
Proof.
  intros Habs Hfiles. unfold _create_missing_remote_path.
  rewrite bind_run, Habs. unfold ret.
  apply (_create_missing_remote_path_for_makes (split_slash path) "/" m t).
  - apply split_slash_pieces.
  - exists 493. reflexivity.
  - intros k perm c. cbn [components split_slash List.filter app].
    destruct (filter_take_prefix truthy_str k (split_slash path))
      as [rest Hrest].
    fold (components path) in Hrest.
    replace (List.filter truthy_str (take k (split_slash path)))
      with (take (length (List.filter truthy_str (take k (split_slash path))))
              (components path))
      by (rewrite Hrest; apply take_app_length).
    apply Hfiles.
Qed.

Lemma _create_missing_remote_path_makes_directory_witness :
  exists m' t',
    _create_missing_remote_path "/var/log/robot" (start machine_without_setstat)
      = (Return tt, mkRun m' t')
    /\ is_dir m' ["var"; "log"; "robot"].
Proof.
  destruct (_create_missing_remote_path_makes_directory "/var/log/robot"
              machine_without_setstat [] eq_refl)
    as (m' & t' & Erun & Hdir & _).
  - intros k perm c.
    change (components "/var/log/robot") with ["var"; "log"; "robot"].
    destruct k as [| [| [| k]]]; try (vm_compute; discriminate).
    rewrite take_ge by (simpl; lia). vm_compute. discriminate.
  - exists m', t'. split; [exact Erun | exact Hdir].
Defined.

(** ** More on downloads from the in-memory server *)

(** Up to the loop: the local file is created, the remote file found and
    opened. *)
Lemma _get_file_machine_setup (m : machine) (t : list event)
    (remotepath localpath : string) (perm : Z) (content : list jbyte)
    (fuel : nat) :
  node_at (remote m) (components remotepath) = Some (File perm content) ->
  truthy_str localpath = true ->
  _get_file fuel remotepath localpath (mkRun m t) =
    (_get_file_while fuel (next_handle m) (next_stream m) (len content) 0
       (zeros arraysize) ;;;
     closeFile (next_handle m) ;;;
     flush (next_stream m) ;;;
     close (next_stream m))
      (mkRun (entering_loop m remotepath localpath)
         (t ++ [ev_FileOutputStream localpath (Return (next_stream m));
                ev_stat remotepath (Return (mkAttrs (len content) perm));
                ev_openFileRO remotepath (Return (next_handle m))])).
Proof.
  intros Hfile Hlocalpath.
  unfold _get_file, FileOutputStream, stat, openFileRO.
  rewrite bind_call_run.
  change (@fos_new machine machine_LocalFiles) with machine_fos_new.
  unfold machine_fos_new. cbn [world trace]. rewrite Hlocalpath.
  cbn [negb]. cbv zeta.
  rewrite bind_call_run.
  change (@sftp_stat machine machine_SFTPv3Client) with machine_stat.
  unfold machine_stat. cbn [world trace remote with_streams with_local].
  rewrite Hfile. cbv zeta.
  rewrite bind_call_run.
  change (@sftp_openFileRO machine machine_SFTPv3Client)
    with machine_openFileRO.
  unfold machine_openFileRO, open_handle.
  cbn [world trace remote with_streams with_local]. rewrite Hfile.
  cbv zeta. cbn [attrs_of attrs_size].
  rewrite <- !app_assoc. reflexivity.
Qed.

Lemma entering_loop_copying (m : machine) (remotepath localpath : string)
    (perm : Z) (content : list jbyte) :
  node_at (remote m) (components remotepath) = Some (File perm content) ->
  handles (entering_loop m remotepath localpath) !! next_handle m
    = Some (components remotepath)
  /\ node_at (remote (entering_loop m remotepath localpath))
       (components remotepath) = Some (File perm content)
  /\ streams (entering_loop m remotepath localpath) !! next_stream m
     = Some localpath
  /\ local (entering_loop m remotepath localpath) !! localpath = Some [].
Proof.
  intros Hfile. unfold entering_loop. cbn.
  rewrite !lookup_insert_eq. repeat split. exact Hfile.
Qed.

(** After the loop: the handle is closed, the stream flushed and closed. *)
Lemma _get_file_machine_finish (m : machine) (t : list event) (h : handle)
    (f : ostream) (p : list string) :
  handles m !! h = Some p ->
  (closeFile h ;;; flush f ;;; close f) (mkRun m t) =
    (Return tt,
     mkRun (with_streams (with_handles m (delete h (handles m))
                            (next_handle m))
              (delete f (streams m)) (next_stream m))
       (t ++ [ev_closeFile h (Return tt); ev_flush f (Return tt);
              ev_close f (Return tt)])).
Proof.
  intros Hh. unfold closeFile, flush, close.
  rewrite bind_call_run.
  change (@sftp_closeFile machine machine_SFTPv3Client)
    with machine_closeFile.
  unfold machine_closeFile. cbn [world trace]. rewrite Hh. cbv zeta.
  rewrite bind_call_run.
  change (@fos_flush machine machine_LocalFiles) with machine_fos_flush.
  unfold machine_fos_flush. cbv zeta. unfold call.
  change (@fos_close machine machine_LocalFiles) with machine_fos_close.
  unfold machine_fos_close. cbn. rewrite <- !app_assoc. reflexivity.
Qed.

(** If the file holds more bytes than [remotefilesize] says (it grew after
    the [stat]), the loop never ends: once the count reaches
    [remotefilesize] every iteration reads data again and writes nothing,
    so no number of iterations is enough. *)
Theorem _get_file_while_never_ends_on_longer_file (content : list jbyte)
    (perm : Z) (p : list string) (h : handle) (f : ostream)
    (localpath : string) (fuel : nat) (remotefilesize size : Z)
    (data : list jbyte) (m : machine) (t : list event) :
  handles m !! h = Some p ->
  node_at (remote m) p = Some (File perm content) ->
  streams m !! f = Some localpath ->
  len data = arraysize ->
  0 <= size <= remotefilesize ->
  remotefilesize < len content ->
  fst (_get_file_while fuel h f remotefilesize size data (mkRun m t))
    = OutOfFuel.
Proof.
  revert size data m t. induction fuel as [| fuel IH];
    intros size data m t Hh Hp Hf Hdata Hsize Hlonger; [reflexivity |].
  rewrite _get_file_while_step by assumption.
  change (@sftp_read machine machine_SFTPv3Client) with machine_read.
  change (@fos_write machine machine_LocalFiles) with machine_fos_write.
  cbn [world trace].
  rewrite (machine_read_data m h p perm content) by (assumption || lia).
  set (payload := take (Z.to_nat (Z.min arraysize (read_limit m)))
                    (drop (Z.to_nat size) content)).
  assert (Hpayload : len payload <= arraysize).
  { unfold payload, len, arraysize. rewrite length_take. lia. }
  replace (arraysize <? len payload) with false
    by (symmetry; apply Z.ltb_ge; exact Hpayload).
  cbv zeta.
  rewrite (machine_fos_write_run m f localpath) by exact Hf.
  apply IH; cbn; try assumption.
  - unfold len in *. rewrite arraycopy_length; [exact Hdata |].
    unfold arraysize in *. lia.
  - pose proof (chunk_bounds remotefilesize size Hsize). lia.
Qed.

Lemma _get_file_while_never_ends_on_longer_file_witness :
  fst (_get_file_while 50 0 0 2 0 (zeros arraysize)
         (start (machine_mid_transfer [1; 2; 3; 4; 5]))) = OutOfFuel.
Proof.
  apply (_get_file_while_never_ends_on_longer_file
           [1; 2; 3; 4; 5] 420 ["f"] 0 0 "out" 50 2 0 (zeros arraysize)
           (machine_mid_transfer [1; 2; 3; 4; 5]) []).
  - reflexivity.
  - reflexivity.
  - reflexivity.
  - apply len_buffer.
  - lia.
  - vm_compute. reflexivity.
Defined.

(** The number of bytes a reply carries is not looked at: when the server
    answers the request for a file that fits in one array with fewer bytes
    than the file has, [_get_file] still writes as many bytes as [stat]
    reported, the bytes of the reply followed by zeros from the fresh
    array, and returns normally. *)
Theorem _get_file_short_reply_pads_with_zeros (m : machine) (t : list event)
    (remotepath localpath : string) (perm : Z) (content : list jbyte)
    (fuel : nat) :
  node_at (remote m) (components remotepath) = Some (File perm content) ->
  truthy_str localpath = true ->
  0 <= read_limit m < len content ->
  len content <= arraysize ->
  (2 <= fuel)%nat ->
  fst (_get_file fuel remotepath localpath (mkRun m t)) = Return tt
  /\ local (world (snd (_get_file fuel remotepath localpath (mkRun m t))))
       !! localpath
     = Some (take (Z.to_nat (read_limit m)) content
             ++ replicate (length content - Z.to_nat (read_limit m)) 0).
Proof.
  intros Hfile Hlocalpath Hshort Hsmall Hfuel.
  rewrite (_get_file_machine_setup m t remotepath localpath perm content)
    by assumption.
  destruct (entering_loop_copying m remotepath localpath perm content Hfile)
    as (Hh & Hp & Hf & Hlocal).
  set (m3 := entering_loop m remotepath localpath) in *.
  assert (Hlimit : read_limit m3 = read_limit m) by reflexivity.
  destruct fuel as [| [| fuel]]; try lia.
  rewrite bind_run.
  rewrite _get_file_while_step
    by (apply len_buffer || (unfold len; lia)).
  change (@sftp_read machine machine_SFTPv3Client) with machine_read.
  change (@fos_write machine machine_LocalFiles) with machine_fos_write.
  cbn [world trace].
  rewrite (machine_read_data m3 (next_handle m) (components remotepath)
             perm content 0 arraysize Hh Hp)
    by (unfold len in *; lia).
  rewrite Hlimit.
  replace (Z.to_nat (Z.min arraysize (read_limit m)))
    with (Z.to_nat (read_limit m)) by (unfold arraysize, len in *; lia).
  change (drop (Z.to_nat 0) content) with content.
  set (payload := take (Z.to_nat (read_limit m)) content).
  assert (Hpayload : length payload = Z.to_nat (read_limit m)).
  { unfold payload. rewrite length_take. unfold len in *. lia. }
  replace (arraysize <? len payload) with false
    by (symmetry; apply Z.ltb_ge; unfold len, arraysize in *; lia).
  cbv zeta.
  assert (Hchunk : chunk (len content) 0 = len content).
  { unfold chunk, arraysize in *.
    destruct (len content - 0 <? 4096) eqn:E; bool_to_prop; lia. }
  rewrite Hchunk.
  rewrite (machine_fos_write_run m3 _ localpath) by exact Hf.
  rewrite Hlocal. cbn [default]. unfold id. rewrite app_nil_l.
  assert (Hbytes :
    take (Z.to_nat (len content)) (arraycopy payload (zeros arraysize) 0)
    = payload ++ replicate (length content - Z.to_nat (read_limit m)) 0).
  { unfold arraycopy, zeros, len. change (Z.to_nat 0) with 0%nat.
    rewrite take_0, app_nil_l, Nat.add_0_l, Nat2Z.id, drop_replicate.
    rewrite take_app, take_replicate, Hpayload.
    rewrite take_ge by (unfold len in *; lia).
    f_equal. f_equal. unfold arraysize, len in *. lia. }
  rewrite Hbytes.
  rewrite _get_file_while_step.
  2: { unfold len in *. rewrite arraycopy_length;
         [apply len_buffer |].
       pose proof len_buffer. unfold len, arraysize in *. lia. }
  2: { unfold len. lia. }
  change (@sftp_read machine machine_SFTPv3Client) with machine_read.
  cbn [world trace].
  rewrite (machine_read_eof _ (next_handle m) (components remotepath)
             perm content) by (assumption || lia).
  cbv zeta.
  rewrite (_get_file_machine_finish _ _ _ _ (components remotepath))
    by exact Hh.
  cbn. rewrite lookup_insert_eq. split; reflexivity.
Qed.

Lemma _get_file_short_reply_pads_with_zeros_witness :
  local (world (snd (_get_file 2 "/f" "out"
                       (start (machine_short_replies [7; 8; 9])))))
    !! "out" = Some [7; 8; 0].
Proof.
  apply (_get_file_short_reply_pads_with_zeros
           (machine_short_replies [7; 8; 9]) [] "/f" "out" 420 [7; 8; 9] 2).
  - reflexivity.
  - reflexivity.
  - vm_compute. split; [discriminate | reflexivity].
  - vm_compute. discriminate.
  - lia.
Defined.

(** The local file is opened before the remote one is looked at: when the
    remote path does not exist, [_get_file] raises the [SFTPException] of
    [stat], and by then the local file has been created or emptied and its
    stream is left open; nothing was opened on the server. *)
Theorem _get_file_missing_remote_empties_local (m : machine)
    (t : list event) (remotepath localpath : string) (fuel : nat) :
  node_at (remote m) (components remotepath) = None ->
  truthy_str localpath = true ->
  fst (_get_file fuel remotepath localpath (mkRun m t))
    = Raise SFTPException
  /\ local (world (snd (_get_file fuel remotepath localpath (mkRun m t))))
       !! localpath = Some []
  /\ streams (world (snd (_get_file fuel remotepath localpath (mkRun m t))))
       !! next_stream m = Some localpath
  /\ handles (world (snd (_get_file fuel remotepath localpath (mkRun m t))))
     = handles m.
Proof.
  intros Hmissing Hlocalpath.
  unfold _get_file, FileOutputStream, stat.
  rewrite bind_call_run.
  change (@fos_new machine machine_LocalFiles) with machine_fos_new.
  unfold machine_fos_new. cbn [world trace]. rewrite Hlocalpath.
  cbn [negb]. cbv zeta.
  rewrite bind_call_run.
  change (@sftp_stat machine machine_SFTPv3Client) with machine_stat.
  unfold machine_stat. cbn [world trace remote with_streams with_local].
  rewrite Hmissing. cbn.
  rewrite !lookup_insert_eq. repeat split.
Qed.

Lemma _get_file_missing_remote_empties_local_witness :
  local (world (snd (_get_file 3 "/nothing" "out"
                       (start (machine_with_local_file [1; 2; 3])))))
    !! "out" = Some [].
Proof.
  apply (_get_file_missing_remote_empties_local
           (machine_with_local_file [1; 2; 3]) [] "/nothing" "out" 3);
    reflexivity.
Defined.

(** ** What a download leaves alone *)

Lemma machine_read_reads_only (h : handle) (fileOffset n : Z) (m : machine) :
  snd (machine_read h fileOffset n m) = m.
Proof.
  unfold machine_read.
  destruct (handles m !! h); [| reflexivity].
  destruct (node_at (remote m) _) as [[perm | perm content] |];
    try reflexivity.
  destruct (fileOffset <? 0); [reflexivity |].
  destruct (_ <=? fileOffset); reflexivity.
Qed.

Lemma same_files_but_refl (localpath : string) (m : machine) :
  same_files_but localpath m m.
Proof. split; [reflexivity | intros; reflexivity]. Qed.

Lemma same_files_but_trans (localpath : string) (m1 m2 m3 : machine) :
  same_files_but localpath m1 m2 -> same_files_but localpath m2 m3 ->
  same_files_but localpath m1 m3.
Proof.
  intros [Hr12 Hl12] [Hr23 Hl23]. split.
  - rewrite Hr23. exact Hr12.
  - intros q Hq. rewrite (Hl23 q Hq). apply Hl12. exact Hq.
Qed.

(** The loop, however it ends, changes nothing on the server and no local
    file but the one its stream is on. *)
Lemma _get_file_while_frame (localpath : string) (fuel : nat) (h : handle)
    (f : ostream) (remotefilesize size : Z) (data : list jbyte)
    (m : machine) (t : list event) :
  streams m !! f = Some localpath ->
  len data = arraysize ->
  0 <= size <= remotefilesize ->
  same_files_but localpath m
    (world (snd (_get_file_while fuel h f remotefilesize size data
                   (mkRun m t))))
  /\ handles (world (snd (_get_file_while fuel h f remotefilesize size data
                            (mkRun m t)))) = handles m.
Proof.
  revert size data m t. induction fuel as [| fuel IH];
    intros size data m t Hf Hdata Hsize.
  - split; [apply same_files_but_refl | reflexivity].
  - rewrite _get_file_while_step by assumption.
    change (@sftp_read machine machine_SFTPv3Client) with machine_read.
    change (@fos_write machine machine_LocalFiles) with machine_fos_write.
    cbn [world trace].
    pose proof (machine_read_reads_only h size arraysize m) as Hread.
    destruct (machine_read h size arraysize m) as [r m1].
    cbn [snd] in Hread. subst m1.
    destruct r as [[payload |] | e | |];
      try (split; [apply same_files_but_refl | reflexivity]).
    destruct (arraysize <? len payload) eqn:Elong;
      [split; [apply same_files_but_refl | reflexivity] |].
    cbv zeta.
    rewrite (machine_fos_write_run m f localpath) by exact Hf.
    match goal with
    | |- context [_get_file_while fuel h f remotefilesize ?size' ?data'
                    (mkRun ?m2 ?t2)] =>
        destruct (IH size' data' m2 t2) as [Hsame Hhandles]
    end.
    + exact Hf.
    + bool_to_prop. unfold len, arraysize in *.
      rewrite arraycopy_length; lia.
    + pose proof (chunk_bounds remotefilesize size Hsize). lia.
    + split; [| exact Hhandles].
      eapply same_files_but_trans; [| exact Hsame].
      split; [reflexivity |]. intros q Hq. cbn.
      apply lookup_insert_ne. congruence.
Qed.

(** Whatever the paths, the state of the server and of the local disk, the
    number of iterations allowed and the outcome, [_get_file] leaves the
    remote tree as it was and changes no local file other than the one at
    [localpath]. *)
Theorem _get_file_changes_only_local_file (m : machine) (t : list event)
    (remotepath localpath : string) (fuel : nat) :
  same_files_but localpath m
    (world (snd (_get_file fuel remotepath localpath (mkRun m t)))).
Proof.
  unfold _get_file, FileOutputStream, stat, openFileRO.
  rewrite bind_call_run.
  change (@fos_new machine machine_LocalFiles) with machine_fos_new.
  unfold machine_fos_new. cbn [world trace].
  destruct (truthy_str localpath) eqn:Hlocalpath; cbn [negb]; cbv zeta;
    [| apply same_files_but_refl].
  set (m1 := with_streams _ _ _).
  assert (H1 : same_files_but localpath m m1).
  { split; [reflexivity |]. intros q Hq. cbn.
    apply lookup_insert_ne. congruence. }
  assert (Hf : streams m1 !! next_stream m = Some localpath)
    by (cbn; apply lookup_insert_eq).
  rewrite bind_call_run.
  change (@sftp_stat machine machine_SFTPv3Client) with machine_stat.
  unfold machine_stat. cbn [world trace].
  destruct (node_at (remote m1) (components remotepath)) as [n |] eqn:Enode;
    cbv zeta; [| exact H1].
  rewrite bind_call_run.
  change (@sftp_openFileRO machine machine_SFTPv3Client)
    with machine_openFileRO.
  unfold machine_openFileRO, open_handle. cbn [world trace]. rewrite Enode.
  destruct n as [perm | perm content]; cbv zeta; [exact H1 |].
  cbn [attrs_of attrs_size].
  set (m3 := with_handles m1 _ _).
  rewrite bind_run.
  match goal with
  | |- context [_get_file_while fuel ?h ?f ?n 0 ?d (mkRun m3 ?t3)] =>
      destruct (_get_file_while_frame localpath fuel h f n 0 d m3 t3)
        as [Hloop Hhandles];
        [exact Hf | apply len_buffer | unfold len; lia |];
        destruct (_get_file_while fuel h f n 0 d (mkRun m3 t3))
          as [[[] | e | |] [m4 t4]]
  end;
    cbn [world snd] in Hloop, Hhandles;
    try (eapply same_files_but_trans; [exact H1 | exact Hloop]).
  rewrite (_get_file_machine_finish m4 t4 _ _ (components remotepath)).
  - eapply same_files_but_trans; [exact H1 |].
    eapply same_files_but_trans; [exact Hloop |].
    split; [reflexivity | intros; reflexivity].
  - rewrite Hhandles. subst m3. cbn. apply lookup_insert_eq.
Qed.

(** ** Creating, writing and reading back a remote file *)

Lemma with_remote_same (m : machine) : with_remote m (remote m) = m.
Proof. destruct m. reflexivity. Qed.

(** [createFile] in a directory that exists opens a handle on a file at
    [dest], a new and empty one unless a file is there already; it touches
    nothing else. *)
Lemma machine_createFile_run (m : machine) (dest : string) (perm0 : Z) :
  node_at (remote m) (parent (components dest)) = Some (Dir perm0) ->
  (forall perm, node_at (remote m) (components dest) <> Some (Dir perm)) ->
  exists tree,
    machine_createFile dest m
      = open_handle (components dest) (with_remote m tree)
    /\ node_at tree (components dest)
       = Some (File (created_perm m (components dest))
                 (created_content m (components dest)))
    /\ (forall q, q <> components dest ->
                  node_at tree q = node_at (remote m) q).
Proof.
  intros Hparent Hnodir.
  assert (Hp : components dest <> []).
  { intros Hroot. apply (Hnodir 493). rewrite Hroot. reflexivity. }
  unfold machine_createFile, created_perm, created_content.
  rewrite Hparent.
  destruct (node_at (remote m) (components dest)) as [[perm | perm c] |]
    eqn:Hnode.
  - exfalso. exact (Hnodir perm eq_refl).
  - exists (remote m). rewrite with_remote_same.
    split; [reflexivity |]. split; [exact Hnode | reflexivity].
  - exists (<[components dest := File 420 []]> (remote m)).
    split; [reflexivity |].
    split; [apply node_at_insert_eq; exact Hp |].
    intros q Hq. apply node_at_insert_ne. congruence.
Qed.

Lemma _create_remote_file_machine_run (m : machine) (t : list event)
    (dest : string) (mode perm0 : Z) :
  node_at (remote m) (parent (components dest)) = Some (Dir perm0) ->
  (forall perm, node_at (remote m) (components dest) <> Some (Dir perm)) ->
  exists m1 t1,
    _create_remote_file dest mode (mkRun m t)
      = (Return (next_handle m), mkRun m1 t1)
    /\ node_at (remote m1) (components dest)
       = Some (File (if setstat_supported m then mode
                     else created_perm m (components dest))
                 (created_content m (components dest)))
    /\ handles m1 !! next_handle m = Some (components dest)
    /\ (forall q, q <> components dest ->
                  node_at (remote m1) q = node_at (remote m) q)
    /\ read_limit m1 = read_limit m.
Proof.
  intros Hparent Hnodir.
  destruct (machine_createFile_run m dest perm0 Hparent Hnodir)
    as (tree & Ecreate & Hnode0 & Hothers0).
  set (p := components dest) in *.
  assert (Hp : p <> []).
  { intros Hroot. apply (Hnodir 493). rewrite Hroot. reflexivity. }
  unfold _create_remote_file, createFile, fstat, fsetstat.
  rewrite bind_call_run.
  change (@sftp_createFile machine machine_SFTPv3Client)
    with machine_createFile.
  cbn [world trace].
  rewrite Ecreate.
  set (perm1 := created_perm m p) in *.
  set (content1 := created_content m p) in *.
  unfold open_handle. cbv zeta.
  cbn [next_handle with_remote].
  set (m1 := with_handles _ _ _).
  assert (Hh : handles m1 !! next_handle m = Some p)
    by (subst m1; cbn; apply lookup_insert_eq).
  assert (Hnode : node_at (remote m1) p = Some (File perm1 content1))
    by (subst m1; cbn; exact Hnode0).
  assert (Hlookup : remote m1 !! p = Some (File perm1 content1)).
  { destruct p; [congruence | exact Hnode]. }
  assert (Hothers : forall q, q <> p ->
                      node_at (remote m1) q = node_at (remote m) q).
  { intros q Hq. subst m1. cbn. apply Hothers0. exact Hq. }
  rewrite bind_run. unfold try_except. rewrite bind_call_run.
  change (@sftp_fstat machine machine_SFTPv3Client) with machine_fstat.
  change (@sftp_fsetstat machine machine_SFTPv3Client) with machine_fsetstat.
  unfold machine_fstat. cbn [world trace]. rewrite Hh, Hnode. cbv zeta.
  unfold call, machine_fsetstat. cbn [world trace attrs_of attrs_size].
  rewrite Hh.
  replace (setstat_supported m1) with (setstat_supported m) by reflexivity.
  destruct (setstat_supported m); cbn [negb].
  - rewrite Hlookup. cbn [attrs_permissions]. unfold ret.
    eexists _, _. split; [reflexivity |].
    cbn [remote with_remote handles read_limit].
    rewrite node_at_insert_eq by exact Hp.
    repeat split; try assumption.
    intros q Hq. rewrite node_at_insert_ne by congruence.
    apply Hothers. exact Hq.
  - cbn [isinstance_SFTPException]. unfold ret.
    eexists _, _. split; [reflexivity |].
    repeat split; assumption.
Qed.

(** On the in-memory server, in a directory that exists,
    [_create_remote_file] returns a handle on a file at [dest].  A file
    that it creates is empty; a file that was there keeps its content,
    since [createFile] does not truncate.  The file has the requested mode
    when the server accepts the change, and otherwise keeps the mode it had
    or was created with; every other entry of the server is as before. *)
Theorem _create_remote_file_opens_file_at_dest (m : machine)
    (t : list event) (dest : string) (mode perm0 : Z) :
  node_at (remote m) (parent (components dest)) = Some (Dir perm0) ->
  (forall perm, node_at (remote m) (components dest) <> Some (Dir perm)) ->
  let s' := snd (_create_remote_file dest mode (mkRun m t)) in
  fst (_create_remote_file dest mode (mkRun m t)) = Return (next_handle m)
  /\ node_at (remote (world s')) (components dest)
     = Some (File (if setstat_supported m then mode
                   else created_perm m (components dest))
               (match node_at (remote m) (components dest) with
                | Some (File _ content) => content
                | _ => []
                end))
  /\ handles (world s') !! next_handle m = Some (components dest)
  /\ (forall q, q <> components dest ->
                node_at (remote (world s')) q = node_at (remote m) q).
Proof.
  intros Hparent Hnodir.
  destruct (_create_remote_file_machine_run m t dest mode perm0
              Hparent Hnodir)
    as (m1 & t1 & Erun & Hnode & Hh & Hothers & _).
  rewrite Erun. cbn [fst snd world]. repeat split; assumption.
Qed.

Lemma _create_remote_file_opens_file_at_dest_witness :
  node_at (remote (world (snd (_create_remote_file "/srv/old" 420
                                 (start machine_with_srv)))))
    ["srv"; "old"] = Some (File 420 [1; 2])
  /\ node_at (remote (world (snd (_create_remote_file "/srv/new" 420
                                    (start machine_with_srv)))))
       ["srv"; "new"] = Some (File 420 []).
Proof.
  split.
  - apply (_create_remote_file_opens_file_at_dest machine_with_srv []
             "/srv/old" 420 493).
    + reflexivity.
    + intros perm. vm_compute. discriminate.
  - apply (_create_remote_file_opens_file_at_dest machine_with_srv []
             "/srv/new" 420 493).
    + reflexivity.
    + intros perm. vm_compute. discriminate.
Defined.

Lemma _get_file_machine_copies (m : machine) (t : list event)
    (remotepath localpath : string) (perm : Z) (content : list jbyte)
    (fuel : nat) :
  node_at (remote m) (components remotepath) = Some (File perm content) ->
  truthy_str localpath = true ->
  arraysize <= read_limit m ->
  len content / arraysize + 1 < Z.of_nat fuel ->
  exists m' t',
    _get_file fuel remotepath localpath (mkRun m t)
      = (Return tt, mkRun m' t')
    /\ local m' !! localpath = Some content.
Proof.
  intros Hfile Hlocalpath Hlimit Hfuel.
  rewrite (_get_file_machine_setup m t remotepath localpath perm content)
    by assumption.
  destruct (entering_loop_copying m remotepath localpath perm content Hfile)
    as (Hh & Hp & Hf & Hlocal).
  rewrite bind_run.
  match goal with
  | |- context [_get_file_while fuel ?h ?f _ 0 _ (mkRun ?m3 ?t3)] =>
      destruct (_get_file_while_copies content perm (components remotepath)
                  h f localpath fuel 0 (zeros arraysize) m3 t3)
        as (m4 & t4 & Eloop & _ & Hh4 & _ & Hcopied & _)
  end.
  - repeat split; assumption.
  - apply len_buffer.
  - unfold len. lia.
  - unfold arraysize in *. Z.div_mod_to_equations. lia.
  - rewrite Eloop.
    rewrite (_get_file_machine_finish m4 t4 _ _ (components remotepath))
      by exact Hh4.
    eexists _, _. split; [reflexivity |]. cbn.
    rewrite Hcopied. f_equal. apply take_ge. unfold len. lia.
Qed.

Lemma _write_to_remote_file_machine_run (m : machine) (t : list event)
    (h : handle) (p : list string) (perm : Z) (content data : list jbyte)
    (position : Z) :
  handles m !! h = Some p ->
  node_at (remote m) p = Some (File perm content) ->
  0 <= position ->
  _write_to_remote_file h data position (mkRun m t) =
    (Return tt,
     mkRun (with_remote m
              (<[p := File perm (write_at content (Z.to_nat position) data)]>
                 (remote m))) t).
Proof.
  intros Hh Hp Hpos. unfold _write_to_remote_file, client_write.
  replace ((0 <? 0) || (len data <? 0) || (len data <? 0 + len data))
    with false
    by (symmetry; rewrite !orb_false_iff;
        repeat split; apply Z.ltb_ge; unfold len; lia).
  unfold unobserved. cbn [world trace].
  change (@sftp_write machine machine_SFTPv3ClientWrite) with machine_write.
  unfold machine_write. rewrite Hh, Hp.
  replace (position <? 0) with false by (symmetry; apply Z.ltb_ge; lia).
  change (Z.to_nat 0) with 0%nat. rewrite drop_0.
  replace (Z.to_nat (len data)) with (length data) by (unfold len; lia).
  rewrite firstn_all. reflexivity.
Qed.

Lemma write_at_start (content data : list jbyte) :
  write_at content 0 data = data ++ drop (length data) content.
Proof. unfold write_at. rewrite take_0. reflexivity. Qed.

(** What is uploaded comes back: creating a remote file in an existing
    directory, writing [data] at position [0], closing the handle and then
    downloading the file with [_get_file] leaves [data] in the local file,
    followed by the bytes that a longer file already at [dest] held beyond
    it, and so exactly [data] when [dest] was not there or held no more
    bytes than [data] has. *)
Theorem upload_then_get_file_round_trip (m : machine) (t : list event)
    (dest localpath : string) (mode perm0 : Z) (data : list jbyte)
    (fuel : nat) :
  let old := created_content m (components dest) in
  node_at (remote m) (parent (components dest)) = Some (Dir perm0) ->
  (forall perm, node_at (remote m) (components dest) <> Some (Dir perm)) ->
  truthy_str localpath = true ->
  arraysize <= read_limit m ->
  len (data ++ drop (length data) old) / arraysize + 1 < Z.of_nat fuel ->
  let r :=
    (remote_file <- _create_remote_file dest mode ;;
     _write_to_remote_file remote_file data 0 ;;;
     _close_remote_file remote_file ;;;
     _get_file fuel dest localpath) (mkRun m t) in
  fst r = Return tt
  /\ local (world (snd r)) !! localpath
     = Some (data ++ drop (length data) old)
  /\ ((length old <= length data)%nat ->
      local (world (snd r)) !! localpath = Some data).
Proof.
  intros old Hparent Hnodir Hlocalpath Hlimit Hfuel. cbv zeta.
  destruct (_create_remote_file_machine_run m t dest mode perm0
              Hparent Hnodir)
    as (m1 & t1 & Ecreate & Hnode & Hh & _ & Hlimit1).
  fold old in Hnode.
  assert (Hp : components dest <> []).
  { intros Hroot. apply (Hnodir 493). rewrite Hroot. reflexivity. }
  rewrite bind_run, Ecreate.
  rewrite bind_run,
    (_write_to_remote_file_machine_run m1 t1 _ _ _ _ data 0 Hh Hnode)
    by lia.
  change (Z.to_nat 0) with 0%nat. rewrite write_at_start.
  set (m2 := with_remote m1 _).
  rewrite bind_run. unfold _close_remote_file, closeFile, call.
  change (@sftp_closeFile machine machine_SFTPv3Client)
    with machine_closeFile.
  unfold machine_closeFile. cbn [world trace].
  replace (handles m2) with (handles m1) by reflexivity. rewrite Hh.
  set (m3 := with_handles m2 _ _).
  match goal with
  | |- context [_get_file fuel dest localpath (mkRun m3 ?t3)] =>
      destruct (_get_file_machine_copies m3 t3 dest localpath
                  (if setstat_supported m then mode
                   else created_perm m (components dest))
                  (data ++ drop (length data) old) fuel)
        as (m' & t' & Eget & Hlocal)
  end.
  - subst m3 m2. cbn [remote with_handles with_remote].
    apply node_at_insert_eq. exact Hp.
  - exact Hlocalpath.
  - replace (read_limit m3) with (read_limit m1) by reflexivity.
    rewrite Hlimit1. exact Hlimit.
  - exact Hfuel.
  - rewrite Eget. split; [reflexivity |]. split; [exact Hlocal |].
    intros Hshort. cbn [snd world]. rewrite Hlocal.
    rewrite drop_ge by exact Hshort. rewrite app_nil_r. reflexivity.
Qed.

Lemma upload_then_get_file_round_trip_witness :
  local (world (snd ((remote_file <- _create_remote_file "/srv/new" 420 ;;
                      _write_to_remote_file remote_file
                        (test_content 5000) 0 ;;;
                      _close_remote_file remote_file ;;;
                      _get_file 4 "/srv/new" "copy")
                       (start machine_with_srv))))
    !! "copy" = Some (test_content 5000)
  /\ local (world (snd ((remote_file <- _create_remote_file "/srv/old" 420 ;;
                         _write_to_remote_file remote_file [9] 0 ;;;
                         _close_remote_file remote_file ;;;
                         _get_file 4 "/srv/old" "copy")
                          (start machine_with_srv))))
       !! "copy" = Some [9; 2].
Proof.
  split.
  - apply (upload_then_get_file_round_trip machine_with_srv [] "/srv/new"
             "copy" 420 493 (test_content 5000) 4).
    + reflexivity.
    + intros perm. vm_compute. discriminate.
    + reflexivity.
    + vm_compute. discriminate.
    + vm_compute. reflexivity.
    + vm_compute. lia.
  - apply (upload_then_get_file_round_trip machine_with_srv [] "/srv/old"
             "copy" 420 493 [9] 4).
    + reflexivity.
    + intros perm. vm_compute. discriminate.
    + reflexivity.
    + vm_compute. discriminate.
    + vm_compute. reflexivity.
Defined.

(** ** Writing a remote file in pieces *)

Lemma write_at_prefix_length (content : list jbyte) (off : nat) :
  length (take off (content ++ replicate (off - length content) 0)) = off.
Proof. rewrite length_take, length_app, length_replicate. lia. Qed.

(** A piece written right behind another is one write of both. *)
Lemma write_at_write_at (content a b : list jbyte) (off : nat) :
  write_at (write_at content off a) (off + length a) b
    = write_at content off (a ++ b).
Proof.
  unfold write_at at 1 2.
  set (pre := take off (content ++ replicate (off - length content) 0)).
  assert (Hpre : length pre = off) by apply write_at_prefix_length.
  assert (Hhead : (off + length a)%nat = length (pre ++ a))
    by (rewrite length_app; lia).
  rewrite (app_assoc pre a), <- (app_assoc (pre ++ a)).
  rewrite (take_app_length' _ _ _ Hhead).
  rewrite (drop_app_add' _ _ _ _ Hhead), drop_drop.
  unfold write_at. fold pre.
  rewrite length_app, <- !app_assoc, Nat.add_assoc. reflexivity.
Qed.

(** On the in-memory server, two [_write_to_remote_file] calls on an open
    file, the second at the position where the first ended, leave the
    server as one call with the two pieces put together does. *)
Theorem _write_to_remote_file_in_sequence (m : machine) (t : list event)
    (h : handle) (p : list string) (perm : Z)
    (content a b : list jbyte) (position : Z) :
  handles m !! h = Some p ->
  node_at (remote m) p = Some (File perm content) ->
  0 <= position ->
  (_write_to_remote_file h a position ;;;
   _write_to_remote_file h b (position + len a)) (mkRun m t)
  = _write_to_remote_file h (a ++ b) position (mkRun m t).
Proof.
  intros Hh Hp Hpos.
  assert (Hne : p <> []) by (intros ->; discriminate).
  rewrite bind_run.
  rewrite (_write_to_remote_file_machine_run m t h p perm content a position)
    by assumption.
  rewrite (_write_to_remote_file_machine_run m t h p perm content (a ++ b)
             position) by assumption.
  set (m1 := with_remote m _).
  rewrite (_write_to_remote_file_machine_run m1 t h p perm
             (write_at content (Z.to_nat position) a) b (position + len a)).
  - subst m1. cbn [remote with_remote].
    replace (Z.to_nat (position + len a))
      with (Z.to_nat position + length a)%nat by (unfold len; lia).
    rewrite write_at_write_at, insert_insert_eq. reflexivity.
  - exact Hh.
  - subst m1. cbn [remote with_remote]. apply node_at_insert_eq. exact Hne.
  - unfold len. lia.
Qed.

Lemma _write_to_remote_file_in_sequence_witness :
  (_write_to_remote_file 0 [4; 5] 1 ;;;
   _write_to_remote_file 0 [6] (1 + len [4; 5]))
    (start (machine_mid_transfer [1; 2; 3]))
  = _write_to_remote_file 0 ([4; 5] ++ [6]) 1
      (start (machine_mid_transfer [1; 2; 3])).
Proof.
  apply (_write_to_remote_file_in_sequence (machine_mid_transfer [1; 2; 3])
           [] 0 ["f"] 420 [1; 2; 3] [4; 5] [6] 1).
  - reflexivity.
  - reflexivity.
  - lia.
Defined.

(** ** The order of the requests of a download *)

Lemma reads_follow_writes_tail (size : Z) (evs tail : list event) :
  reads_follow_writes size evs ->
  Forall (fun ev => is_transfer_event ev = false) tail ->
  reads_follow_writes size (evs ++ tail).
Proof.
  intros Hevs Htail. revert size Hevs.
  induction evs as [| ev evs IH]; intros size Hevs.
  - cbn [app]. clear Hevs. revert size.
    induction Htail as [| ev tail Hev _ IH]; intros size; [exact I |].
    destruct ev; cbn in Hev; try discriminate; cbn; apply IH.
  - destruct ev; cbn in *; try (apply IH; exact Hevs).
    destruct Hevs as (Hoff & Hn & Hevs). repeat split; try assumption.
    apply IH. exact Hevs.
Qed.

Section GetFileOrder.
Context {W : Type} `{SFTPv3Client W} `{LocalFiles W}.

Lemma _get_file_while_in_order (fuel : nat) (remotefile : handle)
    (localfile : ostream) (remotefilesize size : Z) (data : list jbyte)
    (s : run W) :
  len data = arraysize ->
  0 <= size <= remotefilesize ->
  exists evs,
    trace (snd (_get_file_while fuel remotefile localfile remotefilesize
                  size data s)) = trace s ++ evs
    /\ reads_follow_writes size evs.
Proof.
  revert size data s.
  induction fuel as [| fuel IH]; intros size data s Hdata Hsize.
  - exists []. rewrite app_nil_r. split; [reflexivity | exact I].
  - rewrite _get_file_while_step by assumption.
    destruct (sftp_read remotefile size arraysize (world s))
      as [[[payload |] | e | |] w1];
      try solve [eexists [_]; split; [reflexivity | cbn; tauto]].
    destruct (arraysize <? len payload) eqn:Elong;
      [eexists [_]; split; [reflexivity | cbn; tauto] |].
    cbv zeta. cbn [trace world].
    pose proof (chunk_bounds remotefilesize size Hsize) as [Hchunk Hnext].
    assert (Hdata' : len (arraycopy payload data 0) = arraysize).
    { bool_to_prop. unfold len, arraysize in *.
      rewrite arraycopy_length; lia. }
    assert (Hbytes :
      len (take (Z.to_nat (chunk remotefilesize size))
             (arraycopy payload data 0)) = chunk remotefilesize size).
    { unfold len in *. rewrite length_take. lia. }
    destruct (fos_write localfile _ w1) as [[[] | e | |] w2];
      try solve [eexists [_; _]; split;
                 [cbn [snd trace]; rewrite <- ?app_assoc; reflexivity
                 | cbn; tauto]].
    match goal with
    | |- context [_get_file_while fuel remotefile localfile remotefilesize
                    ?size' ?data' ?s2] =>
        destruct (IH size' data' s2 Hdata' ltac:(lia))
          as (evs & Etrace & Hevs)
    end.
    eexists (_ :: _ :: evs). split.
    + rewrite Etrace. cbn [trace]. rewrite <- !app_assoc. reflexivity.
    + cbn [reads_follow_writes]. rewrite Hbytes. repeat split. exact Hevs.
Qed.

Lemma _get_file_finish_emits (remotefile : handle) (localfile : ostream) :
  emits (fun ev => is_transfer_event ev = false)
    (closeFile remotefile ;;; flush localfile ;;; close localfile : M (run W) unit).
Proof.
  apply emits_bind; [apply emits_call; reflexivity | intros _].
  apply emits_bind; [apply emits_call; reflexivity | intros _].
  apply emits_call. reflexivity.
Qed.

(** In every run of [_get_file] in which [stat] reported a size that is not
    negative, against any server and local disk: every [read] request asks
    for [arraysize] bytes, the first at offset [0], and each later one at
    the offset that the bytes written so far add up to. *)
Theorem _get_file_reads_in_order (fuel : nat)
    (remotepath localpath : string) (s : run W) :
  exists evs,
    trace (snd (_get_file fuel remotepath localpath s)) = trace s ++ evs
    /\ forall remotefilesize,
         stat_reported_size evs = Some remotefilesize ->
         0 <= remotefilesize ->
         reads_follow_writes 0 evs.
Proof.
  unfold _get_file, FileOutputStream, stat, openFileRO.
  rewrite bind_call_run.
  destruct (fos_new localpath (world s)) as [[lf | e | |] w1]; cbv zeta;
    try solve [eexists [_]; split; [reflexivity | intros; exact I]].
  rewrite bind_call_run. cbn [world trace].
  destruct (sftp_stat remotepath w1) as [[a | e | |] w2]; cbv zeta;
    try solve [eexists [_; _]; split;
               [cbn [snd trace]; rewrite <- ?app_assoc; reflexivity
               | intros; exact I]].
  rewrite bind_call_run. cbn [world trace].
  destruct (sftp_openFileRO remotepath w2) as [[rf | e | |] w3]; cbv zeta;
    try solve [eexists [_; _; _]; split;
               [cbn [snd trace]; rewrite <- ?app_assoc; reflexivity
               | intros; exact I]].
  rewrite <- !app_assoc. cbn [app].
  set (s3 := mkRun w3 _).
  rewrite bind_run.
  destruct (_get_file_while_emits fuel rf lf (attrs_size a) 0
              (zeros arraysize) s3) as (evs4 & Eloop & _).
  assert (Horder : 0 <= attrs_size a -> reads_follow_writes 0 evs4).
  { intros Hn.
    destruct (_get_file_while_in_order fuel rf lf (attrs_size a) 0
                (zeros arraysize) s3 len_buffer (conj (Z.le_refl 0) Hn))
      as (evs4' & Eloop' & Hevs4').
    rewrite Eloop in Eloop'. apply app_inv_head in Eloop'. subst evs4'.
    exact Hevs4'. }
  destruct (_get_file_while fuel rf lf (attrs_size a) 0 (zeros arraysize) s3)
    as [[[] | e | |] s4];
    cbn [snd] in Eloop;
    try solve [exists ([ev_FileOutputStream localpath (Return lf);
                        ev_stat remotepath (Return a);
                        ev_openFileRO remotepath (Return rf)] ++ evs4);
               split;
               [cbn [snd]; rewrite Eloop; subst s3; cbn [trace];
                rewrite <- !app_assoc; reflexivity
               | cbn [app stat_reported_size reads_follow_writes];
                 intros n [= <-] Hn; exact (Horder Hn)]].
  destruct (_get_file_finish_emits rf lf s4) as (tail & Etail & Htail).
  exists ([ev_FileOutputStream localpath (Return lf);
           ev_stat remotepath (Return a);
           ev_openFileRO remotepath (Return rf)] ++ evs4 ++ tail).
  split.
  - rewrite Etail, Eloop. subst s3. cbn [trace].
    rewrite <- !app_assoc. reflexivity.
  - cbn [app stat_reported_size reads_follow_writes].
    intros n [= <-] Hn.
    apply reads_follow_writes_tail; [exact (Horder Hn) | exact Htail].
Qed.

End GetFileOrder.

Lemma _get_file_reads_in_order_witness :
  reads_follow_writes 0
    (trace (snd (_get_file 3 "/f" "out"
                   (start (machine_with_file "/f" [1; 2; 3; 4; 5]))))).
Proof.
  destruct (_get_file_reads_in_order 3 "/f" "out"
              (start (machine_with_file "/f" [1; 2; 3; 4; 5])))
    as (evs & Etrace & Horder).
  change (trace (start (machine_with_file "/f" [1; 2; 3; 4; 5])) ++ evs)
    with evs in Etrace.
  rewrite Etrace. apply (Horder 5).
  - rewrite <- Etrace. vm_compute. reflexivity.
  - lia.
Defined.

(** ** How the two logins pass errors on *)

Section LoginErrors.
Context {W : Type} `{Connection W}.

(** The two logins treat an exception of the backend differently.
    [_login] converts nothing: whatever [authenticateWithPassword] raises,
    an [IOException] included, reaches the caller as it is.
    [_login_with_public_key] returns normally exactly when the backend
    accepts the key, and passes on unchanged every exception that
    [except IOError] does not catch. *)
Theorem login_error_paths (username keyfile password : string)
    (s : run W) :
  (forall e,
      fst (conn_authenticateWithPassword username password (world s))
        = Raise e ->
      fst (_login username password s) = Raise e)
  /\ (fst (_login_with_public_key username keyfile password s) = Return tt
      <-> fst (conn_authenticateWithPublicKey username keyfile password
                 (world s)) = Return true)
  /\ (forall e,
        fst (conn_authenticateWithPublicKey username keyfile password
               (world s)) = Raise e ->
        isinstance_IOError e = false ->
        fst (_login_with_public_key username keyfile password s) = Raise e).
Proof.
  rewrite _login_run.
  unfold _login_with_public_key, try_except, bind,
    authenticateWithPublicKey, call.
  destruct (conn_authenticateWithPassword username password (world s))
    as [r w1].
  destruct (conn_authenticateWithPublicKey username keyfile password
              (world s)) as [[[] | e | |] w2]; cbn [fst negb];
    (split; [intros e0 ->; reflexivity |]).
  - split; [tauto | intros; discriminate].
  - split; [split; discriminate | intros; discriminate].
  - split.
    + destruct (isinstance_IOError e); split; discriminate.
    + intros e0 [= <-] ->. reflexivity.
  - split; [split; discriminate | intros; discriminate].
  - split; [split; discriminate | intros; discriminate].
Qed.

End LoginErrors.

Lemma login_error_paths_witness :
  fst (_login "robot" "secret" (start (test_sshd, false)))
    = Raise IOException
  /\ fst (_login_with_public_key "robot" "id_other" ""
            (start (test_sshd, false))) = Raise SSHClientException.
Proof.
  split.
  - apply (login_error_paths "robot" "id_other" "secret"
             (start (test_sshd, false))).
    reflexivity.
  - reflexivity.
Defined.
